(** * CVD simulator: a shallow embedding of the batch coordinator, the
      configuration object, the security validator, the command line entry
      point and the metadata sidecar, with the properties stated about them.

    Part I embeds the Python sources as Rocq definitions, one module per
    source module.  It is followed by the vocabulary in which the
    properties are stated.  Part II states and proves the properties.
    Part III states and proves further properties of the same modules and
    of the image checks, the image loader, the output writer, the
    dictionary form of the configuration and the presets.

    Conventions of the embedding:
    - a Python [int] is a [Z]; a [float] is a [PyFloat] (a rational, the two
      infinities, or NaN); a [str] is a [string];
    - a [pathlib.Path] is the list of its [parts] (the anchor, when there is
      one, is the first part), so that [Path] values are compared the way
      pathlib compares them;
    - a function that may raise returns a [Result]; [Raise e] is the
      exception [e] leaving the function;
    - a [dict] keyed by paths is a [gmap]; a small [dict] whose order is
      observable (the JSON document) is an association list;
    - collaborators outside the repository (the image codec, the colour
      transform, the process pool, the file system) are [Variable]s of the
      sections that use them. *)

From Stdlib Require Import ZArith QArith Ascii String List.
From stdpp Require Import gmap strings list sorting.

Set Default Proof Using "Type".
Set Warnings "-register-all".
Local Open Scope string_scope.

(* ===================================================================== *)
(** * Part I.  The embedding                                               *)
(* ===================================================================== *)

(** ** Exceptions as values *)

Inductive Result (E A : Type) : Type :=
| Ok (a : A)
| Raise (e : E).
Arguments Ok {E A} a.
Arguments Raise {E A} e.

#[export] Instance Result_bind {E} : MBind (Result E) := fun A B k r =>
  match r with
  | Ok a => k a
  | Raise e => Raise e
  end.

(** [try: r except: h] is a [try] block whose handler catches every
    exception of [r]. *)
Definition try_except {E E' A} (r : Result E A) (h : E -> Result E' A)
  : Result E' A :=
  match r with
  | Ok a => Ok a
  | Raise e => h e
  end.

(** ** Python values used by the sources *)

(** [a or b] on an optional integer: [None] and [0] are falsy. *)
Definition py_or (a : option Z) (b : Z) : Z :=
  match a with
  | Some v => if (v =? 0)%Z then b else v
  | None => b
  end.

Inductive PyFloat : Type :=
| FFinite (q : Q)
| FPosInf
| FNegInf
| FNaN.

(** [a <= b] on floats; every comparison with NaN is false. *)
Definition float_le (a b : PyFloat) : bool :=
  match a, b with
  | FNaN, _ => false
  | _, FNaN => false
  | FNegInf, _ => true
  | _, FPosInf => true
  | FFinite x, FFinite y => Qle_bool x y
  | FPosInf, _ => false
  | _, FNegInf => false
  end.

(** [a == b] on floats; NaN is equal to nothing, itself included. *)
Definition float_eqb (a b : PyFloat) : bool :=
  match a, b with
  | FFinite x, FFinite y => Qeq_bool x y
  | FPosInf, FPosInf => true
  | FNegInf, FNegInf => true
  | _, _ => false
  end.

(** [pathlib.Path]: the tuple [parts]. *)
Definition Path : Type := list string.

(** ** enums.py *)

Module Enums.

Inductive CVDType : Type := PROTAN | DEUTAN | TRITAN | GRAYSCALE.

Inductive Algorithm : Type :=
| BRETTEL_1997 | VIENOT_1999 | MACHADO_2009 | VISCHECK | AUTO.

Inductive OutputFormat : Type := JPEG | PNG | WEBP | TIFF | BMP.

Inductive LogLevel : Type := DEBUG | INFO | WARNING | ERROR | CRITICAL.

(** Iteration order of [for cvd_type in CVDType]. *)
Definition all_CVDType : list CVDType := [PROTAN; DEUTAN; TRITAN; GRAYSCALE].

Definition CVDType_name (t : CVDType) : string :=
  match t with
  | PROTAN => "PROTAN"
  | DEUTAN => "DEUTAN"
  | TRITAN => "TRITAN"
  | GRAYSCALE => "GRAYSCALE"
  end.

Definition CVDType_value (t : CVDType) : string :=
  match t with
  | PROTAN => "protan"
  | DEUTAN => "deutan"
  | TRITAN => "tritan"
  | GRAYSCALE => "bw"
  end.

Definition Algorithm_name (a : Algorithm) : string :=
  match a with
  | BRETTEL_1997 => "BRETTEL_1997"
  | VIENOT_1999 => "VIENOT_1999"
  | MACHADO_2009 => "MACHADO_2009"
  | VISCHECK => "VISCHECK"
  | AUTO => "AUTO"
  end.

Definition OutputFormat_name (f : OutputFormat) : string :=
  match f with
  | JPEG => "JPEG"
  | PNG => "PNG"
  | WEBP => "WEBP"
  | TIFF => "TIFF"
  | BMP => "BMP"
  end.

Definition OutputFormat_value (f : OutputFormat) : string :=
  match f with
  | JPEG => "jpg"
  | PNG => "png"
  | WEBP => "webp"
  | TIFF => "tiff"
  | BMP => "bmp"
  end.

Definition LogLevel_name (l : LogLevel) : string :=
  match l with
  | DEBUG => "DEBUG"
  | INFO => "INFO"
  | WARNING => "WARNING"
  | ERROR => "ERROR"
  | CRITICAL => "CRITICAL"
  end.

#[export] Instance CVDType_eq_dec : EqDecision CVDType.
Proof. solve_decision. Defined.

End Enums.
Export Enums.

(** ** config.py *)

Module Config.

(** The value handed to the constructor for [output_directory]: a
    [pathlib.Path] instance, or something else (a plain string, say), which
    the [isinstance] test of [_validate] rejects. *)
Inductive DirectoryArg : Type :=
| IsPath (p : Path)
| NotPath (s : string).

Record SimulationConfig : Type := mkSimulationConfig {
  algorithm : Algorithm;
  severity : PyFloat;
  output_format : OutputFormat;
  output_directory : DirectoryArg;
  quality : Z;
  optimize : bool;
  log_level : LogLevel;
  max_workers : option Z;
  max_image_size : Z;
  max_image_dimension : Z
}.

(** [ValidationError(message, field=..., value=..., constraint=...)]. *)
Record ValidationError : Type := mkValidationError {
  field : string;
  constraint : string
}.

(** [SimulationConfig._validate]: the checks in source order, the first
    failing one raises. *)
Definition _validate (self : SimulationConfig) : Result ValidationError unit :=
  if negb (float_le (FFinite 0) (severity self) && float_le (severity self) (FFinite 1))
  then Raise (mkValidationError "severity" "0.0 <= severity <= 1.0")
  else if negb ((1 <=? quality self)%Z && (quality self <=? 95)%Z)
  then Raise (mkValidationError "quality" "1 <= quality <= 95")
  else if negb (match output_directory self with IsPath _ => true | NotPath _ => false end)
  then Raise (mkValidationError "output_directory" "must be pathlib.Path")
  else if (match max_workers self with
           | Some w => (w <? 1)%Z
           | None => false
           end)
  then Raise (mkValidationError "max_workers" "max_workers >= 1")
  else if (max_image_size self <? 1)%Z
  then Raise (mkValidationError "max_image_size" "max_image_size > 0")
  else if (max_image_dimension self <? 1)%Z
  then Raise (mkValidationError "max_image_dimension" "max_image_dimension > 0")
  else Ok tt.

(** Construction: the dataclass [__init__] assigns the fields, then
    [__post_init__] runs [_validate]; an exception there leaves the caller
    without an instance. *)
Definition new_SimulationConfig (fields : SimulationConfig)
  : Result ValidationError SimulationConfig :=
  _ ← _validate fields; Ok fields.

(** The defaults of the dataclass fields (the output directory default is
    [./outputs] when the environment variable is not set). *)
Definition default_fields : SimulationConfig :=
  {| algorithm := BRETTEL_1997;
     severity := FFinite (8 # 10);
     output_format := JPEG;
     output_directory := IsPath ["outputs"];
     quality := 95;
     optimize := true;
     log_level := INFO;
     max_workers := None;
     max_image_size := 100 * 1024 * 1024;
     max_image_dimension := 10000 |}.

End Config.

(** ** pathlib, as far as the sources use it (POSIX flavour) *)

Module Pathlib.

(** [s.split(sep)] for a one-character separator. *)
Fixpoint split_on (sep : ascii) (s : string) : list string :=
  match s with
  | EmptyString => [EmptyString]
  | String c rest =>
      if Ascii.eqb c sep then EmptyString :: split_on sep rest
      else match split_on sep rest with
           | [] => [String c EmptyString]
           | w :: ws => String c w :: ws
           end
  end.

(** The root of a path string: two leading slashes exactly are kept as
    they are, any other positive number of leading slashes is one root. *)
Definition root_of (s : string) : list string :=
  match s with
  | String "/" (String "/" (String "/" _)) => ["/"]
  | String "/" (String "/" _) => ["//"]
  | String "/" _ => ["/"]
  | _ => []
  end.

(** [Path(s)]: the root, then the components that are neither empty nor
    a single dot. *)
Definition Path_of_string (s : string) : Path :=
  (root_of s ++ filter (fun w => w ≠ "" ∧ w ≠ ".") (split_on "/" s))%list.

Definition has_root (p : Path) : bool :=
  match p with
  | w :: _ => String.eqb w "/" || String.eqb w "//"
  | [] => false
  end.

(** [a / b]: a rooted right operand replaces the left one. *)
Definition truediv (a b : Path) : Path :=
  if has_root b then b else (a ++ b)%list.

Fixpoint join_parts (ws : list string) : string :=
  match ws with
  | [] => ""
  | [w] => w
  | w :: ws' => w +:+ "/" +:+ join_parts ws'
  end.

(** [str(p)]. *)
Definition str_of_Path (p : Path) : string :=
  match p with
  | [] => "."
  | w :: ws => if has_root p then w +:+ join_parts ws else join_parts p
  end.

(** [self.relative_to(other)]: the parts of [self] after those of [other];
    [ValueError] (here [Raise tt]) when [other] is not a leading segment of
    [self]. *)
Fixpoint relative_to (self other : Path) {struct other} : Result unit Path :=
  match other, self with
  | [], _ => Ok self
  | o :: other', s :: self' =>
      if String.eqb o s then relative_to self' other' else Raise tt
  | _ :: _, [] => Raise tt
  end.

End Pathlib.

(** ** utils/validators.py *)

Module Validators.
Import Pathlib.

(** [SecurityError(message, violation_type=..., details=...)]. *)
Record SecurityError : Type := mkSecurityError {
  violation_type : string;
  details : list (string * string)
}.

(** [s.replace(old, new)] for a non-empty [old]: occurrences are found left
    to right and do not overlap.  [skip] counts the characters of the
    occurrence just replaced that are still to be passed over. *)
Fixpoint replace_from (old new : string) (skip : nat) (s : string) : string :=
  match s with
  | EmptyString => EmptyString
  | String c rest =>
      match skip with
      | S k => replace_from old new k rest
      | O =>
          if String.prefix old s
          then new +:+ replace_from old new (String.length old - 1) rest
          else String c (replace_from old new 0 rest)
      end
  end.

Definition str_replace (old new s : string) : string :=
  replace_from old new 0 s.

Fixpoint string_map (f : ascii -> ascii) (s : string) : string :=
  match s with
  | EmptyString => EmptyString
  | String c rest => String (f c) (string_map f rest)
  end.

(** [dangerous = ['/', '\\', '\x00', '..']]. *)
Definition dangerous : list string :=
  ["/"; "\"; String Ascii.zero EmptyString; ".."].

Definition safe_chars : list ascii :=
  list_ascii_of_string
    "abcdefghijklmnopqrstuvwxyzABCDEFGHIJKLMNOPQRSTUVWXYZ0123456789._-".

Definition is_safe_char (c : ascii) : bool :=
  existsb (Ascii.eqb c) safe_chars.

(** [SecurityValidator.sanitize_filename]. *)
Definition sanitize_filename (filename : string) : string :=
  let result := fold_left (fun r d => str_replace d "_" r) dangerous filename in
  let result := string_map (fun c => if is_safe_char c then c else "_"%char) result in
  if String.eqb result "" || String.eqb result "_" then "unnamed_file"
  else result.

Section OutputPath.

(** [Path.resolve()]: the canonical absolute form the operating system
    gives a path (current directory, dot-dot segments and symbolic links
    resolved; the path need not exist).  It depends on the file system,
    not on the sources. *)
Variable resolve : Path -> Path.

(** [SecurityValidator.sanitize_output_path]. *)
Definition sanitize_output_path (output_dir : Path) (filename : string)
  : Result SecurityError Path :=
  let output_dir := resolve output_dir in
  let safe_filename := sanitize_filename filename in
  let target := resolve (truediv output_dir (Path_of_string safe_filename)) in
  try_except
    (_ ← relative_to target output_dir; Ok target)
    (fun _ =>
       Raise (mkSecurityError "PATH_TRAVERSAL"
                [("output_dir", str_of_Path output_dir);
                 ("filename", filename);
                 ("resolved", str_of_Path target)])).

End OutputPath.

(** A file system without symbolic links whose current directory is
    [cwd]: resolution is lexical. *)
Fixpoint normalize (acc : list string) (ws : list string) : list string :=
  match ws with
  | [] => rev acc
  | w :: ws' =>
      if String.eqb w ".." then normalize (tail acc) ws'
      else normalize (w :: acc) ws'
  end.

Definition lexical_resolve (cwd : list string) (p : Path) : Path :=
  match p with
  | r :: ws => if has_root p then "/" :: normalize [] ws
               else "/" :: normalize (rev cwd) p
  | [] => "/" :: cwd
  end.

End Validators.

(** ** exceptions.py, and the built-in exceptions the batch code can meet *)

Inductive Exception : Type :=
| ImageProcessingError (message : string)
| CVDSimulatorError (message : string)
| BatchProcessingError (message : string) (failed_items : list Path)
                       (success_count : Z)
| ValueError (message : string)
| BrokenProcessPool.

(** ** core/simulator.py *)

Module Simulator.
Import Config.

(** *** Images

    An image in mode RGB: its size and its pixels, row by row, each
    channel an 8-bit value. *)
Definition Pixel : Type := (Z * Z * Z)%type.

Record Image : Type := mkImage {
  width : Z;
  height : Z;
  pixels : list Pixel
}.

(** An image in mode L (one 8-bit channel). *)
Record ImageL : Type := mkImageL {
  widthL : Z;
  heightL : Z;
  lumas : list Z
}.

(** [image.convert("L")] on an RGB image, as the image library computes
    it: the ITU-R 601-2 luma transform in 16.16 fixed point. *)
Definition L24 (px : Pixel) : Z :=
  let '(r, g, b) := px in
  Z.shiftr (r * 19595 + g * 38470 + b * 7471 + 32768) 16.

Definition convert_L (image : Image) : ImageL :=
  {| widthL := width image; heightL := height image;
     lumas := L24 <$> pixels image |}.

(** [image.convert("RGB")] on an L image: the channel is replicated. *)
Definition convert_RGB (image : ImageL) : Image :=
  {| width := widthL image; height := heightL image;
     pixels := (fun l => (l, l, l)) <$> lumas image |}.

(** What one input path maps to in a batch result: the dictionary of all
    output paths, or the single output path when one type was asked for. *)
Inductive ItemResult : Type :=
| AllTypes (outputs : list (CVDType * Path))
| OneType (output : Path).

Abbreviation BatchResult := (gmap Path (option ItemResult)).

(** The aggregation state of a batch loop. *)
Record BatchState : Type := mkBatchState {
  results : gmap Path (option ItemResult);
  failed : list Path;
  success_count : Z;
  completed : Z
}.

Definition initial_state : BatchState :=
  {| results := ∅; failed := []; success_count := 0; completed := 0 |}.

(** The report at the end of [process_batch] and
    [process_batch_parallel]. *)
Definition report (st : BatchState) : Result Exception BatchResult :=
  match failed st with
  | _ :: _ =>
      if (success_count st =? 0)%Z
      then Raise (BatchProcessingError "All images failed to process"
                    (failed st) 0)
      else Ok (results st)
  | [] => Ok (results st)
  end.

(** [range(0, stop, step)]. *)
Definition py_range_step (stop step : Z) : Result Exception (list Z) :=
  if (step =? 0)%Z then Raise (ValueError "range() arg 3 must not be zero")
  else if (step <? 0)%Z then Ok []
  else Ok ((fun k => Z.of_nat k * step)%Z <$>
           seq 0 (Z.to_nat ((stop + step - 1) / step))).

(** The slice [l[i : j]] for [0 <= i <= j]. *)
Definition slice {A} (l : list A) (i j : Z) : list A :=
  take (Z.to_nat (j - i)) (drop (Z.to_nat i) l).

(** [as_completed(futures)] yields the futures in the order in which they
    finish.  The finishing times are a parameter: [ranks] gives the time
    of each submitted future, by position (a missing entry counts as time
    0), and the futures are yielded by increasing time. *)
Definition finishes_before {A} (a b : nat * A) : Prop := (a.1 ≤ b.1)%nat.

#[export] Instance finishes_before_dec {A} : RelDecision (@finishes_before A).
Proof. intros a b. unfold finishes_before. apply _. Defined.

Definition as_completed {A} (ranks : list nat) (futures : list A) : list A :=
  snd <$> merge_sort finishes_before
            (imap (fun i f => (default 0%nat (ranks !! i), f)) futures).

(** [get_optimal_workers]; the memory-based limit, a floating point
    quotient truncated to an integer in the source, is taken as given. *)
Definition get_optimal_workers (memory_based_limit available_cpus : Z)
    (image_count : Z) : Z :=
  let cpu_based_limit := available_cpus in
  let count_based_limit := image_count in
  let optimal :=
    Z.min (Z.min memory_based_limit cpu_based_limit) count_based_limit in
  Z.max 1 optimal.

Section Simulator.

(** The collaborators.  [None] stands for an exception raised by the
    collaborator. *)

(** The external colour transform, [self._simulator.simulate_cvd] of the
    simulator class selected by the algorithm. *)
Variable simulate_cvd : Algorithm -> Image -> CVDType -> PyFloat -> option Image.
(** [ImageLoader.load]: validation, decoding, conversion to RGB. *)
Variable load : Path -> option Image.
(** [OutputWriter.save]. *)
Variable save : Image -> CVDType -> option Path.
(** Whether the pool hands back the result of the task submitted for a
    path; when it does not, [future.result()] raises. *)
Variable pool_delivers : Path -> bool.
(** [multiprocessing.cpu_count()]. *)
Variable cpu_count : Z.

(** [self.config]. *)
Variable config : SimulationConfig.

(** [CVDSimulator.simulate]. *)
Definition simulate (image : Image) (cvd_type : CVDType)
  : Result Exception Image :=
  match cvd_type with
  | GRAYSCALE => Ok (convert_RGB (convert_L image))
  | _ =>
      match simulate_cvd (algorithm config) image cvd_type (severity config) with
      | Some result => Ok result
      | None =>
          Raise (CVDSimulatorError ("Failed to simulate " +:+ CVDType_name cvd_type))
      end
  end.

Definition loader_load (image_path : Path) : Result Exception Image :=
  match load image_path with
  | Some image => Ok image
  | None => Raise (ImageProcessingError "Failed to load image")
  end.

Definition writer_save (image : Image) (cvd_type : CVDType)
  : Result Exception Path :=
  match save image cvd_type with
  | Some output_path => Ok output_path
  | None => Raise (ImageProcessingError "Failed to save image")
  end.

(** The loop [for cvd_type in CVDType] of [process_image]: the first
    exception leaves the loop and the function. *)
Fixpoint process_types (image : Image) (types : list CVDType)
    (outputs : list (CVDType * Path))
  : Result Exception (list (CVDType * Path)) :=
  match types with
  | [] => Ok outputs
  | cvd_type :: types' =>
      simulated ← simulate image cvd_type;
      output_path ← writer_save simulated cvd_type;
      process_types image types' (outputs ++ [(cvd_type, output_path)])
  end.

(** [CVDSimulator.process_image]. *)
Definition process_image (image_path : Path)
  : Result Exception (list (CVDType * Path)) :=
  image ← loader_load image_path;
  process_types image all_CVDType [].

(** One iteration of the loop of [CVDSimulator.process_batch]. *)
Definition process_batch_step (st : BatchState) (path : Path) : BatchState :=
  match process_image path with
  | Ok result =>
      {| results := <[path := Some (AllTypes result)]> (results st);
         failed := failed st;
         success_count := success_count st + 1;
         completed := completed st |}
  | Raise _ =>
      {| results := <[path := None]> (results st);
         failed := failed st ++ [path];
         success_count := success_count st;
         completed := completed st |}
  end.

(** [CVDSimulator.process_batch]; [workers] is only written to the log. *)
Definition process_batch (image_paths : list Path) (max_workers : option Z)
  : Result Exception BatchResult :=
  match image_paths with
  | [] => Ok ∅
  | _ :: _ =>
      let workers := py_or max_workers (py_or (Config.max_workers config) cpu_count) in
      report (fold_left process_batch_step image_paths initial_state)
  end.

(** [_process_single_image]: the worker for all types.  The worker gets
    the configuration as a dictionary, rebuilds it and makes a simulator
    of its own; every exception, also one of these steps, makes it return
    [None].  Here the two steps are taken to succeed with the
    configuration of the coordinator; what is left is the call of
    [process_image]. *)
Definition _process_single_image (image_path : Path) : option ItemResult :=
  match process_image image_path with
  | Ok outputs => Some (AllTypes outputs)
  | Raise _ => None
  end.

(** [_process_single_image_with_type]: the worker for one type, with the
    same two steps taken to succeed. *)
Definition _process_single_image_with_type (cvd_type : CVDType)
    (image_path : Path) : option ItemResult :=
  match (image ← loader_load image_path;
         simulated ← simulate image cvd_type;
         writer_save simulated cvd_type) with
  | Ok output_path => Some (OneType output_path)
  | Raise _ => None
  end.

(** [AsyncCVDSimulator.__init__]: the worker count kept in
    [self.max_workers]. *)
Definition AsyncCVDSimulator_max_workers (max_workers : option Z) : Z :=
  py_or max_workers (py_or (Config.max_workers config) cpu_count).

(** [self.max_workers] of the asynchronous simulator. *)
Variable self_max_workers : Z.

(** [ProcessPoolExecutor(max_workers=...)]: a count that is not positive
    is refused. *)
Definition ProcessPoolExecutor (max_workers : Z) : Result Exception unit :=
  if (max_workers <=? 0)%Z
  then Raise (ValueError "max_workers must be greater than 0")
  else Ok tt.

(** [future.result()] for the task submitted for [path]. *)
Definition future_result (process_func : Path -> option ItemResult)
    (path : Path) : Result Exception (option ItemResult) :=
  if pool_delivers path then Ok (process_func path) else Raise BrokenProcessPool.

(** One iteration of the loop over [as_completed(futures)]. *)
Definition collect_step (process_func : Path -> option ItemResult)
    (st : BatchState) (path : Path) : BatchState :=
  let completed := (completed st + 1)%Z in
  match future_result process_func path with
  | Ok (Some result) =>
      {| results := <[path := Some result]> (results st);
         failed := failed st;
         success_count := success_count st + 1;
         completed := completed |}
  | Ok None =>
      {| results := <[path := None]> (results st);
         failed := failed st ++ [path];
         success_count := success_count st;
         completed := completed |}
  | Raise _ =>
      {| results := <[path := None]> (results st);
         failed := failed st ++ [path];
         success_count := success_count st;
         completed := completed |}
  end.

(** The worker function [process_batch_parallel] selects. *)
Definition process_func (cvd_type : option CVDType)
  : Path -> option ItemResult :=
  match cvd_type with
  | Some t => _process_single_image_with_type t
  | None => _process_single_image
  end.

(** [AsyncCVDSimulator.process_batch_parallel], called without a progress
    callback.  Each future is identified by the path it was submitted
    for: the key [Path(args[0])] with [args[0] = str(path)] is the path
    again (lemma [Path_of_string_str_of_Path] of Part II).  [ranks] fixes
    the completion order. *)
Definition process_batch_parallel (ranks : list nat) (image_paths : list Path)
    (cvd_type : option CVDType) : Result Exception BatchResult :=
  match image_paths with
  | [] => Ok ∅
  | _ :: _ =>
      _ ← ProcessPoolExecutor self_max_workers;
      let futures := image_paths in
      report (fold_left (collect_step (process_func cvd_type))
                (as_completed ranks futures) initial_state)
  end.

(** The loop over the chunks of [process_batch_chunked];
    [all_results.update(chunk_results)] lets the later chunk win. *)
Fixpoint process_chunks (ranks : nat -> list nat) (i : nat)
    (chunks : list (list Path)) (cvd_type : option CVDType)
    (all_results : BatchResult) : Result Exception BatchResult :=
  match chunks with
  | [] => Ok all_results
  | chunk :: chunks' =>
      chunk_results ← process_batch_parallel (ranks i) chunk cvd_type;
      process_chunks ranks (S i) chunks' cvd_type (chunk_results ∪ all_results)
  end.

(** [AsyncCVDSimulator.process_batch_chunked]; [ranks i] fixes the
    completion order inside chunk [i]. *)
Definition process_batch_chunked (ranks : nat -> list nat)
    (image_paths : list Path) (chunk_size : Z) (cvd_type : option CVDType)
  : Result Exception BatchResult :=
  match image_paths with
  | [] => Ok ∅
  | _ :: _ =>
      let total := Z.of_nat (length image_paths) in
      starts ← py_range_step total chunk_size;
      let chunks := (fun i => slice image_paths i (i + chunk_size)) <$> starts in
      process_chunks ranks 0 chunks cvd_type ∅
  end.

End Simulator.

End Simulator.

(** ** presets.py *)

Module Presets.
Import Config.

Inductive PresetType : Type :=
| WEB_DESIGN | PRINT_MEDIA | SCIENTIFIC_VISUALIZATION
| MOBILE_APP | ARCHIVAL | FAST_PREVIEW.

Definition preset_fields (a : Algorithm) (s : Q) (f : OutputFormat) (q : Z)
    (o : bool) : SimulationConfig :=
  {| algorithm := a; severity := FFinite s; output_format := f;
     output_directory := output_directory default_fields;
     quality := q; optimize := o;
     log_level := log_level default_fields;
     max_workers := max_workers default_fields;
     max_image_size := max_image_size default_fields;
     max_image_dimension := max_image_dimension default_fields |}.

(** The [config] of each entry of [PRESETS]. *)
Definition preset_config (p : PresetType) : SimulationConfig :=
  match p with
  | WEB_DESIGN => preset_fields MACHADO_2009 (8 # 10) WEBP 85 true
  | PRINT_MEDIA => preset_fields VIENOT_1999 1 PNG 95 true
  | SCIENTIFIC_VISUALIZATION => preset_fields BRETTEL_1997 1 TIFF 95 false
  | MOBILE_APP => preset_fields AUTO (7 # 10) JPEG 90 true
  | ARCHIVAL => preset_fields VISCHECK 1 PNG 95 true
  | FAST_PREVIEW => preset_fields BRETTEL_1997 (6 # 10) JPEG 75 true
  end.

End Presets.

(** ** interfaces/cli.py *)

Module Cli.
Import Config Presets Pathlib.

(** The namespace [parser.parse_args] returns.  Options restricted by
    [choices] hold the chosen enumeration member. *)
Record Namespace : Type := mkNamespace {
  images : list string;
  arg_algorithm : Algorithm;
  arg_severity : PyFloat;
  arg_format : OutputFormat;
  arg_output : string;
  arg_quality : Z;
  arg_verbose : bool;
  arg_log_level : LogLevel;
  arg_log_file : option string;
  arg_type : option CVDType;
  arg_progress : bool;
  arg_preset : option PresetType;
  arg_list_presets : bool;
  arg_export_metadata : bool;
  arg_profile : bool;
  arg_list_algorithms : bool;
  arg_list_types : bool
}.

(** What [parser.parse_args(args)] does with an argument list: it returns
    a namespace, or it ends the call through [parser.exit], with status 2
    after a usage error ([parser.error]) and with status 0 after printing
    the help or the version ([--help], [--version]). *)
Inductive Parse : Type :=
| Parsed (parsed : Namespace)
| UsageError
| HelpOrVersion.

(** How a call of [main] ends: it returns an exit code, [SystemExit]
    leaves it with a status ([parser.error] exits with status 2), or the
    [OSError] of [setup_logging] leaves it. *)
Inductive Outcome : Type :=
| Returns (code : Z)
| SystemExit (status : Z)
| OSError.

Section Main.

Variable simulate_cvd : Algorithm -> Simulator.Image -> CVDType -> PyFloat
                        -> option Simulator.Image.
Variable load : Path -> option Simulator.Image.
Variable save : Simulator.Image -> CVDType -> option Path.
(** Whether [CVDSimulator(config)] returns (the transform library is
    importable, ...). *)
Variable simulator_init : SimulationConfig -> bool.
(** Whether the metadata sidecar of an input path gets written. *)
Variable sidecar_written : Path -> bool.
(** [TQDM_AVAILABLE]. *)
Variable TQDM_AVAILABLE : bool.

(** [process_single_image]; only the count of the returned pair is kept. *)
Definition process_single_image (config : SimulationConfig)
    (image_path : Path) (cvd_type : option CVDType)
    (export_metadata_flag : bool) : Z :=
  let attempt : Result Exception unit :=
    _ ← match cvd_type with
        | Some t =>
            image ← Simulator.loader_load load image_path;
            simulated ← Simulator.simulate simulate_cvd config image t;
            output_path ← Simulator.writer_save save simulated t;
            Ok tt
        | None =>
            results ← Simulator.process_image simulate_cvd load save config image_path;
            Ok tt
        end;
    if export_metadata_flag
    then if sidecar_written image_path then Ok tt
         else Raise (ValueError "metadata export failed")
    else Ok tt in
  match attempt with
  | Ok _ => 1
  | Raise _ => 0
  end.

(** The configuration [main] builds. *)
Definition build_config (parsed : Namespace)
  : Result ValidationError SimulationConfig :=
  match arg_preset parsed with
  | Some p =>
      let config := preset_config p in
      Ok {| algorithm := algorithm config;
            severity := severity config;
            output_format := output_format config;
            output_directory := IsPath (Path_of_string (arg_output parsed));
            quality := quality config;
            optimize := optimize config;
            log_level := log_level config;
            max_workers := max_workers config;
            max_image_size := max_image_size config;
            max_image_dimension := max_image_dimension config |}
  | None =>
      new_SimulationConfig
        {| algorithm := arg_algorithm parsed;
           severity := arg_severity parsed;
           output_format := arg_format parsed;
           output_directory := IsPath (Path_of_string (arg_output parsed));
           quality := arg_quality parsed;
           optimize := optimize default_fields;
           log_level := if arg_verbose parsed then DEBUG else arg_log_level parsed;
           max_workers := max_workers default_fields;
           max_image_size := max_image_size default_fields;
           max_image_dimension := max_image_dimension default_fields |}
  end.

(** [argparse] on the parser [create_parser] builds: the standard library
    decides which argument lists parse and to which namespace. *)
Variable parse_args : list string -> Parse.
(** Whether the directory of a log file can be made and the file opened
    for appending. *)
Variable log_file_opens : Path -> bool.

(** [Path(parsed.log_file) if parsed.log_file else None]: an empty string
    is falsy, like [None]. *)
Definition log_file_of (parsed : Namespace) : option Path :=
  match arg_log_file parsed with
  | Some s => if String.eqb s "" then None else Some (Path_of_string s)
  | None => None
  end.

(** [setup_logging], as far as it can fail: with a log file it makes the
    directory and opens the file, and an [OSError] of these (here
    [Raise tt]) is not caught. *)
Definition setup_logging (log_file : option Path) : Result unit unit :=
  match log_file with
  | Some p => if log_file_opens p then Ok tt else Raise tt
  | None => Ok tt
  end.

(** [main].  Printing and profiling have no part in how the call ends. *)
Definition main (args : list string) : Outcome :=
  match parse_args args with
  | UsageError => SystemExit 2
  | HelpOrVersion => SystemExit 0
  | Parsed parsed =>
  if arg_list_algorithms parsed then Returns 0
  else if arg_list_types parsed then Returns 0
  else if arg_list_presets parsed then Returns 0
  else
    match images parsed with
    | [] => SystemExit 2
    | _ :: _ =>
        match setup_logging (log_file_of parsed) with
        | Raise _ => OSError
        | Ok _ =>
        match build_config parsed with
        | Raise _ => Returns 1
        | Ok config =>
            if negb (simulator_init config) then Returns 1
            else
              let image_paths := Path_of_string <$> images parsed in
              let use_progress :=
                arg_progress parsed && TQDM_AVAILABLE
                && (1 <? Z.of_nat (length image_paths))%Z in
              let cvd_type := arg_type parsed in
              let count image_path :=
                process_single_image config image_path cvd_type
                  (arg_export_metadata parsed) in
              let success_count :=
                if use_progress
                then fold_left (fun n image_path => n + count image_path)%Z
                       image_paths 0%Z
                else fold_left (fun n image_path => n + count image_path)%Z
                       image_paths 0%Z in
              let total := Z.of_nat (length image_paths) in
              if (success_count =? total)%Z then Returns 0 else Returns 1
        end
        end
    end
  end.

End Main.

End Cli.

(** ** utils/metadata.py *)

Module Metadata.
Import Pathlib.

(** The Python values a metadata record can hold in its [config]
    dictionary ([dict[str, Any]]).  [PObject] is a value the JSON encoder
    has no native form for; a [pathlib.Path] stands for all of them. *)
Inductive PyValue : Type :=
| PNone
| PBool (b : bool)
| PInt (z : Z)
| PFloat (f : PyFloat)
| PStr (s : string)
| PList (l : list PyValue)
| PDict (d : list (string * PyValue))
| PObject (p : Path).

(** A JSON document, as the [json] module writes and reads it. *)
Inductive Json : Type :=
| JNull
| JBool (b : bool)
| JInt (z : Z)
| JFloat (f : PyFloat)
| JString (s : string)
| JArray (l : list Json)
| JObject (members : list (string * Json)).

(** [json.dump(value, f, default=str)], up to the text of the document:
    a value without a native form is replaced by [str(value)]. *)
Fixpoint dump (v : PyValue) : Json :=
  match v with
  | PNone => JNull
  | PBool b => JBool b
  | PInt z => JInt z
  | PFloat f => JFloat f
  | PStr s => JString s
  | PList l => JArray (map dump l)
  | PDict d => JObject (map (fun kv => (fst kv, dump (snd kv))) d)
  | PObject p => JString (str_of_Path p)
  end.

(** [d[k] = v] on a dictionary kept in insertion order. *)
Fixpoint dict_set {V} (k : string) (v : V) (d : list (string * V))
  : list (string * V) :=
  match d with
  | [] => [(k, v)]
  | (k', v') :: d' =>
      if String.eqb k k' then (k, v) :: d' else (k', v') :: dict_set k v d'
  end.

Definition dict_of_members {V} (members : list (string * V))
  : list (string * V) :=
  fold_left (fun d kv => dict_set (fst kv) (snd kv) d) members [].

(** [d.get(k)]. *)
Fixpoint dict_get {V} (k : string) (d : list (string * V)) : option V :=
  match d with
  | [] => None
  | (k', v) :: d' => if String.eqb k k' then Some v else dict_get k d'
  end.

(** [json.load(f)]. *)
Fixpoint load (j : Json) : PyValue :=
  match j with
  | JNull => PNone
  | JBool b => PBool b
  | JInt z => PInt z
  | JFloat f => PFloat f
  | JString s => PStr s
  | JArray l => PList (map load l)
  | JObject members =>
      PDict (dict_of_members (map (fun kv => (fst kv, load (snd kv))) members))
  end.

(** Python's [==] on these values: numbers compare by value across
    [bool], [int] and [float]; dictionaries compare key by key. *)
Definition as_number (v : PyValue) : option PyFloat :=
  match v with
  | PBool b => Some (FFinite (if b then 1 else 0))
  | PInt z => Some (FFinite (inject_Z z))
  | PFloat f => Some f
  | _ => None
  end.

(** Two lists are equal when they have the same length and equal items. *)
Fixpoint all2 {A} (eqb : A → A → bool) (l m : list A) : bool :=
  match l, m with
  | [], [] => true
  | x :: l', y :: m' => eqb x y && all2 eqb l' m'
  | _, _ => false
  end.

Fixpoint py_eqb (a b : PyValue) {struct a} : bool :=
  match a, b with
  | PNone, PNone => true
  | PStr s, PStr t => String.eqb s t
  | PObject p, PObject q => bool_decide (p = q)
  | PList l, PList m => all2 py_eqb l m
  | PDict d, PDict e =>
      Nat.eqb (length d) (length e) &&
      forallb (fun kv => match dict_get (fst kv) e with
                         | Some w => py_eqb (snd kv) w
                         | None => false
                         end) d
  | _, _ =>
      match as_number a, as_number b with
      | Some x, Some y => float_eqb x y
      | _, _ => false
      end
  end.

Record SimulationMetadata : Type := mkSimulationMetadata {
  version : string;
  timestamp : string;
  input_file : string;
  input_checksum : string;
  output_files : list (string * string);
  config : list (string * PyValue);
  system_info : list (string * string);
  execution_time_ms : PyFloat;
  notes : string
}.

Definition str_dict (d : list (string * string)) : PyValue :=
  PDict (map (fun kv => (fst kv, PStr (snd kv))) d).

(** The [==] of the dataclass: the fields compared in order. *)
Definition SimulationMetadata_eqb (a b : SimulationMetadata) : bool :=
  String.eqb (version a) (version b)
  && String.eqb (timestamp a) (timestamp b)
  && String.eqb (input_file a) (input_file b)
  && String.eqb (input_checksum a) (input_checksum b)
  && py_eqb (str_dict (output_files a)) (str_dict (output_files b))
  && py_eqb (PDict (config a)) (PDict (config b))
  && py_eqb (str_dict (system_info a)) (str_dict (system_info b))
  && float_eqb (execution_time_ms a) (execution_time_ms b)
  && String.eqb (notes a) (notes b).

(** [export_metadata]: the file at [output_path] holds the document
    afterwards. *)
Definition export_metadata (metadata : SimulationMetadata)
    (output_path : Path) (fs : gmap Path Json) : Path * gmap Path Json :=
  let data :=
    PDict [("version", PStr (version metadata));
           ("timestamp", PStr (timestamp metadata));
           ("input_file", PStr (input_file metadata));
           ("input_checksum", PStr (input_checksum metadata));
           ("output_files", str_dict (output_files metadata));
           ("config", PDict (config metadata));
           ("system_info", str_dict (system_info metadata));
           ("execution_time_ms", PFloat (execution_time_ms metadata));
           ("notes", PStr (notes metadata))] in
  (output_path, <[output_path := dump data]> fs).

Inductive LoadError : Type :=
| FileNotFoundError
| KeyError (key : string)
| TypeError (message : string).

(** Readers of the loaded values at the annotated field types.  The
    Python constructor stores whatever the document holds; here a
    document whose value is not of the annotated type gives no record. *)
Definition as_str (v : PyValue) : Result LoadError string :=
  match v with
  | PStr s => Ok s
  | _ => Raise (TypeError "str expected")
  end.

Definition as_float (v : PyValue) : Result LoadError PyFloat :=
  match v with
  | PFloat f => Ok f
  | PInt z => Ok (FFinite (inject_Z z))
  | _ => Raise (TypeError "float expected")
  end.

Definition as_dict (v : PyValue) : Result LoadError (list (string * PyValue)) :=
  match v with
  | PDict d => Ok d
  | _ => Raise (TypeError "dict expected")
  end.

Fixpoint as_str_dict (d : list (string * PyValue))
  : Result LoadError (list (string * string)) :=
  match d with
  | [] => Ok []
  | (k, v) :: d' =>
      s ← as_str v;
      rest ← as_str_dict d';
      Ok ((k, s) :: rest)
  end.

(** [data[key]]. *)
Definition getitem (data : list (string * PyValue)) (key : string)
  : Result LoadError PyValue :=
  match dict_get key data with
  | Some v => Ok v
  | None => Raise (KeyError key)
  end.

(** [data.get(key, default)]. *)
Definition get_default (data : list (string * PyValue)) (key : string)
    (default : PyValue) : PyValue :=
  match dict_get key data with
  | Some v => v
  | None => default
  end.

(** [load_metadata]. *)
Definition load_metadata (metadata_path : Path) (fs : gmap Path Json)
  : Result LoadError SimulationMetadata :=
  match fs !! metadata_path with
  | None => Raise FileNotFoundError
  | Some document =>
      data ← as_dict (load document);
      version ← getitem data "version" ≫= as_str;
      timestamp ← getitem data "timestamp" ≫= as_str;
      input_file ← getitem data "input_file" ≫= as_str;
      input_checksum ← getitem data "input_checksum" ≫= as_str;
      output_files ← as_dict (get_default data "output_files" (PDict [])) ≫= as_str_dict;
      config ← as_dict (get_default data "config" (PDict []));
      system_info ← as_dict (get_default data "system_info" (PDict [])) ≫= as_str_dict;
      execution_time_ms ← as_float (get_default data "execution_time_ms" (PFloat (FFinite 0)));
      notes ← as_str (get_default data "notes" (PStr ""));
      Ok {| version := version; timestamp := timestamp;
            input_file := input_file; input_checksum := input_checksum;
            output_files := output_files; config := config;
            system_info := system_info;
            execution_time_ms := execution_time_ms; notes := notes |}
  end.

End Metadata.

(** ** Strings: [str.upper], [str.lower], [str.rfind] (ASCII) *)

Module PyStr.
Import Validators.

Definition ascii_upper (c : ascii) : ascii :=
  let n := nat_of_ascii c in
  if (97 <=? n)%nat && (n <=? 122)%nat then ascii_of_nat (n - 32) else c.

Definition ascii_lower (c : ascii) : ascii :=
  let n := nat_of_ascii c in
  if (65 <=? n)%nat && (n <=? 90)%nat then ascii_of_nat (n + 32) else c.

(** [s.upper()] and [s.lower()]. *)
Definition upper (s : string) : string := string_map ascii_upper s.
Definition lower (s : string) : string := string_map ascii_lower s.

(** [s.rfind(c)] for a character [c]; [None] is the result [-1]. *)
Fixpoint rfind (c : ascii) (s : string) : option nat :=
  match s with
  | EmptyString => None
  | String a rest =>
      match rfind c rest with
      | Some i => Some (S i)
      | None => if Ascii.eqb a c then Some 0%nat else None
      end
  end.

End PyStr.

(** ** enums.py: lookup of a member by its name, [Enum[name]] *)

Module EnumLookup.

Definition all_Algorithm : list Algorithm :=
  [BRETTEL_1997; VIENOT_1999; MACHADO_2009; VISCHECK; AUTO].

Definition all_OutputFormat : list OutputFormat := [JPEG; PNG; WEBP; TIFF; BMP].

Definition all_LogLevel : list LogLevel :=
  [DEBUG; INFO; WARNING; ERROR; CRITICAL].

(** [E[name]]: the member called [name]; [None] stands for [KeyError]. *)
Definition by_name {E} (members : list E) (name_of : E → string)
    (name : string) : option E :=
  List.find (fun m => String.eqb (name_of m) name) members.

Definition Algorithm_by_name : string → option Algorithm :=
  by_name all_Algorithm Algorithm_name.
Definition OutputFormat_by_name : string → option OutputFormat :=
  by_name all_OutputFormat OutputFormat_name.
Definition LogLevel_by_name : string → option LogLevel :=
  by_name all_LogLevel LogLevel_name.
Definition CVDType_by_name : string → option CVDType :=
  by_name all_CVDType CVDType_name.

End EnumLookup.

(** ** utils/validators.py: the validator object and [validate_image] *)

Module ImageValidation.
Import Config Pathlib Metadata PyStr.

(** [SecurityError] with the [details] a file check stores (numbers and
    lists besides strings). *)
Record SecurityError : Type := mkSecurityError {
  violation_type : string;
  details : list (string * PyValue)
}.

Record SecurityValidator : Type := mkSecurityValidator {
  max_file_size : Z;
  max_dimension : Z;
  allowed_formats : list string
}.

(** The class attribute [ALLOWED_FORMATS]. *)
Definition ALLOWED_FORMATS : list string :=
  ["jpeg"; "png"; "gif"; "bmp"; "tiff"; "webp"].

(** [SecurityValidator.__init__]; in [allowed_formats or
    self.ALLOWED_FORMATS] an empty set is falsy, like [None]. *)
Definition new_SecurityValidator (max_file_size max_dimension : Z)
    (allowed_formats : option (list string))
  : Result ValidationError SecurityValidator :=
  if (max_file_size <? 1)%Z
  then Raise (mkValidationError "max_file_size" "max_file_size > 0")
  else if (max_dimension <? 1)%Z
  then Raise (mkValidationError "max_dimension" "max_dimension > 0")
  else Ok {| max_file_size := max_file_size;
             max_dimension := max_dimension;
             allowed_formats :=
               match allowed_formats with
               | Some (f :: fs) => f :: fs
               | Some [] => ALLOWED_FORMATS
               | None => ALLOWED_FORMATS
               end |}.

(** [SecurityValidator()], all arguments at their defaults. *)
Definition default_validator : SecurityValidator :=
  {| max_file_size := 100 * 1024 * 1024;
     max_dimension := 10000;
     allowed_formats := ALLOWED_FORMATS |}.

(** What the file system and the image library answer for one path. *)
Record FileProbe : Type := mkFileProbe {
  (** [file_path.exists()] *)
  path_exists : bool;
  (** [file_path.is_file()] *)
  path_is_file : bool;
  (** [file_path.stat().st_size] *)
  st_size : Z;
  (** [Image.open(file_path).format]; the outer [None] when opening
      raises *)
  pil_format : option (option string);
  (** the text of the exception raised by [Image.open], [img.verify()] or
      the second [Image.open]; [None] when none is raised *)
  verify_error : option string;
  (** [img2.size] *)
  image_size : Z * Z
}.

(** [_get_image_format]. *)
Definition _get_image_format (probe : FileProbe) : option string :=
  match pil_format probe with
  | Some (Some fmt) => if String.eqb fmt "" then None else Some (lower fmt)
  | Some None => None
  | None => None
  end.

(** [SecurityValidator.validate_image]: the checks in source order. *)
Definition validate_image (self : SecurityValidator) (file_path : Path)
    (probe : FileProbe) : Result SecurityError unit :=
  let path := ("path", PStr (str_of_Path file_path)) in
  if negb (path_exists probe)
  then Raise (mkSecurityError "FILE_NOT_FOUND" [path])
  else if negb (path_is_file probe)
  then Raise (mkSecurityError "NOT_A_FILE" [path])
  else
    let file_size := st_size probe in
    if (max_file_size self <? file_size)%Z
    then Raise (mkSecurityError "FILE_TOO_LARGE"
                  [path; ("size", PInt file_size);
                   ("max_size", PInt (max_file_size self))])
    else if (file_size =? 0)%Z
    then Raise (mkSecurityError "EMPTY_FILE" [path])
    else
      match _get_image_format probe with
      | None => Raise (mkSecurityError "UNKNOWN_FORMAT" [path])
      | Some image_type =>
          if negb (bool_decide (image_type ∈ allowed_formats self))
          then Raise (mkSecurityError "DISALLOWED_FORMAT"
                        [path; ("format", PStr image_type);
                         ("allowed_formats",
                          PList (PStr <$> allowed_formats self))])
          else
            match verify_error probe with
            | Some e =>
                Raise (mkSecurityError "CORRUPTED_FILE"
                         [path; ("error", PStr e)])
            | None =>
                let '(width, height) := image_size probe in
                if (max_dimension self <? width)%Z
                   || (max_dimension self <? height)%Z
                then Raise (mkSecurityError "DIMENSIONS_TOO_LARGE"
                              [path; ("width", PInt width);
                               ("height", PInt height);
                               ("max_dimension", PInt (max_dimension self))])
                else Ok tt
            end
      end.

End ImageValidation.

(** ** core/image_loader.py *)

Module ImageLoader.
Import Config Simulator ImageValidation.

(** What can be raised inside the [try] block of [load]. *)
Inductive LoadFailure : Type :=
| Security (e : SecurityError)
| Codec.

Section Loading.

(** The file system, as the validator sees it. *)
Variable probe : Path → FileProbe.
(** [Image.open(image_path)], followed by [convert("RGB")] when the mode
    is another one; [None] when one of them raises. *)
Variable open_RGB : Path → option Image.

(** [ImageLoader.__init__]: [validator or SecurityValidator()]. *)
Definition new_ImageLoader (validator : option SecurityValidator)
  : SecurityValidator :=
  match validator with
  | Some v => v
  | None => default_validator
  end.

(** [ImageLoader.load]: every exception of the block other than
    [ImageProcessingError] is wrapped into one. *)
Definition load (self_validator : SecurityValidator) (image_path : Path)
  : Result Exception Image :=
  try_except
    (_ ← match validate_image self_validator image_path (probe image_path) with
         | Ok _ => Ok tt
         | Raise e => Raise (Security e)
         end;
     match open_RGB image_path with
     | Some image => Ok image
     | None => Raise Codec
     end)
    (fun _ => Raise (ImageProcessingError "Failed to load image")).

(** [self.loader.load] of a [CVDSimulator(config)]: the constructor
    builds the loader as [ImageLoader()]. *)
Definition CVDSimulator_loader_load (config : SimulationConfig)
    (image_path : Path) : Result Exception Image :=
  load (new_ImageLoader None) image_path.

(** The loader as the collaborator of the simulator of Part I. *)
Definition loader (config : SimulationConfig) (image_path : Path)
  : option Image :=
  match CVDSimulator_loader_load config image_path with
  | Ok image => Some image
  | Raise _ => None
  end.

End Loading.

End ImageLoader.

(** ** core/output_writer.py *)

Module OutputWriter.
Import Config Pathlib Validators Simulator.

(** What [save] can raise: the security error of the path check, the
    [AttributeError] of a directory that is no path object, an exception of
    [mkdir], and the wrapped exception of the encoder. *)
Inductive WriterError : Type :=
| WSecurityError (e : Validators.SecurityError)
| WAttributeError
| WOSError
| WImageProcessingError (message : string).

Section Writer.

Variable resolve : Path → Path.
(** [self.config]. *)
Variable config : SimulationConfig.

(** [OutputWriter._generate_output_path]; an empty [custom_name] is falsy,
    like [None]. *)
Definition _generate_output_path (cvd_type : CVDType) (timestamp : string)
    (custom_name : option string) : Result WriterError Path :=
  let name_base :=
    match custom_name with
    | Some n => if String.eqb n "" then CVDType_value cvd_type +:+ "_image" else n
    | None => CVDType_value cvd_type +:+ "_image"
    end in
  let filename :=
    name_base +:+ "_" +:+ timestamp +:+ "."
    +:+ OutputFormat_value (output_format config) in
  match output_directory config with
  | IsPath output_directory =>
      match sanitize_output_path resolve output_directory filename with
      | Ok target => Ok target
      | Raise e => Raise (WSecurityError e)
      end
  | NotPath _ => Raise WAttributeError
  end.

(** The keyword arguments [_get_format_settings] adds to the format name:
    the quality and the optimize flag, where the format takes them. *)
Definition _get_format_settings : option Z * option bool :=
  match output_format config with
  | JPEG => (Some (quality config), Some (optimize config))
  | PNG => (None, Some (optimize config))
  | WEBP => (Some (quality config), None)
  | TIFF => (None, None)
  | BMP => (None, None)
  end.

(** [datetime.now().strftime("%Y%m%d_%H%M%S")]. *)
Variable now : string.
(** Whether [mkdir(parents=True, exist_ok=True)] returns. *)
Variable mkdir_ok : bool.
(** Whether [image.save(output_path, **settings)] returns. *)
Variable image_save_ok : Image → Path → option Z * option bool → bool.

(** [OutputWriter.save]. *)
Definition save (image : Image) (cvd_type : CVDType)
    (timestamp custom_name : option string) : Result WriterError Path :=
  let timestamp := match timestamp with Some t => t | None => now end in
  output_path ← _generate_output_path cvd_type timestamp custom_name;
  if negb mkdir_ok then Raise WOSError
  else if image_save_ok image output_path _get_format_settings
  then Ok output_path
  else Raise (WImageProcessingError "Failed to save image").

End Writer.

End OutputWriter.

(** ** config.py: [to_dict] and [from_dict] *)

Module ConfigDict.
Import Config Pathlib Metadata PyStr EnumLookup.

(** [SimulationConfig.to_dict]. *)
Definition to_dict (self : SimulationConfig) : list (string * PyValue) :=
  [("algorithm", PStr (Algorithm_name (algorithm self)));
   ("severity", PFloat (severity self));
   ("output_format", PStr (OutputFormat_name (output_format self)));
   ("output_directory",
    PStr (match output_directory self with
          | IsPath p => str_of_Path p
          | NotPath s => s
          end));
   ("quality", PInt (quality self));
   ("optimize", PBool (optimize self));
   ("log_level", PStr (LogLevel_name (log_level self)));
   ("max_workers",
    match max_workers self with
    | Some w => PInt w
    | None => PNone
    end);
   ("max_image_size", PInt (max_image_size self));
   ("max_image_dimension", PInt (max_image_dimension self))].

(** How [from_dict] ends without an instance.  [Unrepresentable] is not a
    Python exception: it marks a dictionary that holds, for some field, a
    value that is not of the annotated type, which the record of Part I
    cannot store. *)
Inductive FromDictError : Type :=
| ConfigurationError (config_key : string)
| Invalid (e : ValidationError)
| Unrepresentable (key : string).

(** The names of the dataclass fields. *)
Definition valid_keys : list string :=
  ["algorithm"; "severity"; "output_format"; "output_directory"; "quality";
   "optimize"; "log_level"; "max_workers"; "max_image_size";
   "max_image_dimension"].

(** The conversion of an enumeration field given by name: a string is
    looked up after [upper()], and an unknown name raises; the key may be
    absent, and any other value is left as it is. *)
Inductive Converted (E : Type) : Type :=
| Absent
| Member (m : E)
| Other (v : PyValue).
Arguments Absent {E}.
Arguments Member {E} m.
Arguments Other {E} v.

Definition convert_enum {E} (lookup : string → option E) (key : string)
    (data : list (string * PyValue)) : Result FromDictError (Converted E) :=
  match dict_get key data with
  | None => Ok Absent
  | Some (PStr s) =>
      match lookup (upper s) with
      | Some m => Ok (Member m)
      | None => Raise (ConfigurationError key)
      end
  | Some v => Ok (Other v)
  end.

(** The value a field gets when the constructor is called with the items
    of [data]: the default when the key is absent. *)
Definition enum_field {E} (key : string) (c : Converted E) (default : E)
  : Result FromDictError E :=
  match c with
  | Absent => Ok default
  | Member m => Ok m
  | Other _ => Raise (Unrepresentable key)
  end.

Definition float_field (key : string) (data : list (string * PyValue))
    (default : PyFloat) : Result FromDictError PyFloat :=
  match dict_get key data with
  | None => Ok default
  | Some (PFloat f) => Ok f
  | Some (PInt z) => Ok (FFinite (inject_Z z))
  | Some _ => Raise (Unrepresentable key)
  end.

Definition int_field (key : string) (data : list (string * PyValue))
    (default : Z) : Result FromDictError Z :=
  match dict_get key data with
  | None => Ok default
  | Some (PInt z) => Ok z
  | Some _ => Raise (Unrepresentable key)
  end.

Definition bool_field (key : string) (data : list (string * PyValue))
    (default : bool) : Result FromDictError bool :=
  match dict_get key data with
  | None => Ok default
  | Some (PBool b) => Ok b
  | Some _ => Raise (Unrepresentable key)
  end.

Definition optional_int_field (key : string) (data : list (string * PyValue))
    (default : option Z) : Result FromDictError (option Z) :=
  match dict_get key data with
  | None => Ok default
  | Some PNone => Ok None
  | Some (PInt z) => Ok (Some z)
  | Some _ => Raise (Unrepresentable key)
  end.

(** [output_directory]: a string is converted to a path, a path object is
    kept, and anything else reaches the constructor as it is. *)
Definition directory_field (data : list (string * PyValue))
    (default : DirectoryArg) : DirectoryArg :=
  match dict_get "output_directory" data with
  | None => default
  | Some (PStr s) => IsPath (Path_of_string s)
  | Some (PObject p) => IsPath p
  | Some _ => NotPath ""
  end.

(** [SimulationConfig.from_dict], for a dictionary given by its items,
    with enumeration members given by their names.  The key reported for
    unknown keys is the first of a set in Python; here it is the first in
    the order of the items. *)
Definition from_dict (config_dict : list (string * PyValue))
  : Result FromDictError SimulationConfig :=
  let data := config_dict in
  algorithm ← convert_enum Algorithm_by_name "algorithm" data;
  output_format ← convert_enum OutputFormat_by_name "output_format" data;
  log_level ← convert_enum LogLevel_by_name "log_level" data;
  let output_directory :=
    directory_field data (Config.output_directory default_fields) in
  let unknown_keys :=
    filter (fun k => k ∉ valid_keys) (fst <$> data) in
  match unknown_keys with
  | k :: _ => Raise (ConfigurationError k)
  | [] =>
      algorithm ← enum_field "algorithm" algorithm (Config.algorithm default_fields);
      severity ← float_field "severity" data (Config.severity default_fields);
      output_format ← enum_field "output_format" output_format
                        (Config.output_format default_fields);
      quality ← int_field "quality" data (Config.quality default_fields);
      optimize ← bool_field "optimize" data (Config.optimize default_fields);
      log_level ← enum_field "log_level" log_level (Config.log_level default_fields);
      max_workers ← optional_int_field "max_workers" data
                      (Config.max_workers default_fields);
      max_image_size ← int_field "max_image_size" data
                         (Config.max_image_size default_fields);
      max_image_dimension ← int_field "max_image_dimension" data
                              (Config.max_image_dimension default_fields);
      match new_SimulationConfig
              {| algorithm := algorithm; severity := severity;
                 output_format := output_format;
                 output_directory := output_directory;
                 quality := quality; optimize := optimize;
                 log_level := log_level; max_workers := max_workers;
                 max_image_size := max_image_size;
                 max_image_dimension := max_image_dimension |} with
      | Ok config => Ok config
      | Raise e => Raise (Invalid e)
      end
  end.

End ConfigDict.
(** ** pathlib: [name], [parent], [suffix] and [stem] *)

Module PathParts.
Import Pathlib PyStr.

(** The parts after the root. *)
Definition components (p : Path) : list string :=
  if has_root p then tail p else p.

(** [p.name]: the last component, the empty string when there is none. *)
Definition name (p : Path) : string := List.last (components p) "".

(** [p.parent]: the path without its last component; a path without
    component is its own parent. *)
Definition parent (p : Path) : Path :=
  match components p with
  | [] => p
  | _ :: _ => removelast p
  end.

(** [p.stem], as pathlib computes it up to Python 3.13: the name up to its
    last dot, when that dot is neither the first nor the last character. *)
Definition stem (p : Path) : string :=
  let name := name p in
  match rfind "." name with
  | Some i =>
      if (0 <? i)%nat && (i <? String.length name - 1)%nat
      then substring 0 i name
      else name
  | None => name
  end.

End PathParts.

(** ** utils/metadata.py: creation, verification and the sidecar path *)

Module MetadataTools.
Import Config Pathlib Metadata ConfigDict PathParts.

(** [cvd_simulator.__version__]. *)
Definition __version__ : string := "1.1.1".

(** What the [platform] and [sys] modules and the three libraries report;
    a library version is [None] when it cannot be read. *)
Record Platform : Type := mkPlatform {
  platform_platform : string;
  sys_version : string;
  python_implementation : string;
  processor : string;
  machine : string;
  node : string;
  pillow_version : option string;
  numpy_version : option string;
  daltonlens_version : option string
}.

(** [get_system_info]. *)
Definition get_system_info (pl : Platform) : list (string * string) :=
  let info :=
    [("platform", platform_platform pl);
     ("python_version", sys_version pl);
     ("python_implementation", python_implementation pl);
     ("processor", if String.eqb (processor pl) "" then "unknown" else processor pl);
     ("machine", machine pl);
     ("node", node pl)] in
  let info := dict_set "pillow_version" (default "unknown" (pillow_version pl)) info in
  let info := dict_set "numpy_version" (default "unknown" (numpy_version pl)) info in
  let info := dict_set "daltonlens_version"
                (default "unknown" (daltonlens_version pl)) info in
  info.

Inductive ChecksumError : Type :=
| ChecksumFileNotFound
| ChecksumOSError.

(** The outcome of [verify_reproducibility]. *)
Record Verification : Type := mkVerification {
  metadata_valid : bool;
  input_file_exists : bool;
  checksum_match : bool;
  software_version_match : bool;
  warnings : list string;
  errors : list string
}.

Section Tools.

(** [Path.exists()]. *)
Variable path_exists : Path → bool.
(** The SHA-256 digest of the bytes of a file, in hexadecimal; [None] when
    the file cannot be read. *)
Variable sha256_hexdigest : Path → option string.
(** [datetime.now(timezone.utc).isoformat().replace("+00:00", "Z")]. *)
Variable utc_now : string.
Variable platform : Platform.

(** [calculate_checksum], with the default algorithm. *)
Definition calculate_checksum (file_path : Path)
  : Result ChecksumError string :=
  if negb (path_exists file_path) then Raise ChecksumFileNotFound
  else match sha256_hexdigest file_path with
       | Some digest => Ok digest
       | None => Raise ChecksumOSError
       end.

(** [create_metadata]; [output_files] is the dictionary given by its
    items. *)
Definition create_metadata (input_file : Path)
    (output_files : list (CVDType * Path)) (config : SimulationConfig)
    (execution_time_ms : PyFloat) (notes : string) : SimulationMetadata :=
  let input_path := input_file in
  let input_checksum :=
    match calculate_checksum input_path with
    | Ok checksum => checksum
    | Raise _ => ""
    end in
  let output_dict :=
    dict_of_members
      ((fun kv => (CVDType_name (fst kv), str_of_Path (snd kv))) <$> output_files) in
  {| version := __version__;
     timestamp := utc_now;
     Metadata.input_file := str_of_Path input_path;
     Metadata.input_checksum := input_checksum;
     Metadata.output_files := output_dict;
     Metadata.config := to_dict config;
     system_info := get_system_info platform;
     Metadata.execution_time_ms := execution_time_ms;
     Metadata.notes := notes |}.

(** [verify_reproducibility], for a metadata file [load_metadata] reads
    at the annotated types.  On a document with a value of another type
    the Python function goes on with the value as it is, and fails later
    or not at all; such a document is outside this definition, which
    stops at the [TypeError] of the typed reader.  The message recorded
    when the digest cannot be computed is followed, in Python, by the text
    of the exception, which is left out. *)
Definition verify_reproducibility (metadata_path : Path)
    (input_file : option Path) (fs : gmap Path Json)
  : Result LoadError Verification :=
  metadata ← load_metadata metadata_path fs;
  let input_path :=
    match input_file with
    | Some p => p
    | None => Path_of_string (Metadata.input_file metadata)
    end in
  let '(input_file_exists, checksum_match, errors) :=
    if path_exists input_path
    then match calculate_checksum input_path with
         | Ok current_checksum =>
             if String.eqb current_checksum (Metadata.input_checksum metadata)
             then (true, true, [])
             else (true, false, ["Input file checksum does not match"])
         | Raise _ => (true, false, ["Could not verify checksum"])
         end
    else (false, false, ["Input file not found: " +:+ str_of_Path input_path]) in
  let '(software_version_match, warnings) :=
    if String.eqb (version metadata) __version__
    then (true, [])
    else (false,
          ["Software version differs: metadata=" +:+ version metadata
           +:+ ", current=" +:+ __version__]) in
  let current_system := get_system_info platform in
  let warnings :=
    if bool_decide (dict_get "platform" (system_info metadata)
                    ≠ dict_get "platform" current_system)
    then (warnings ++ ["Platform differs, results may vary slightly"])%list
    else warnings in
  Ok {| metadata_valid := true;
        input_file_exists := input_file_exists;
        checksum_match := checksum_match;
        software_version_match := software_version_match;
        warnings := warnings;
        errors := errors |}.

End Tools.

(** [generate_sidecar_path]. *)
Definition generate_sidecar_path (image_path : Path) (suffix : string) : Path :=
  truediv (parent image_path)
    (Path_of_string (stem image_path +:+ suffix +:+ ".json")).

End MetadataTools.

(** ** presets.py: the shared preset objects *)

Module PresetStore.
Import Config Presets Pathlib Cli.

#[export] Instance PresetType_eq_dec : EqDecision PresetType.
Proof. solve_decision. Defined.

Definition all_PresetType : list PresetType :=
  [WEB_DESIGN; PRINT_MEDIA; SCIENTIFIC_VISUALIZATION; MOBILE_APP; ARCHIVAL;
   FAST_PREVIEW].

Definition PresetType_value (p : PresetType) : string :=
  match p with
  | WEB_DESIGN => "web_design"
  | PRINT_MEDIA => "print_media"
  | SCIENTIFIC_VISUALIZATION => "scientific_visualization"
  | MOBILE_APP => "mobile_app"
  | ARCHIVAL => "archival"
  | FAST_PREVIEW => "fast_preview"
  end.

(** [PresetType(value)]: the member with that value; [None] stands for
    [ValueError]. *)
Definition PresetType_by_value (value : string) : option PresetType :=
  List.find (fun p => String.eqb (PresetType_value p) value) all_PresetType.

(** [", ".join(p.value for p in PresetType)]. *)
Fixpoint join_comma (ws : list string) : string :=
  match ws with
  | [] => ""
  | [w] => w
  | w :: ws' => w +:+ ", " +:+ join_comma ws'
  end.

(** [get_preset], up to the entry of [PRESETS] it returns: the result is
    the key of that entry. *)
Definition get_preset (preset_type : string + PresetType)
  : Result Exception PresetType :=
  match preset_type with
  | inl name =>
      match PresetType_by_value (PyStr.lower name) with
      | Some p => Ok p
      | None =>
          let available := join_comma (PresetType_value <$> all_PresetType) in
          Raise (ValueError ("Unknown preset '" +:+ name +:+ "'. Available: "
                             +:+ available))
      end
  | inr p => Ok p
  end.

(** The [config] object of each entry of the module-level dictionary
    [PRESETS].  The objects are shared: [get_preset] hands out the entry
    itself, not a copy. *)
Definition PresetConfigs : Type := PresetType → SimulationConfig.

(** [PRESETS], as the module defines it. *)
Definition PRESETS : PresetConfigs := preset_config.

(** [config.output_directory = directory] on an object. *)
Definition with_output_directory (config : SimulationConfig)
    (directory : DirectoryArg) : SimulationConfig :=
  {| algorithm := algorithm config;
     severity := severity config;
     output_format := output_format config;
     output_directory := directory;
     quality := quality config;
     optimize := optimize config;
     log_level := log_level config;
     max_workers := max_workers config;
     max_image_size := max_image_size config;
     max_image_dimension := max_image_dimension config |}.

(** [apply_preset]: the assignment goes to the [copy.copy] of the preset's
    object, so the presets are as before. *)
Definition apply_preset (presets : PresetConfigs) (preset_type : PresetType)
    (output_directory : option Path) : SimulationConfig * PresetConfigs :=
  let config := presets preset_type in
  let config :=
    match output_directory with
    | Some directory => with_output_directory config (IsPath directory)
    | None => config
    end in
  (config, presets).

(** The configuration step of [main], with what it does to the presets:
    with [--preset] the assignment goes to the preset's own object. *)
Definition main_build_config (parsed : Namespace) (presets : PresetConfigs)
  : Result ValidationError SimulationConfig * PresetConfigs :=
  match arg_preset parsed with
  | Some p =>
      let config :=
        with_output_directory (presets p)
          (IsPath (Path_of_string (arg_output parsed))) in
      (Ok config, fun q => if decide (q = p) then config else presets q)
  | None => (build_config parsed, presets)
  end.

End PresetStore.

(** ** Concrete collaborators and inputs for the worked cases of Part II *)

Module Scenario.
Import Config Simulator.

(** A one-pixel image. *)
Definition tiny_image : Image :=
  {| width := 1; height := 1; pixels := [(200, 30, 90)%Z] |}.

(** A loader for which exactly the path [bad.png] cannot be loaded. *)
Definition load (p : Path) : option Image :=
  if decide (p = ["bad.png"]) then None else Some tiny_image.

(** A colour transform that leaves the picture as it is. *)
Definition simulate_cvd (a : Algorithm) (image : Image) (t : CVDType)
    (s : PyFloat) : option Image := Some image.

(** A writer that always succeeds. *)
Definition save (image : Image) (t : CVDType) : option Path :=
  Some ["outputs"; CVDType_value t +:+ "_image.jpg"].

Definition pool_delivers (p : Path) : bool := true.

Definition cpu_count : Z := 4.

Definition bad : Path := ["bad.png"].
Definition good : Path := ["good.png"].
Definition other : Path := ["other.png"].

End Scenario.

(* ===================================================================== *)
(** * Vocabulary of the properties                                        *)
(* ===================================================================== *)

(** ** Configuration *)

Module ConfigSpec.
Import Config.

(** The constraints of the fields, written as propositions. *)
Definition severity_in_range (s : PyFloat) : Prop :=
  ∃ q : Q, s = FFinite q ∧ (0 <= q)%Q ∧ (q <= 1)%Q.

Definition workers_in_range (w : option Z) : Prop :=
  match w with
  | Some n => (1 ≤ n)%Z
  | None => True
  end.

Definition directory_is_path (d : DirectoryArg) : Prop :=
  ∃ p, d = IsPath p.

Definition fields_in_range (c : SimulationConfig) : Prop :=
  severity_in_range (severity c)
  ∧ (1 ≤ quality c ≤ 95)%Z
  ∧ directory_is_path (output_directory c)
  ∧ workers_in_range (max_workers c)
  ∧ (0 < max_image_size c)%Z
  ∧ (0 < max_image_dimension c)%Z.

Definition some_field_out_of_range (c : SimulationConfig) : Prop :=
  ¬ severity_in_range (severity c)
  ∨ (quality c < 1 ∨ 95 < quality c)%Z
  ∨ ¬ directory_is_path (output_directory c)
  ∨ (∃ n, max_workers c = Some n ∧ (n < 1)%Z)
  ∨ (max_image_size c ≤ 0)%Z
  ∨ (max_image_dimension c ≤ 0)%Z.

End ConfigSpec.

(** ** Paths *)

Module PathlibSpec.
Import Pathlib.

Definition no_slash (w : string) : bool :=
  forallb (fun c => negb (Ascii.eqb c "/")) (list_ascii_of_string w).

(** A component of a path: not empty, not a single dot, without slash. *)
Definition is_component (w : string) : bool :=
  negb (String.eqb w "") && negb (String.eqb w ".") && no_slash w.

(** The lists of parts that are [parts] of a [pathlib.Path]: an optional
    root followed by components. *)
Definition is_pathlib_path (p : Path) : bool :=
  match p with
  | [] => true
  | r :: ws => if has_root p then forallb is_component ws
               else forallb is_component p
  end.

End PathlibSpec.

(** ** Security validator *)

Module ValidatorSpec.
Import Validators Pathlib.

(** Every character of the string is in the allow-list. *)
Definition all_safe (s : string) : bool :=
  forallb is_safe_char (list_ascii_of_string s).

(** The character-wise step of [sanitize_filename]. *)
Definition keep_safe (c : ascii) : ascii :=
  if is_safe_char c then c else "_"%char.

(** No component is the parent reference. *)
Definition no_parent_reference (ws : list string) : Prop :=
  Forall (fun w => w ≠ "..") ws.

End ValidatorSpec.

(** ** Single-image step and batch coordinator *)

Module BatchSpec.
Import Config Simulator.

(** A pixel whose three channels are equal. *)
Definition gray_pixel (px : Pixel) : Prop :=
  let '(r, g, b) := px in r = g ∧ g = b.

Section Outcomes.

Variable simulate_cvd : Algorithm -> Image -> CVDType -> PyFloat -> option Image.
Variable load : Path -> option Image.
Variable save : Image -> CVDType -> option Path.
Variable pool_delivers : Path -> bool.
Variable config : SimulationConfig.

(** What the sequential loop records for a path. *)
Definition sequential_outcome (p : Path) : option ItemResult :=
  _process_single_image simulate_cvd load save config p.

(** What the parallel loop records for a path: the worker's result when
    the pool delivers it, a failure otherwise. *)
Definition unit_of_work (cvd_type : option CVDType) (p : Path)
  : option ItemResult :=
  match future_result pool_delivers (process_func simulate_cvd load save config cvd_type) p with
  | Ok r => r
  | Raise _ => None
  end.

(** A chunk for which [process_batch_parallel] returns: some path of it
    succeeds, or none fails. *)
Definition chunk_returns (cvd_type : option CVDType) (chunk : list Path) : Prop :=
  (∃ p, p ∈ chunk ∧ is_Some (unit_of_work cvd_type p))
  ∨ (∀ p, p ∈ chunk → is_Some (unit_of_work cvd_type p)).

End Outcomes.

(** The mapping that has, for each of the given paths, what was recorded
    for it. *)
Definition records (outcome : Path → option ItemResult) (l : list Path)
    (m : BatchResult) : Prop :=
  ∀ p, m !! p = if decide (p ∈ l) then Some (outcome p) else None.

(** The aggregate failure policy, for a list of paths, what is recorded
    for each path, and the way the call ended: either no path succeeded
    and the call raised the aggregate error with all the paths and success
    count 0, or some path succeeded and the call returned a mapping that
    holds, for every path, what was recorded for it (the failure marker
    [None] for a failed path). *)
Definition follows_failure_policy (l : list Path)
    (outcome : Path → option ItemResult)
    (r : Result Exception BatchResult) : Prop :=
  ((∀ p, p ∈ l → outcome p = None)
   ∧ ∃ failed_items,
       r = Raise (BatchProcessingError "All images failed to process"
                    failed_items 0)
       ∧ failed_items ≡ₚ l)
  ∨ ((∃ p, p ∈ l ∧ is_Some (outcome p))
     ∧ ∃ m, r = Ok m ∧ ∀ p, p ∈ l → m !! p = Some (outcome p)).

(** A call returned a mapping with exactly one entry per given path, each
    entry holding a result. *)
Definition one_entry_per_path (l : list Path)
    (r : Result Exception BatchResult) : Prop :=
  ∃ m, r = Ok m
       ∧ size m = length l
       ∧ dom m = list_to_set l
       ∧ ∀ p, p ∈ l → ∃ result, m !! p = Some (Some result).

(** The worker count in the words of the specification: the configured
    [max_workers], else the override, else the number of CPUs, clamped to
    the number of input paths from above and to 1 from below. *)
Definition specified_worker_count (config_max_workers override : option Z)
    (cpu_count image_count : Z) : Z :=
  let chosen :=
    match config_max_workers with
    | Some w => w
    | None => match override with
              | Some w => w
              | None => cpu_count
              end
    end in
  Z.max 1 (Z.min chosen image_count).

(** A valid configuration that sets [max_workers] to 2. *)
Definition two_workers_config : SimulationConfig :=
  {| algorithm := algorithm default_fields;
     severity := severity default_fields;
     output_format := output_format default_fields;
     output_directory := output_directory default_fields;
     quality := quality default_fields;
     optimize := optimize default_fields;
     log_level := log_level default_fields;
     max_workers := Some 2%Z;
     max_image_size := max_image_size default_fields;
     max_image_dimension := max_image_dimension default_fields |}.

End BatchSpec.

(** ** Command line *)

Module CliSpec.
Import Config Presets Pathlib Cli.

Section Success.

Variable simulate_cvd : Algorithm -> Simulator.Image -> CVDType -> PyFloat
                        -> option Simulator.Image.
Variable load : Path -> option Simulator.Image.
Variable save : Simulator.Image -> CVDType -> option Path.
Variable simulator_init : SimulationConfig -> bool.
Variable sidecar_written : Path -> bool.

Definition list_option_given (parsed : Namespace) : bool :=
  arg_list_algorithms parsed || arg_list_types parsed || arg_list_presets parsed.

(** The configuration and the simulator could be built and every input
    path was processed successfully. *)
Definition every_path_succeeded (parsed : Namespace) : bool :=
  match build_config parsed with
  | Ok config =>
      simulator_init config
      && forallb
           (λ image : string,
              (process_single_image simulate_cvd load save sidecar_written
                 config (Path_of_string image) (arg_type parsed)
                 (arg_export_metadata parsed) =? 1)%Z)
           (images parsed)
  | Raise _ => false
  end.

End Success.

(** Logging could be set up: no log file was asked for, or it could be
    opened. *)
Definition logging_set_up (log_file_opens : Path → bool)
    (parsed : Namespace) : bool :=
  match setup_logging log_file_opens (log_file_of parsed) with
  | Ok _ => true
  | Raise _ => false
  end.

(** The namespace of a call without any argument. *)
Definition no_arguments : Namespace :=
  {| images := [];
     arg_algorithm := BRETTEL_1997;
     arg_severity := FFinite (8 # 10);
     arg_format := JPEG;
     arg_output := "./outputs";
     arg_quality := 95;
     arg_verbose := false;
     arg_log_level := INFO;
     arg_log_file := None;
     arg_type := None;
     arg_progress := false;
     arg_preset := None;
     arg_list_presets := false;
     arg_export_metadata := false;
     arg_profile := false;
     arg_list_algorithms := false;
     arg_list_types := false |}.

(** The parser on the argument lists of the worked cases: on the empty
    list every option has its default and the list of images is empty;
    [--version] and [--help] print and exit.  The worked cases ask the
    parser about no other list. *)
Definition parse_args_of_cases (args : list string) : Parse :=
  match args with
  | [] => Parsed no_arguments
  | [option] =>
      if String.eqb option "--version" || String.eqb option "--help"
         || String.eqb option "-h"
      then HelpOrVersion else UsageError
  | _ => UsageError
  end.

End CliSpec.

(** ** Metadata *)

Module MetadataSpec.
Import Pathlib Metadata.

(** A dictionary of the model is a Python dictionary when no key occurs
    twice. *)
Fixpoint unique_keys {V} (d : list (string * V)) : bool :=
  match d with
  | [] => true
  | (k, _) :: d' =>
      match dict_get k d' with
      | None => unique_keys d'
      | Some _ => false
      end
  end.

Definition not_nan (f : PyFloat) : bool :=
  match f with
  | FNaN => false
  | _ => true
  end.

(** The values JSON has a native form for: [None], booleans, integers,
    floats other than NaN, strings, lists of such values and dictionaries
    from strings to such values. *)
Fixpoint json_native (v : PyValue) : bool :=
  match v with
  | PNone | PBool _ | PInt _ | PStr _ => true
  | PFloat f => not_nan f
  | PList l => forallb json_native l
  | PDict d => unique_keys d && forallb (fun kv => json_native (snd kv)) d
  | PObject _ => false
  end.

(** A record all of whose dictionaries are Python dictionaries, whose
    [config] holds JSON-native values only and whose execution time is not
    NaN. *)
Definition native_record (m : SimulationMetadata) : bool :=
  unique_keys (output_files m)
  && unique_keys (system_info m)
  && json_native (PDict (config m))
  && not_nan (execution_time_ms m).

(** A record whose [config] keeps the output directory as a path object. *)
Definition path_in_config : SimulationMetadata :=
  {| version := "1.1.1";
     timestamp := "2024-01-01T00:00:00Z";
     input_file := "test.png";
     input_checksum := "abc123";
     output_files := [];
     config := [("output_directory", PObject ["outputs"])];
     system_info := [];
     execution_time_ms := FFinite 0;
     notes := "" |}.

(** A record whose execution time is NaN. *)
Definition nan_execution_time : SimulationMetadata :=
  {| version := "1.1.1";
     timestamp := "2024-01-01T00:00:00Z";
     input_file := "test.png";
     input_checksum := "abc123";
     output_files := [];
     config := [];
     system_info := [];
     execution_time_ms := FNaN;
     notes := "" |}.

(** A record with JSON-native values only. *)
Definition plain_record : SimulationMetadata :=
  {| version := "1.1.1";
     timestamp := "2024-01-01T00:00:00Z";
     input_file := "test.png";
     input_checksum := "abc123";
     output_files := [("PROTAN", "outputs/protan_image.jpg")];
     config := [("severity", PFloat (FFinite (8 # 10)));
                ("quality", PInt 95);
                ("optimize", PBool true);
                ("max_workers", PNone);
                ("output_directory", PStr "outputs")];
     system_info := [("machine", "x86_64")];
     execution_time_ms := FFinite (25 # 2);
     notes := "" |}.

End MetadataSpec.

(** ** Vocabulary of Part III *)

Module FilenameSpec.
Import Validators ValidatorSpec.

(** Two dots in a row somewhere in the string. *)
Fixpoint adjacent_dots (s : string) : bool :=
  match s with
  | EmptyString => false
  | String c rest =>
      (Ascii.eqb c "."
       && match rest with
          | String d _ => Ascii.eqb d "."
          | EmptyString => false
          end)
      || adjacent_dots rest
  end.

(** No dot at all. *)
Definition no_dot (s : string) : bool :=
  forallb (fun c => negb (Ascii.eqb c ".")) (list_ascii_of_string s).

(** A name [sanitize_filename] has nothing to change in: allowed
    characters only, no two dots in a row, and neither empty nor a single
    underscore. *)
Definition clean_name (s : string) : bool :=
  all_safe s && negb (adjacent_dots s)
  && negb (String.eqb s "") && negb (String.eqb s "_").

(** A timestamp as [strftime("%Y%m%d_%H%M%S")] writes it: digits and
    underscores. *)
Definition is_timestamp_char (c : ascii) : bool :=
  existsb (Ascii.eqb c) (list_ascii_of_string "0123456789_").

Definition is_timestamp (s : string) : bool :=
  forallb is_timestamp_char (list_ascii_of_string s).

End FilenameSpec.

Module BatchOrderSpec.
Import Simulator.

(** Two ways a batch call can end that differ at most in the order in
    which the aggregate error lists the failed paths. *)
Definition same_up_to_failure_order (r r' : Result Exception BatchResult)
  : Prop :=
  r = r'
  ∨ ∃ message failed_items failed_items' count,
      r = Raise (BatchProcessingError message failed_items count)
      ∧ r' = Raise (BatchProcessingError message failed_items' count)
      ∧ failed_items ≡ₚ failed_items'.

End BatchOrderSpec.
(** ** Concrete inputs for the worked cases of the further properties *)

Module FurtherScenario.
Import Config Presets Cli CliSpec Simulator Metadata MetadataTools.

(** A machine. *)
Definition workstation : Platform :=
  {| platform_platform := "Linux-6.1-x86_64";
     sys_version := "3.11.4";
     python_implementation := "CPython";
     processor := "";
     machine := "x86_64";
     node := "host";
     pillow_version := Some "10.0.0";
     numpy_version := Some "1.26.0";
     daltonlens_version := None |}.

(** A file system on which every path exists, and a digest. *)
Definition path_exists (p : Path) : bool := true.
Definition sha256_hexdigest (p : Path) : option string := Some "9f86d081884c".

(** A file system on which every file is empty. *)
Definition empty_files (p : Path) : ImageValidation.FileProbe :=
  {| ImageValidation.path_exists := true;
     ImageValidation.path_is_file := true;
     ImageValidation.st_size := 0;
     ImageValidation.pil_format := None;
     ImageValidation.verify_error := Some "cannot identify image file";
     ImageValidation.image_size := (0, 0)%Z |}.

(** An encoder that always succeeds. *)
Definition image_save_ok (image : Image) (p : Path)
    (settings : option Z * option bool) : bool := true.

(** The arguments [photo.png --preset web_design -o ./out]. *)
Definition preset_run : Namespace :=
  {| images := ["photo.png"];
     arg_algorithm := arg_algorithm no_arguments;
     arg_severity := arg_severity no_arguments;
     arg_format := arg_format no_arguments;
     arg_output := "./out";
     arg_quality := arg_quality no_arguments;
     arg_verbose := false;
     arg_log_level := arg_log_level no_arguments;
     arg_log_file := None;
     arg_type := None;
     arg_progress := false;
     arg_preset := Some WEB_DESIGN;
     arg_list_presets := false;
     arg_export_metadata := false;
     arg_profile := false;
     arg_list_algorithms := false;
     arg_list_types := false |}.

(** The parser on that argument list. *)
Definition parse_args_of_preset_run (args : list string) : Parse :=
  if bool_decide (args = ["photo.png"; "--preset"; "web_design"; "-o"; "./out"])
  then Parsed preset_run
  else parse_args_of_cases args.

(** A sidecar whose values have the annotated types. *)
Definition sidecar_document : Json :=
  JObject [("version", JString "1.1.1");
           ("timestamp", JString "2026-02-12T15:30:45Z");
           ("input_file", JString "photo.png");
           ("input_checksum", JString "9f86d081884c")].

End FurtherScenario.

(* ===================================================================== *)
(** * Part II.  Properties                                                 *)
(* ===================================================================== *)

(** ** The configuration object *)

Section ConfigProperties.
Import Config ConfigSpec.

Lemma severity_check_spec (s : PyFloat) :
  float_le (FFinite 0) s && float_le s (FFinite 1) = true
  ↔ severity_in_range s.
Proof.
  unfold severity_in_range. destruct s as [q| | |]; simpl.
  - rewrite andb_true_iff, !Qle_bool_iff. split.
    + intros [H0 H1]. exists q. auto.
    + intros (q' & Heq & H0 & H1). injection Heq as ->. auto.
  - split; [discriminate|]. intros (q & Heq & _). discriminate.
  - split; [discriminate|]. intros (q & Heq & _). discriminate.
  - split; [discriminate|]. intros (q & Heq & _). discriminate.
Qed.

Lemma validate_Ok_iff (c : SimulationConfig) :
  _validate c = Ok tt ↔ fields_in_range c.
Proof.
  unfold _validate, fields_in_range.
  pose proof (severity_check_spec (severity c)) as Hsev.
  destruct (float_le (FFinite 0) (severity c) && float_le (severity c) (FFinite 1));
    simpl.
  2:{ split; [discriminate|]. intros [H _]. apply Hsev in H. discriminate. }
  destruct (Z.leb_spec 1 (quality c)); simpl.
  2:{ split; [discriminate|]. intros (_ & H' & _). lia. }
  destruct (Z.leb_spec (quality c) 95); simpl.
  2:{ split; [discriminate|]. intros (_ & H' & _). lia. }
  destruct (output_directory c) as [p|s] eqn:Hdir; simpl.
  2:{ split; [discriminate|]. intros (_ & _ & [p Hp] & _). discriminate. }
  destruct (max_workers c) as [w|] eqn:Hw; simpl.
  - destruct (Z.ltb_spec w 1).
    { split; [discriminate|]. intros (_ & _ & _ & H' & _). simpl in H'. lia. }
    destruct (Z.ltb_spec (max_image_size c) 1).
    { split; [discriminate|]. intros (_ & _ & _ & _ & H' & _). lia. }
    destruct (Z.ltb_spec (max_image_dimension c) 1).
    { split; [discriminate|]. intros (_ & _ & _ & _ & _ & H'). lia. }
    split; [intros _|reflexivity].
    repeat split; try lia; try (apply Hsev; reflexivity). by exists p.
  - destruct (Z.ltb_spec (max_image_size c) 1).
    { split; [discriminate|]. intros (_ & _ & _ & _ & H' & _). lia. }
    destruct (Z.ltb_spec (max_image_dimension c) 1).
    { split; [discriminate|]. intros (_ & _ & _ & _ & _ & H'). lia. }
    split; [intros _|reflexivity].
    repeat split; try lia; try (apply Hsev; reflexivity). by exists p.
Qed.

Lemma new_SimulationConfig_Ok (c : SimulationConfig) :
  new_SimulationConfig c = Ok c → fields_in_range c.
Proof.
  intros H. apply validate_Ok_iff. revert H.
  unfold new_SimulationConfig, mbind, Result_bind.
  by destruct (_validate c) as [[]|e].
Qed.

Lemma out_of_range_iff (c : SimulationConfig) :
  some_field_out_of_range c ↔ ¬ fields_in_range c.
Proof.
  unfold some_field_out_of_range, fields_in_range. split.
  - intros [H|[H|[H|[(n & Hn & Hlt)|[H|H]]]]] (H1 & H2 & H3 & H4 & H5 & H6);
      try tauto; try lia.
    rewrite Hn in H4. simpl in H4. lia.
  - intros Hnot.
    destruct (decide (float_le (FFinite 0) (severity c)
                      && float_le (severity c) (FFinite 1) = true)) as [Hs|Hs].
    2:{ left. by rewrite <- severity_check_spec. }
    apply severity_check_spec in Hs.
    destruct (decide (1 ≤ quality c ≤ 95)%Z) as [Hq|Hq].
    2:{ right; left. lia. }
    destruct (output_directory c) as [p|s] eqn:Hdir.
    2:{ right; right; left. intros [p Hp]. discriminate. }
    destruct (max_workers c) as [w|] eqn:Hw.
    + destruct (decide (w < 1)%Z).
      { right; right; right; left. eauto. }
      destruct (decide (max_image_size c ≤ 0)%Z); [tauto|].
      destruct (decide (max_image_dimension c ≤ 0)%Z); [tauto|].
      exfalso. apply Hnot. repeat split; try lia; try done.
      * by exists p.
      * simpl. lia.
    + destruct (decide (max_image_size c ≤ 0)%Z); [tauto|].
      destruct (decide (max_image_dimension c ≤ 0)%Z); [tauto|].
      exfalso. apply Hnot. repeat split; try lia; try done.
      by exists p.
Qed.

(** C4.  Construction of a [SimulationConfig] is all or nothing: it
    returns the instance holding exactly the given fields when every field
    satisfies its constraint, and it raises a [ValidationError], producing
    no instance, as soon as one field is out of range (severity outside
    [0,1], quality outside [1,95], an output directory that is not a path,
    a supplied worker count below 1, a non-positive maximum size or
    dimension). *)
Theorem C4_config_construction_atomic (fields : SimulationConfig) :
  (new_SimulationConfig fields = Ok fields ↔ fields_in_range fields)
  ∧ ((∃ e, new_SimulationConfig fields = Raise e)
     ↔ some_field_out_of_range fields)
  ∧ (∀ c, new_SimulationConfig fields = Ok c → c = fields ∧ fields_in_range c).
Proof.
  pose proof (validate_Ok_iff fields) as Hv.
  unfold new_SimulationConfig, mbind, Result_bind.
  destruct (_validate fields) as [[]|e] eqn:Hval.
  - assert (fields_in_range fields) as Hin by (by apply Hv).
    split; [tauto|]. split.
    + split; [intros [e He]; discriminate|].
      intros Hout. apply out_of_range_iff in Hout. tauto.
    + intros c Hc. injection Hc as <-. auto.
  - assert (¬ fields_in_range fields) as Hout.
    { intros Hin. apply Hv in Hin. discriminate. }
    split; [split; [discriminate|tauto]|]. split.
    + split; [intros _; by apply out_of_range_iff|eauto].
    + intros c Hc. discriminate.
Qed.

End ConfigProperties.

(** ** Paths *)

Section PathlibProperties.
Import Pathlib PathlibSpec.

Lemma split_on_no_slash (w : string) :
  no_slash w = true → split_on "/" w = [w].
Proof.
  unfold no_slash. induction w as [|c w IH]; [done|]. simpl.
  intros [Hc Hw]%andb_true_iff. rewrite (IH Hw).
  by destruct (Ascii.eqb c "/").
Qed.

Lemma split_on_append (w rest : string) :
  no_slash w = true →
  split_on "/" (w +:+ "/" +:+ rest) = w :: split_on "/" rest.
Proof.
  unfold no_slash. induction w as [|c w IH]; [done|]. simpl.
  intros [Hc Hw]%andb_true_iff. rewrite (IH Hw).
  by destruct (Ascii.eqb c "/").
Qed.

Lemma is_component_no_slash (w : string) :
  is_component w = true → no_slash w = true.
Proof. unfold is_component. by intros [_ H]%andb_true_iff. Qed.

Lemma split_on_join_parts (w : string) (ws : list string) :
  forallb is_component (w :: ws) = true →
  split_on "/" (join_parts (w :: ws)) = w :: ws.
Proof.
  revert w. induction ws as [|w' ws IH]; intros w Hall.
  - simpl in *. apply andb_true_iff in Hall as [Hw _].
    by apply split_on_no_slash, is_component_no_slash.
  - change (join_parts (w :: w' :: ws))
      with (w +:+ "/" +:+ join_parts (w' :: ws)).
    cbn [forallb] in Hall. apply andb_true_iff in Hall as [Hw Hall].
    rewrite split_on_append by by apply is_component_no_slash.
    by rewrite IH.
Qed.

Lemma filter_components (ws : list string) :
  forallb is_component ws = true →
  filter (λ w, w ≠ "" ∧ w ≠ ".") ws = ws.
Proof.
  induction ws as [|w ws IH]; [done|]. cbn [forallb].
  intros [Hw Hws]%andb_true_iff. rewrite filter_cons_True, IH; [done..|].
  unfold is_component in Hw.
  apply andb_true_iff in Hw as [[H1 H2]%andb_true_iff _].
  split; [by destruct (String.eqb_spec w "")|by destruct (String.eqb_spec w ".")].
Qed.

Lemma root_of_component (w rest : string) :
  is_component w = true → root_of (w +:+ rest) = [].
Proof.
  destruct w as [|c w]; [done|]. unfold is_component, no_slash. simpl.
  intros [_ [Hc _]%andb_true_iff]%andb_true_iff.
  destruct c as [[] [] [] [] [] [] [] []]; done.
Qed.

Lemma join_parts_cons (w : string) (ws : list string) :
  ∃ rest, join_parts (w :: ws) = w +:+ rest.
Proof.
  destruct ws as [|w' ws].
  - exists "". cbn [join_parts].
    induction w as [|c w IH]; [done|].
    change (String c w +:+ "") with (String c (w +:+ "")). by f_equal.
  - by eexists.
Qed.

Lemma Path_of_string_rooted (root : string) (ws : list string) :
  root = "/" ∨ root = "//" → forallb is_component ws = true →
  Path_of_string (root +:+ join_parts ws) = root :: ws.
Proof.
  intros Hroot Hws. unfold Path_of_string. destruct ws as [|w ws].
  - by destruct Hroot as [-> | ->].
  - destruct (join_parts_cons w ws) as [rest Hrest].
    assert (root_of (root +:+ join_parts (w :: ws)) = [root]) as ->.
    { rewrite Hrest. cbn [forallb] in Hws.
      apply andb_true_iff in Hws as [Hw _].
      destruct w as [|c w]; [done|].
      unfold is_component, no_slash in Hw. simpl in Hw.
      apply andb_true_iff in Hw as [_ [Hc _]%andb_true_iff].
      destruct Hroot as [-> | ->]; simpl;
        destruct c as [[] [] [] [] [] [] [] []]; done. }
    assert (∀ s, split_on "/" ("/" +:+ s) = "" :: split_on "/" s) as Hone
      by (intros s; reflexivity).
    assert (∀ s, split_on "/" ("//" +:+ s) = "" :: "" :: split_on "/" s)
      as Htwo by (intros s; reflexivity).
    destruct Hroot as [-> | ->];
      rewrite ?Hone, ?Htwo, (split_on_join_parts w ws Hws);
      rewrite !filter_cons_False by (by intros [? ?]);
      by rewrite (filter_components (w :: ws) Hws).
Qed.

(** [Path(str(p))] is [p]: the keys of the parallel result mapping are
    the submitted paths. *)
Lemma Path_of_string_str_of_Path (p : Path) :
  is_pathlib_path p = true → Path_of_string (str_of_Path p) = p.
Proof.
  destruct p as [|r ws]; [done|]. unfold is_pathlib_path, str_of_Path.
  destruct (has_root (r :: ws)) eqn:Hroot; intros Hws.
  - apply Path_of_string_rooted; [|done]. simpl in Hroot.
    apply orb_true_iff in Hroot as [H|H]; apply String.eqb_eq in H; auto.
  - unfold Path_of_string. rewrite (split_on_join_parts r ws Hws).
    rewrite (filter_components _ Hws).
    destruct (join_parts_cons r ws) as [rest ->].
    cbn [forallb] in Hws. apply andb_true_iff in Hws as [Hr _].
    by rewrite (root_of_component r rest Hr).
Qed.

End PathlibProperties.

(** ** The security validator *)

Section ValidatorProperties.
Import Validators Pathlib ValidatorSpec.

Lemma relative_to_Ok (self other rel : Path) :
  relative_to self other = Ok rel → self = (other ++ rel)%list.
Proof.
  revert self. induction other as [|o other IH]; intros self H; simpl in H.
  - by simplify_eq.
  - destruct self as [|s self]; [discriminate|].
    destruct (String.eqb_spec o s) as [->|]; [|discriminate].
    simpl. f_equal. by apply IH.
Qed.

Lemma relative_to_prefix (self other : Path) :
  other `prefix_of` self → ∃ rel, relative_to self other = Ok rel.
Proof.
  intros [rel ->]. exists rel. induction other as [|o other IH]; simpl.
  - done.
  - by rewrite String.eqb_refl.
Qed.

(** C5.  Whatever the file system resolves paths to, and whatever the
    file name (parent references, absolute-looking names and null bytes
    included), [sanitize_output_path] either raises the security error
    tagged [PATH_TRAVERSAL] or returns a path that has the resolved base
    directory as a leading segment; it never returns a path outside it. *)
Theorem C5_sanitize_output_path_confined
    (resolve : Path → Path) (output_dir : Path) (filename : string) :
  match sanitize_output_path resolve output_dir filename with
  | Ok target => resolve output_dir `prefix_of` target
  | Raise e => violation_type e = "PATH_TRAVERSAL"
  end.
Proof.
  unfold sanitize_output_path, try_except, mbind, Result_bind.
  destruct (relative_to _ (resolve output_dir)) as [rel|[]] eqn:Hrel.
  - apply relative_to_Ok in Hrel. by exists rel.
  - reflexivity.
Qed.

(** The error is raised exactly when the resolved target left the base
    directory, so a target inside it is always returned. *)
Lemma sanitize_output_path_returns
    (resolve : Path → Path) (output_dir : Path) (filename : string) :
  let target :=
    resolve (truediv (resolve output_dir)
               (Path_of_string (sanitize_filename filename))) in
  resolve output_dir `prefix_of` target →
  sanitize_output_path resolve output_dir filename = Ok target.
Proof.
  intros target Hpre. unfold sanitize_output_path, try_except, mbind, Result_bind.
  fold target. by destruct (relative_to_prefix _ _ Hpre) as [rel ->].
Qed.

(** *** Without symbolic links the error is never raised

    The sanitized name is one component made of allowed characters, and it
    is not the parent reference; joined to a resolved base directory and
    resolved lexically, it stays below it. *)

Lemma prefix_empty (s : string) : String.prefix "" s = true.
Proof. by destruct s. Qed.

Lemma str_replace_dotdot (s : string) : str_replace ".." "_" s ≠ "..".
Proof.
  unfold str_replace.
  destruct s as [|c1 [|c2 s']];
    cbn [replace_from String.prefix String.length Nat.sub String.append].
  - discriminate.
  - destruct (ascii_dec "." c1); discriminate.
  - destruct (ascii_dec "." c1) as [<-|Hc1];
      destruct (ascii_dec "." c2) as [<-|Hc2];
      rewrite ?prefix_empty; cbn [String.append]; try discriminate.
    + intros H. simplify_eq.
    + destruct (String.prefix "." s'); cbn [String.append]; intros H; simplify_eq.
    + intros H. simplify_eq.
Qed.

Lemma keep_safe_dot (c : ascii) : keep_safe c = "."%char → c = "."%char.
Proof. unfold keep_safe. by destruct (is_safe_char c). Qed.

Lemma string_map_keep_safe_dotdot (r : string) :
  string_map keep_safe r = ".." → r = "..".
Proof.
  destruct r as [|a [|b [|c r']]]; simpl; intros H; try discriminate.
  injection H as Ha Hb.
  by rewrite (keep_safe_dot a Ha), (keep_safe_dot b Hb).
Qed.

Lemma all_safe_string_map (r : string) : all_safe (string_map keep_safe r) = true.
Proof.
  unfold all_safe. induction r as [|a r IH]; [done|]. simpl.
  rewrite IH, andb_true_r. unfold keep_safe.
  by destruct (is_safe_char a) eqn:Ha.
Qed.

Lemma sanitize_filename_cases (filename : string) :
  sanitize_filename filename = "unnamed_file"
  ∨ ∃ r, sanitize_filename filename
         = string_map keep_safe (str_replace ".." "_" r)
         ∧ string_map keep_safe (str_replace ".." "_" r) ≠ "".
Proof.
  unfold sanitize_filename, dangerous. cbn [fold_left].
  fold keep_safe.
  set (r := str_replace _ "_" (str_replace "\" "_" (str_replace "/" "_" filename))).
  destruct (String.eqb_spec (string_map keep_safe (str_replace ".." "_" r)) "")
    as [Heq|Hne]; [by left|].
  simpl. destruct (String.eqb _ "_"); [by left|].
  right. by exists r.
Qed.

Lemma sanitize_filename_safe (filename : string) :
  all_safe (sanitize_filename filename) = true
  ∧ sanitize_filename filename ≠ ""
  ∧ sanitize_filename filename ≠ "..".
Proof.
  destruct (sanitize_filename_cases filename) as [->|(r & -> & Hne)].
  - repeat split; discriminate.
  - split; [apply all_safe_string_map|]. split; [done|].
    intros H%string_map_keep_safe_dotdot. by apply str_replace_dotdot in H.
Qed.

Lemma split_on_safe (s : string) :
  all_safe s = true → split_on "/" s = [s].
Proof.
  unfold all_safe. induction s as [|c s IH]; [done|]. simpl.
  intros [Hc Hs]%andb_true_iff. rewrite (IH Hs).
  destruct (Ascii.eqb_spec c "/") as [->|_]; [discriminate|done].
Qed.

Lemma Path_of_string_safe (s : string) :
  all_safe s = true → s ≠ "" →
  Path_of_string s = if decide (s = ".") then [] else [s].
Proof.
  intros Hs Hne. unfold Path_of_string. rewrite (split_on_safe s Hs).
  assert (root_of s = []) as ->.
  { destruct s as [|c s']; [done|]. unfold all_safe in Hs. simpl in Hs.
    apply andb_true_iff in Hs as [Hc _]. unfold root_of.
    destruct (Ascii.eqb_spec c "/") as [->|Hc']; [discriminate|].
    destruct c as [[] [] [] [] [] [] [] []]; try done. }
  simpl. case_decide as Hdot.
  - rewrite filter_cons_False; [done|]. intros [_ H]. done.
  - rewrite filter_cons_True; [done|]. done.
Qed.

Lemma normalize_no_parent (acc ws : list string) :
  no_parent_reference ws → normalize acc ws = (rev acc ++ ws)%list.
Proof.
  revert acc. induction ws as [|w ws IH]; intros acc Hws; simpl.
  - by rewrite app_nil_r.
  - apply Forall_cons in Hws as [Hw Hws].
    destruct (String.eqb_spec w "..") as [->|_]; [done|].
    rewrite (IH _ Hws). simpl. by rewrite <- app_assoc.
Qed.

Lemma tail_no_parent (ws : list string) :
  no_parent_reference ws → no_parent_reference (tail ws).
Proof. destruct ws; [done|]. by intros [_ H]%Forall_cons. Qed.

Lemma normalize_result_no_parent (acc ws : list string) :
  no_parent_reference acc → no_parent_reference (normalize acc ws).
Proof.
  revert acc. induction ws as [|w ws IH]; intros acc Hacc; simpl.
  - by apply Forall_rev.
  - destruct (String.eqb_spec w "..") as [->|Hw].
    + apply IH. by apply tail_no_parent.
    + apply IH. by constructor.
Qed.

Lemma lexical_resolve_shape (cwd : list string) (p : Path) :
  no_parent_reference cwd →
  ∃ ws, lexical_resolve cwd p = "/" :: ws ∧ no_parent_reference ws.
Proof.
  intros Hcwd. unfold lexical_resolve. destruct p as [|r ws]; [by eauto|].
  destruct (has_root (r :: ws)); eexists; (split; [reflexivity|]);
    apply normalize_result_no_parent; [constructor|by apply Forall_rev].
Qed.

Lemma lexical_resolve_resolved (cwd : list string) (ws : list string) :
  no_parent_reference ws → lexical_resolve cwd ("/" :: ws) = "/" :: ws.
Proof.
  intros Hws. unfold lexical_resolve. simpl.
  by rewrite (normalize_no_parent [] ws Hws).
Qed.

(** On a file system without symbolic links [sanitize_output_path] always
    returns: the resolved base directory followed by the sanitized name
    (the base directory itself when the sanitized name is a single dot). *)
Lemma sanitize_output_path_lexical (cwd : list string) (output_dir : Path)
    (filename : string) :
  no_parent_reference cwd →
  let base := lexical_resolve cwd output_dir in
  let name := sanitize_filename filename in
  sanitize_output_path (lexical_resolve cwd) output_dir filename
  = Ok (if decide (name = ".") then base else (base ++ [name])%list).
Proof.
  intros Hcwd base name.
  destruct (sanitize_filename_safe filename) as (Hsafe & Hne & Hdd).
  destruct (lexical_resolve_shape cwd output_dir Hcwd) as (ws & Hbase & Hws).
  assert (lexical_resolve cwd
            (truediv base (Path_of_string name))
          = if decide (name = ".") then base else (base ++ [name])%list)
    as Htarget.
  { rewrite (Path_of_string_safe name Hsafe Hne). unfold base, truediv.
    rewrite Hbase. case_decide as Hdot; simpl.
    - rewrite app_nil_r. by apply (lexical_resolve_resolved cwd).
    - assert (String.eqb name "/" || String.eqb name "//" = false) as ->.
      { apply orb_false_iff.
        split; apply String.eqb_neq; intros Heq; fold name in Hsafe;
          rewrite Heq in Hsafe; discriminate. }
      change ("/" :: ws ++ [name])%list with ("/" :: (ws ++ [name]))%list.
      apply (lexical_resolve_resolved cwd), Forall_app. split; [done|].
      by constructor. }
  rewrite <- Htarget. apply sanitize_output_path_returns.
  fold base name. rewrite Htarget.
  case_decide; [done|]. by apply prefix_app_r.
Qed.

End ValidatorProperties.

(** ** The single-image step *)

Section SimulateProperties.
Import Config Simulator BatchSpec.

Lemma L24_gray (l : Z) : L24 (l, l, l) = l.
Proof.
  unfold L24. rewrite Z.shiftr_div_pow2 by lia.
  change (2 ^ 16)%Z with 65536%Z.
  replace (l * 19595 + l * 38470 + l * 7471 + 32768)%Z
    with (l * 65536 + 32768)%Z by lia.
  rewrite Z.div_add_l by lia.
  change (32768 `div` 65536)%Z with 0%Z. lia.
Qed.

Lemma grayscale_idempotent (image : Image) :
  convert_RGB (convert_L (convert_RGB (convert_L image)))
  = convert_RGB (convert_L image).
Proof.
  unfold convert_RGB, convert_L. simpl. f_equal.
  rewrite <- !list_fmap_compose. apply list_fmap_ext.
  intros i px _. unfold compose. by rewrite L24_gray.
Qed.

(** C8.  Simulating GRAYSCALE always succeeds, keeps the size, and gives
    an image whose three channels are equal at every pixel; the result
    does not depend on the configuration (severity, algorithm) nor on the
    external transform; simulating the result again gives the same image. *)
Theorem C8_grayscale_channels_equal_idempotent
    (simulate_cvd simulate_cvd' : Algorithm → Image → CVDType → PyFloat → option Image)
    (config config' : SimulationConfig) (image : Image) :
  ∃ out : Image,
    simulate simulate_cvd config image GRAYSCALE = Ok out
    ∧ simulate simulate_cvd' config' image GRAYSCALE = Ok out
    ∧ Forall gray_pixel (pixels out)
    ∧ width out = width image ∧ height out = height image
    ∧ length (pixels out) = length (pixels image)
    ∧ simulate simulate_cvd config out GRAYSCALE = Ok out.
Proof.
  exists (convert_RGB (convert_L image)). simpl.
  repeat split.
  - apply Forall_fmap, Forall_fmap, Forall_true. by intros [[r g] b].
  - by rewrite !length_fmap.
  - by rewrite grayscale_idempotent.
Qed.

End SimulateProperties.

(** ** The batch coordinator *)

(** *** Aggregation, for any loop body that records one outcome per path *)

Section Aggregation.
Import Simulator.

Variable outcome : Path → option ItemResult.
Variable step : BatchState → Path → BatchState.

Hypothesis step_results : ∀ st p,
  results (step st p) = <[p := outcome p]> (results st).
Hypothesis step_failed : ∀ st p,
  failed (step st p)
  = (failed st ++ match outcome p with Some _ => [] | None => [p] end)%list.
Hypothesis step_success : ∀ st p,
  success_count (step st p)
  = (success_count st + match outcome p with Some _ => 1 | None => 0 end)%Z.

Lemma fold_results (l : list Path) (st : BatchState) (p : Path) :
  results (fold_left step l st) !! p
  = if decide (p ∈ l) then Some (outcome p) else results st !! p.
Proof using step_results.
  revert st. induction l as [|q l IH]; intros st.
  - case_decide as Hin; [by apply elem_of_nil in Hin|done].
  - change (fold_left step (q :: l) st) with (fold_left step l (step st q)).
    rewrite IH, step_results.
    destruct (decide (p ∈ l)) as [Hin|Hnin].
    + rewrite decide_True; [done|]. apply elem_of_cons. by right.
    + destruct (decide (p = q)) as [->|Hne].
      * rewrite decide_True by apply list_elem_of_here. by rewrite lookup_insert_eq.
      * rewrite decide_False.
        { by rewrite lookup_insert_ne. }
        intros [?|?]%elem_of_cons; done.
Qed.

Lemma fold_failed (l : list Path) (st : BatchState) :
  failed (fold_left step l st)
  = (failed st ++ filter (λ p, outcome p = None) l)%list.
Proof using step_failed.
  revert st. induction l as [|q l IH]; intros st; simpl.
  - by rewrite app_nil_r.
  - rewrite IH, step_failed, <- app_assoc. f_equal.
    destruct (outcome q) eqn:Hq.
    + rewrite filter_cons_False by (rewrite Hq; discriminate). done.
    + rewrite filter_cons_True by done. done.
Qed.

Lemma fold_success (l : list Path) (st : BatchState) :
  success_count (fold_left step l st)
  = (success_count st
     + Z.of_nat (length (filter (λ p, is_Some (outcome p)) l)))%Z.
Proof using step_success.
  revert st. induction l as [|q l IH]; intros st; simpl.
  - lia.
  - rewrite IH, step_success. destruct (outcome q) eqn:Hq.
    + rewrite filter_cons_True by (rewrite Hq; eauto). simpl. lia.
    + rewrite filter_cons_False by (rewrite Hq; by intros [? ?]). lia.
Qed.

Lemma filter_all (P : Path → Prop) `{∀ p, Decision (P p)} (l : list Path) :
  (∀ p, p ∈ l → P p) → filter P l = l.
Proof.
  induction l as [|q l IH]; intros Hall; [done|].
  rewrite filter_cons_True by (apply Hall, list_elem_of_here).
  f_equal. apply IH. intros p Hp. apply Hall. apply elem_of_cons. by right.
Qed.

Lemma filter_none (P : Path → Prop) `{∀ p, Decision (P p)} (l : list Path) :
  (∀ p, p ∈ l → ¬ P p) → filter P l = [].
Proof.
  induction l as [|q l IH]; intros Hall; [done|].
  rewrite filter_cons_False by (apply Hall, list_elem_of_here).
  apply IH. intros p Hp. apply Hall. apply elem_of_cons. by right.
Qed.

(** Every path failed: the report raises with the whole list. *)
Lemma report_all_failed (l : list Path) :
  l ≠ [] → (∀ p, p ∈ l → outcome p = None) →
  report (fold_left step l initial_state)
  = Raise (BatchProcessingError "All images failed to process" l 0).
Proof using step_failed step_success.
  intros Hne Hall. unfold report.
  rewrite fold_failed, fold_success. simpl.
  rewrite (filter_all _ l Hall).
  rewrite (filter_none (λ p, is_Some (outcome p)) l).
  2:{ intros p Hp [r Hr]. rewrite (Hall p Hp) in Hr. discriminate. }
  destruct l; [done|]. reflexivity.
Qed.

(** Some path succeeded: the report returns the mapping. *)
Lemma report_some_success (l : list Path) :
  (∃ p, p ∈ l ∧ is_Some (outcome p)) →
  report (fold_left step l initial_state)
  = Ok (results (fold_left step l initial_state)).
Proof using step_success.
  intros (p & Hp & Hok). unfold report.
  destruct (failed (fold_left step l initial_state)); [done|].
  rewrite fold_success. simpl.
  assert (p ∈ filter (λ p, is_Some (outcome p)) l) as Hin.
  { apply list_elem_of_filter. done. }
  destruct (filter (λ p, is_Some (outcome p)) l); [by apply elem_of_nil in Hin|].
  simpl. destruct (Z.eqb_spec (Z.pos (Pos.of_succ_nat (length l1))) 0); [lia|done].
Qed.

(** No path failed: the report returns the mapping, also for no path. *)
Lemma report_none_failed (l : list Path) :
  (∀ p, p ∈ l → is_Some (outcome p)) →
  report (fold_left step l initial_state)
  = Ok (results (fold_left step l initial_state)).
Proof using step_failed.
  intros Hall. unfold report. rewrite fold_failed. simpl.
  rewrite filter_none; [done|].
  intros p Hp Hnone. destruct (Hall p Hp) as [r Hr]. congruence.
Qed.

End Aggregation.

(** *** The completion order and the chunks *)

Section Scheduling.
Import Simulator.

Lemma as_completed_Permutation {A} (ranks : list nat) (futures : list A) :
  as_completed ranks futures ≡ₚ futures.
Proof.
  unfold as_completed. rewrite merge_sort_Permutation, fmap_imap.
  rewrite (imap_ext _ (const id)) by done.
  by rewrite imap_const, list_fmap_id.
Qed.

Lemma elem_of_as_completed {A} (ranks : list nat) (futures : list A) (x : A) :
  x ∈ as_completed ranks futures ↔ x ∈ futures.
Proof. by rewrite as_completed_Permutation. Qed.

(** The slices taken at the multiples of the chunk size, put end to end,
    are the first [n * c] elements of the list. *)
Lemma concat_slices {A} (l : list A) (c : Z) (n : nat) :
  (1 ≤ c)%Z →
  concat ((λ i : Z, slice l i (i + c)) <$>
          ((λ k : nat, (Z.of_nat k * c)%Z) <$> seq 0 n))
  = take (n * Z.to_nat c) l.
Proof.
  intros Hc. induction n as [|n IH]; [done|].
  rewrite seq_S, !fmap_app, concat_app, IH. simpl.
  rewrite app_nil_r. unfold slice.
  replace (Z.to_nat (Z.of_nat n * c + c - Z.of_nat n * c)) with (Z.to_nat c) by lia.
  replace (Z.to_nat (Z.of_nat n * c)) with (n * Z.to_nat c) by lia.
  rewrite take_take_drop. f_equal. lia.
Qed.

(** For a positive chunk size the chunks partition the list. *)
Lemma chunks_partition {A} (l : list A) (c : Z) :
  (1 ≤ c)%Z →
  ∃ starts, py_range_step (Z.of_nat (length l)) c = Ok starts
            ∧ concat ((λ i : Z, slice l i (i + c)) <$> starts) = l.
Proof.
  intros Hc. unfold py_range_step.
  destruct (Z.eqb_spec c 0); [lia|]. destruct (Z.ltb_spec c 0); [lia|].
  eexists. split; [reflexivity|].
  rewrite concat_slices by done. apply take_ge.
  set (len := Z.of_nat (length l)).
  assert (len ≤ (len + c - 1) `div` c * c)%Z as Hle.
  { pose proof (Z.div_mod (len + c - 1) c ltac:(lia)) as Hdm.
    pose proof (Z.mod_pos_bound (len + c - 1) c ltac:(lia)) as Hmod. lia. }
  assert (0 ≤ (len + c - 1) `div` c)%Z by (apply Z.div_pos; lia).
  apply Nat2Z.inj_le. rewrite Nat2Z.inj_mul, !Z2Nat.id by lia. exact Hle.
Qed.

End Scheduling.

(** *** The three entry points *)

Section BatchProperties.
Import Config Simulator BatchSpec.

Variable simulate_cvd : Algorithm → Image → CVDType → PyFloat → option Image.
Variable load : Path → option Image.
Variable save : Image → CVDType → option Path.
Variable pool_delivers : Path → bool.
Variable cpu_count : Z.
Variable config : SimulationConfig.

Local Abbreviation sequential_outcome :=
  (BatchSpec.sequential_outcome simulate_cvd load save config).
Local Abbreviation process_func :=
  (Simulator.process_func simulate_cvd load save config).
Local Abbreviation unit_of_work :=
  (BatchSpec.unit_of_work simulate_cvd load save pool_delivers config).
Local Abbreviation chunk_returns :=
  (BatchSpec.chunk_returns simulate_cvd load save pool_delivers config).

Lemma records_unique (outcome : Path → option ItemResult) (l : list Path)
    (m1 m2 : BatchResult) :
  records outcome l m1 → records outcome l m2 → m1 = m2.
Proof. intros H1 H2. apply map_eq. intros p. by rewrite H1, H2. Qed.

Lemma process_batch_step_results st p :
  results (process_batch_step simulate_cvd load save config st p)
  = <[p := sequential_outcome p]> (results st).
Proof.
  unfold process_batch_step, sequential_outcome, _process_single_image.
  by destruct (process_image _ _ _ _ p).
Qed.

Lemma process_batch_step_failed st p :
  failed (process_batch_step simulate_cvd load save config st p)
  = (failed st ++ match sequential_outcome p with Some _ => [] | None => [p] end)%list.
Proof.
  unfold process_batch_step, sequential_outcome, _process_single_image.
  destruct (process_image _ _ _ _ p); simpl; [by rewrite app_nil_r|done].
Qed.

Lemma process_batch_step_success st p :
  success_count (process_batch_step simulate_cvd load save config st p)
  = (success_count st + match sequential_outcome p with Some _ => 1 | None => 0 end)%Z.
Proof.
  unfold process_batch_step, sequential_outcome, _process_single_image.
  destruct (process_image _ _ _ _ p); simpl; lia.
Qed.

Lemma collect_step_results cvd_type st p :
  results (collect_step pool_delivers (process_func cvd_type) st p)
  = <[p := unit_of_work cvd_type p]> (results st).
Proof.
  unfold collect_step, unit_of_work.
  by destruct (future_result _ _ p) as [[r|]|e].
Qed.

Lemma collect_step_failed cvd_type st p :
  failed (collect_step pool_delivers (process_func cvd_type) st p)
  = (failed st ++ match unit_of_work cvd_type p with Some _ => [] | None => [p] end)%list.
Proof.
  unfold collect_step, unit_of_work.
  destruct (future_result _ _ p) as [[r|]|e]; simpl; by rewrite ?app_nil_r.
Qed.

Lemma collect_step_success cvd_type st p :
  success_count (collect_step pool_delivers (process_func cvd_type) st p)
  = (success_count st + match unit_of_work cvd_type p with Some _ => 1 | None => 0 end)%Z.
Proof.
  unfold collect_step, unit_of_work.
  destruct (future_result _ _ p) as [[r|]|e]; simpl; lia.
Qed.

(** The sequential entry point. *)
Lemma process_batch_all_failed (l : list Path) (max_workers : option Z) :
  l ≠ [] → (∀ p, p ∈ l → sequential_outcome p = None) →
  process_batch simulate_cvd load save cpu_count config l max_workers
  = Raise (BatchProcessingError "All images failed to process" l 0).
Proof.
  intros Hne Hall. unfold process_batch. destruct l as [|q l]; [done|].
  apply (report_all_failed sequential_outcome);
    auto using process_batch_step_failed, process_batch_step_success.
Qed.

Lemma process_batch_returns (l : list Path) (max_workers : option Z) :
  (∃ p, p ∈ l ∧ is_Some (sequential_outcome p))
  ∨ (∀ p, p ∈ l → is_Some (sequential_outcome p)) →
  ∃ m, process_batch simulate_cvd load save cpu_count config l max_workers = Ok m
       ∧ records sequential_outcome l m.
Proof.
  intros Hok. unfold process_batch. destruct l as [|q l].
  { exists ∅. split; [done|]. intros p. rewrite lookup_empty.
    case_decide as Hin; [by apply elem_of_nil in Hin|done]. }
  eexists. split.
  - destruct Hok as [Hsome|Hall].
    + apply (report_some_success sequential_outcome);
        auto using process_batch_step_success.
    + apply (report_none_failed sequential_outcome);
        auto using process_batch_step_failed.
  - intros p.
    rewrite (fold_results sequential_outcome) by apply process_batch_step_results.
    by case_decide.
Qed.

(** The parallel entry point. *)
Lemma process_batch_parallel_all_failed (w : Z) (ranks : list nat)
    (l : list Path) (cvd_type : option CVDType) :
  (1 ≤ w)%Z → l ≠ [] → (∀ p, p ∈ l → unit_of_work cvd_type p = None) →
  process_batch_parallel simulate_cvd load save pool_delivers config w
    ranks l cvd_type
  = Raise (BatchProcessingError "All images failed to process"
             (as_completed ranks l) 0).
Proof.
  intros Hw Hne Hall. unfold process_batch_parallel.
  destruct l as [|q l]; [done|].
  unfold ProcessPoolExecutor. destruct (Z.leb_spec w 0); [lia|]. simpl.
  apply (report_all_failed (unit_of_work cvd_type));
    auto using collect_step_failed, collect_step_success.
  - intros Hnil.
    pose proof (as_completed_Permutation ranks (q :: l)) as Hperm.
    rewrite Hnil in Hperm. by apply Permutation_nil_cons in Hperm.
  - intros p Hp. apply Hall. by apply elem_of_as_completed in Hp.
Qed.

Lemma process_batch_parallel_returns (w : Z) (ranks : list nat)
    (l : list Path) (cvd_type : option CVDType) :
  (1 ≤ w)%Z →
  (∃ p, p ∈ l ∧ is_Some (unit_of_work cvd_type p))
  ∨ (∀ p, p ∈ l → is_Some (unit_of_work cvd_type p)) →
  ∃ m, process_batch_parallel simulate_cvd load save pool_delivers config w
         ranks l cvd_type = Ok m
       ∧ records (unit_of_work cvd_type) l m.
Proof.
  intros Hw Hok. unfold process_batch_parallel. destruct l as [|q l].
  { exists ∅. split; [done|]. intros p. rewrite lookup_empty.
    case_decide as Hin; [by apply elem_of_nil in Hin|done]. }
  unfold ProcessPoolExecutor. destruct (Z.leb_spec w 0); [lia|]. simpl.
  eexists. split.
  - destruct Hok as [(p & Hp & Hsome)|Hall].
    + apply (report_some_success (unit_of_work cvd_type));
        auto using collect_step_success.
      exists p. by rewrite elem_of_as_completed.
    + apply (report_none_failed (unit_of_work cvd_type));
        auto using collect_step_failed.
      intros p Hp. apply Hall. by apply elem_of_as_completed in Hp.
  - intros p.
    rewrite (fold_results (unit_of_work cvd_type)) by apply collect_step_results.
    destruct (decide (p ∈ q :: l)) as [Hin|Hnin].
    + by rewrite decide_True by (by apply elem_of_as_completed).
    + rewrite decide_False; [done|]. by rewrite elem_of_as_completed.
Qed.

Lemma process_chunks_returns (w : Z) (ranks : nat → list nat) (i : nat)
    (chunks : list (list Path)) (cvd_type : option CVDType)
    (acc : BatchResult) :
  (1 ≤ w)%Z → Forall (chunk_returns cvd_type) chunks →
  ∃ m, process_chunks simulate_cvd load save pool_delivers config w
         ranks i chunks cvd_type acc = Ok m
       ∧ ∀ p, m !! p = if decide (p ∈ concat chunks)
                       then Some (unit_of_work cvd_type p) else acc !! p.
Proof.
  intros Hw. revert i acc.
  induction chunks as [|chunk chunks IH]; intros i acc Hall.
  - exists acc. split; [done|]. intros p.
    destruct (decide (p ∈ concat [])) as [Hin|]; [by apply elem_of_nil in Hin|done].
  - apply Forall_cons in Hall as [Hchunk Hrest]. simpl.
    destruct (process_batch_parallel_returns w (ranks i) chunk cvd_type Hw Hchunk)
      as (mc & Hpar & Hmc).
    destruct (IH (S i) (mc ∪ acc) Hrest) as (m & Hrec & Hm).
    exists m. split.
    { rewrite Hpar. exact Hrec. }
    intros p. rewrite Hm.
    destruct (decide (p ∈ concat chunks)) as [Hin|Hnin].
    + rewrite decide_True; [done|]. apply elem_of_app. by right.
    + destruct (decide (p ∈ chunk)) as [Hc|Hc].
      * rewrite decide_True by (apply elem_of_app; by left).
        rewrite lookup_union_l'; rewrite Hmc, decide_True by done; eauto.
      * rewrite decide_False by (intros [?|?]%elem_of_app; done).
        rewrite lookup_union_r; [done|]. by rewrite Hmc, decide_False.
Qed.

Lemma process_batch_chunked_all_valid (w : Z) (ranks : nat → list nat)
    (l : list Path) (chunk_size : Z) (cvd_type : option CVDType) :
  (1 ≤ w)%Z → (1 ≤ chunk_size)%Z →
  (∀ p, p ∈ l → is_Some (unit_of_work cvd_type p)) →
  ∃ m, process_batch_chunked simulate_cvd load save pool_delivers config w
         ranks l chunk_size cvd_type = Ok m
       ∧ records (unit_of_work cvd_type) l m.
Proof.
  intros Hw Hc Hall. unfold process_batch_chunked. destruct l as [|q l].
  { exists ∅. split; [done|]. intros p. rewrite lookup_empty.
    case_decide as Hin; [by apply elem_of_nil in Hin|done]. }
  destruct (chunks_partition (q :: l) chunk_size Hc) as (starts & -> & Hcat).
  unfold mbind at 1, Result_bind at 1.
  set (chunks := (λ i : Z, slice (q :: l) i (i + chunk_size)) <$> starts) in *.
  destruct (process_chunks_returns w ranks 0 chunks cvd_type ∅ Hw) as (m & Hm & Hlook).
  { apply Forall_forall. intros chunk Hchunk. right. intros p Hp.
    apply Hall. rewrite <- Hcat. apply list_elem_of_In, in_concat.
    exists chunk. by rewrite <- !list_elem_of_In. }
  exists m. split; [done|]. intros p. rewrite Hlook, Hcat, lookup_empty. done.
Qed.

(** What a mapping with one entry per path looks like. *)
Lemma records_dom (outcome : Path → option ItemResult) (l : list Path)
    (m : BatchResult) :
  records outcome l m → dom m = list_to_set l.
Proof.
  intros Hm. apply set_eq. intros p.
  rewrite elem_of_dom, elem_of_list_to_set, Hm.
  case_decide.
  - split; [done|eauto].
  - split; [by intros [? ?]|done].
Qed.

Lemma records_size (outcome : Path → option ItemResult) (l : list Path)
    (m : BatchResult) :
  NoDup l → records outcome l m → size m = length l.
Proof.
  intros Hnd Hm. rewrite <- size_dom, (records_dom outcome l m Hm).
  by apply size_list_to_set.
Qed.

(** Chunking does not change the outcome when [process_batch_parallel]
    returns for every chunk. *)
Lemma chunked_agrees_when_chunks_return (w : Z) (ranks : nat → list nat)
    (ranks' : list nat) (l : list Path) (chunk_size : Z)
    (cvd_type : option CVDType) (starts : list Z) :
  (1 ≤ w)%Z → (1 ≤ chunk_size)%Z →
  py_range_step (Z.of_nat (length l)) chunk_size = Ok starts →
  Forall (chunk_returns cvd_type)
    ((λ i : Z, slice l i (i + chunk_size)) <$> starts) →
  process_batch_chunked simulate_cvd load save pool_delivers config w
    ranks l chunk_size cvd_type
  = process_batch_parallel simulate_cvd load save pool_delivers config w
      ranks' l cvd_type.
Proof.
  intros Hw Hc Hstarts Hall.
  destruct (chunks_partition l chunk_size Hc) as (starts' & Hstarts' & Hcat).
  rewrite Hstarts in Hstarts'. injection Hstarts' as <-.
  destruct l as [|q l]; [done|].
  set (chunks := (λ i : Z, slice (q :: l) i (i + chunk_size)) <$> starts) in *.
  destruct (process_chunks_returns w ranks 0 chunks cvd_type ∅ Hw Hall)
    as (m1 & Hm1 & Hlook).
  assert (∃ p, p ∈ q :: l ∧ is_Some (unit_of_work cvd_type p)) as Hsome.
  { assert (q ∈ concat chunks) as Hq by (rewrite Hcat; apply list_elem_of_here).
    apply list_elem_of_In, in_concat in Hq as (chunk & Hchunk & Hq).
    apply list_elem_of_In in Hchunk, Hq.
    rewrite Forall_forall in Hall.
    destruct (Hall chunk Hchunk) as [(p & Hp & Hs)|Hall'].
    - exists p. split; [|done]. rewrite <- Hcat.
      apply list_elem_of_In, in_concat. exists chunk.
      by rewrite <- !list_elem_of_In.
    - exists q. split; [apply list_elem_of_here|by apply Hall']. }
  destruct (process_batch_parallel_returns w ranks' (q :: l) cvd_type Hw
              (or_introl Hsome)) as (m2 & Hm2 & Hrec2).
  rewrite Hm2. unfold process_batch_chunked. rewrite Hstarts.
  unfold mbind at 1, Result_bind at 1. fold chunks. rewrite Hm1. f_equal.
  apply map_eq. intros p. by rewrite Hlook, Hcat, lookup_empty, Hrec2.
Qed.

(** With valid paths only, chunking does not change the mapping. *)
Lemma chunked_agrees_when_all_valid (w : Z) (ranks : nat → list nat)
    (ranks' : list nat) (l : list Path) (chunk_size : Z)
    (cvd_type : option CVDType) :
  (1 ≤ w)%Z → (1 ≤ chunk_size)%Z →
  (∀ p, p ∈ l → is_Some (unit_of_work cvd_type p)) →
  process_batch_chunked simulate_cvd load save pool_delivers config w
    ranks l chunk_size cvd_type
  = process_batch_parallel simulate_cvd load save pool_delivers config w
      ranks' l cvd_type.
Proof.
  intros Hw Hc Hall.
  destruct (process_batch_chunked_all_valid w ranks l chunk_size cvd_type Hw Hc Hall)
    as (m1 & -> & Hm1).
  destruct (process_batch_parallel_returns w ranks' l cvd_type Hw (or_intror Hall))
    as (m2 & -> & Hm2).
  f_equal. by apply (records_unique (unit_of_work cvd_type) l).
Qed.

Lemma all_or_some (outcome : Path → option ItemResult) (l : list Path) :
  (∀ p, p ∈ l → outcome p = None) ∨ (∃ p, p ∈ l ∧ is_Some (outcome p)).
Proof.
  induction l as [|q l [IH|(p & Hp & Hs)]].
  - left. by intros p Hp%elem_of_nil.
  - destruct (outcome q) as [r|] eqn:Hq.
    + right. exists q. split; [apply list_elem_of_here|]. by rewrite Hq.
    + left. intros p [->|Hp]%elem_of_cons; auto.
  - right. exists p. split; [|done]. apply elem_of_cons. by right.
Qed.

(** C1.  For a non-empty list of paths, [process_batch] and
    [process_batch_parallel] (with a positive worker count) raise the
    aggregate batch error, carrying all the paths and success count 0,
    exactly when no path succeeds; when at least one succeeds they return
    a mapping in which every failed path has the failure marker. *)
Theorem C1_aggregate_failure_policy
    (image_paths : list Path) (max_workers : option Z)
    (self_max_workers : Z) (ranks : list nat) (cvd_type : option CVDType)
    (Hnonempty : image_paths ≠ [])
    (Hworkers : (1 ≤ self_max_workers)%Z) :
  follows_failure_policy image_paths sequential_outcome
    (process_batch simulate_cvd load save cpu_count config
       image_paths max_workers)
  ∧ follows_failure_policy image_paths (unit_of_work cvd_type)
      (process_batch_parallel simulate_cvd load save pool_delivers config
         self_max_workers ranks image_paths cvd_type).
Proof.
  split.
  - destruct (all_or_some sequential_outcome image_paths) as [Hall|Hsome].
    + left. split; [done|]. exists image_paths. split; [|done].
      by apply process_batch_all_failed.
    + right. split; [done|].
      destruct (process_batch_returns image_paths max_workers (or_introl Hsome))
        as (m & Hm & Hrec).
      exists m. split; [done|]. intros p Hp. by rewrite Hrec, decide_True.
  - destruct (all_or_some (unit_of_work cvd_type) image_paths) as [Hall|Hsome].
    + left. split; [done|]. exists (as_completed ranks image_paths).
      split; [|apply as_completed_Permutation].
      by apply process_batch_parallel_all_failed.
    + right. split; [done|].
      destruct (process_batch_parallel_returns self_max_workers ranks
                  image_paths cvd_type Hworkers (or_introl Hsome))
        as (m & Hm & Hrec).
      exists m. split; [done|]. intros p Hp. by rewrite Hrec, decide_True.
Qed.

Lemma records_one_entry (outcome : Path → option ItemResult) (l : list Path)
    (r : Result Exception BatchResult) :
  NoDup l → (∀ p, p ∈ l → is_Some (outcome p)) →
  (∃ m, r = Ok m ∧ records outcome l m) → one_entry_per_path l r.
Proof.
  intros Hnd Hall (m & -> & Hm). exists m. split; [done|].
  split; [by apply (records_size outcome)|].
  split; [by apply (records_dom outcome)|].
  intros p Hp. destruct (Hall p Hp) as [result Hr].
  exists result. by rewrite Hm, decide_True, Hr.
Qed.

(** C3.  For N distinct valid paths, every entry point returns a mapping
    with exactly N keys, the given paths, each with its result; this holds
    for every positive worker count, every positive chunk size and every
    completion order. *)
Theorem C3_one_entry_per_distinct_path
    (image_paths : list Path) (max_workers : option Z)
    (self_max_workers : Z) (ranks : list nat) (chunk_ranks : nat → list nat)
    (chunk_size : Z) (cvd_type : option CVDType)
    (Hdistinct : NoDup image_paths)
    (Hvalid : Forall (λ p, is_Some (sequential_outcome p)
                           ∧ is_Some (unit_of_work cvd_type p)) image_paths)
    (Hworkers : (1 ≤ self_max_workers)%Z)
    (Hchunk : (1 ≤ chunk_size)%Z) :
  one_entry_per_path image_paths
    (process_batch simulate_cvd load save cpu_count config
       image_paths max_workers)
  ∧ one_entry_per_path image_paths
      (process_batch_parallel simulate_cvd load save pool_delivers config
         self_max_workers ranks image_paths cvd_type)
  ∧ one_entry_per_path image_paths
      (process_batch_chunked simulate_cvd load save pool_delivers config
         self_max_workers chunk_ranks image_paths chunk_size cvd_type).
Proof.
  rewrite Forall_forall in Hvalid.
  assert (∀ p, p ∈ image_paths → is_Some (sequential_outcome p)) as Hseq
    by (intros p Hp; by apply Hvalid).
  assert (∀ p, p ∈ image_paths → is_Some (unit_of_work cvd_type p)) as Hpar
    by (intros p Hp; by apply Hvalid).
  split; [|split].
  - apply (records_one_entry sequential_outcome); [done..|].
    apply process_batch_returns. by right.
  - apply (records_one_entry (unit_of_work cvd_type)); [done..|].
    apply process_batch_parallel_returns; [done|by right].
  - apply (records_one_entry (unit_of_work cvd_type)); [done..|].
    by apply process_batch_chunked_all_valid.
Qed.

(** C10.  On the empty list each of the three entry points returns the
    empty mapping and raises nothing, whatever the worker count, the chunk
    size and the requested type. *)
Theorem C10_empty_batch_returns_empty
    (max_workers : option Z) (self_max_workers : Z) (ranks : list nat)
    (chunk_ranks : nat → list nat) (chunk_size : Z)
    (cvd_type : option CVDType) :
  process_batch simulate_cvd load save cpu_count config [] max_workers = Ok ∅
  ∧ process_batch_parallel simulate_cvd load save pool_delivers config
      self_max_workers ranks [] cvd_type = Ok ∅
  ∧ process_batch_chunked simulate_cvd load save pool_delivers config
      self_max_workers chunk_ranks [] chunk_size cvd_type = Ok ∅.
Proof. repeat split. Qed.

End BatchProperties.

(** *** Worked cases of the batch coordinator *)

Section BatchCases.
Import Config Simulator BatchSpec Scenario.

Lemma C1_aggregate_failure_policy_witness :
  follows_failure_policy [bad; good]
    (sequential_outcome simulate_cvd load save default_fields)
    (process_batch simulate_cvd load save cpu_count default_fields
       [bad; good] None)
  ∧ follows_failure_policy [bad; good]
      (unit_of_work simulate_cvd load save pool_delivers default_fields None)
      (process_batch_parallel simulate_cvd load save pool_delivers
         default_fields 2 [1; 0]%nat [bad; good] None).
Proof.
  apply (C1_aggregate_failure_policy simulate_cvd load save pool_delivers
           cpu_count default_fields [bad; good] None 2 [1; 0]%nat None).
  - discriminate.
  - lia.
Defined.

Lemma C3_one_entry_per_distinct_path_witness :
  one_entry_per_path [good; other]
    (process_batch simulate_cvd load save cpu_count default_fields
       [good; other] None)
  ∧ one_entry_per_path [good; other]
      (process_batch_parallel simulate_cvd load save pool_delivers
         default_fields 2 [1; 0]%nat [good; other] (Some TRITAN))
  ∧ one_entry_per_path [good; other]
      (process_batch_chunked simulate_cvd load save pool_delivers
         default_fields 2 (λ _, []) [good; other] 1 (Some TRITAN)).
Proof.
  apply (C3_one_entry_per_distinct_path simulate_cvd load save pool_delivers
           cpu_count default_fields [good; other] None 2 [1; 0]%nat
           (λ _, []) 1 (Some TRITAN)).
  - apply (bool_decide_unpack _). vm_compute. exact I.
  - repeat constructor; vm_compute; eauto.
  - lia.
  - lia.
Defined.

(** C2.  The paths [bad.png; good.png] with chunk size 1: unchunked, the
    call returns a mapping with the failure marker for the first path and
    the outputs of the second; chunked, the first chunk holds only the
    failing path, its aggregate error leaves [process_batch_chunked], and
    the second path is never processed. *)
Theorem C2_chunked_raises_where_unchunked_returns :
  (∃ m outputs,
     process_batch_parallel simulate_cvd load save pool_delivers
       default_fields 2 [] [bad; good] None = Ok m
     ∧ m !! bad = Some None
     ∧ m !! good = Some (Some (AllTypes outputs)))
  ∧ process_batch_chunked simulate_cvd load save pool_delivers
      default_fields 2 (λ _, []) [bad; good] 1 None
    = Raise (BatchProcessingError "All images failed to process" [bad] 0).
Proof.
  split.
  - eexists _, _. split; [reflexivity|]. split; reflexivity.
  - reflexivity.
Qed.

End BatchCases.

(** ** The worker count *)

Section WorkerCount.
Import Config Simulator ConfigSpec BatchSpec.

(** C6, as stated, fails.  With [max_workers = 2] in the configuration,
    an override of 8, four CPUs and three input paths, the simulator
    keeps 8 workers: the override wins over the configuration and nothing
    clamps the count to the three paths; the specification gives 2. *)
Lemma C6_worker_count_counterexample :
  new_SimulationConfig two_workers_config = Ok two_workers_config
  ∧ AsyncCVDSimulator_max_workers 4 two_workers_config (Some 8%Z) = 8%Z
  ∧ specified_worker_count (max_workers two_workers_config) (Some 8%Z) 4 3 = 2%Z
  ∧ AsyncCVDSimulator_max_workers 4 two_workers_config (Some 8%Z)
    ≠ specified_worker_count (max_workers two_workers_config) (Some 8%Z) 4 3.
Proof. repeat split. discriminate. Qed.

(** C6, amended.  The worker count of the asynchronous simulator is the
    override given to its constructor when there is one and it is not 0,
    else the configured [max_workers] when set, else the number of CPUs.
    For a valid configuration, an override that is not negative and at
    least one CPU, it is at least 1.  The helper [get_optimal_workers],
    which the batch entry points do not call, returns at least 1 and, for
    at least one image, at most the number of images. *)
Theorem C6_worker_count_amended
    (config : SimulationConfig) (override : option Z)
    (cpu_count image_count memory_based_limit : Z)
    (Hconfig : new_SimulationConfig config = Ok config)
    (Hcpu : (1 ≤ cpu_count)%Z)
    (Hoverride : ∀ w, override = Some w → (0 ≤ w)%Z) :
  let chosen := AsyncCVDSimulator_max_workers cpu_count config override in
  (∀ w, override = Some w → w ≠ 0%Z → chosen = w)
  ∧ (override = None ∨ override = Some 0%Z →
     ∀ w, max_workers config = Some w → chosen = w)
  ∧ (override = None ∨ override = Some 0%Z →
     max_workers config = None → chosen = cpu_count)
  ∧ (1 ≤ chosen)%Z
  ∧ (1 ≤ get_optimal_workers memory_based_limit cpu_count image_count)%Z
  ∧ ((1 ≤ image_count)%Z →
     (get_optimal_workers memory_based_limit cpu_count image_count
      ≤ image_count)%Z).
Proof.
  apply new_SimulationConfig_Ok in Hconfig as (_ & _ & _ & Hworkers & _).
  unfold AsyncCVDSimulator_max_workers, py_or, get_optimal_workers. simpl.
  unfold workers_in_range in Hworkers.
  repeat split.
  - intros w -> Hw. by destruct (Z.eqb_spec w 0).
  - intros Ho w Hw. rewrite Hw in Hworkers |- *.
    destruct (Z.eqb_spec w 0); [lia|]. by destruct Ho as [-> | ->].
  - intros Ho Hw. rewrite Hw. by destruct Ho as [-> | ->].
  - destruct override as [o|].
    + specialize (Hoverride o eq_refl).
      destruct (Z.eqb_spec o 0); [|lia].
      destruct (max_workers config) as [w|]; [|lia].
      destruct (Z.eqb_spec w 0); lia.
    + destruct (max_workers config) as [w|]; [|lia].
      destruct (Z.eqb_spec w 0); lia.
  - lia.
  - lia.
Qed.

Lemma C6_worker_count_amended_witness :
  let chosen := AsyncCVDSimulator_max_workers 4 two_workers_config (Some 8%Z) in
  (∀ w, Some 8%Z = Some w → w ≠ 0%Z → chosen = w)
  ∧ (Some 8%Z = None ∨ Some 8%Z = Some 0%Z →
     ∀ w, max_workers two_workers_config = Some w → chosen = w)
  ∧ (Some 8%Z = None ∨ Some 8%Z = Some 0%Z →
     max_workers two_workers_config = None → chosen = 4%Z)
  ∧ (1 ≤ chosen)%Z
  ∧ (1 ≤ get_optimal_workers 1365 4 3)%Z
  ∧ ((1 ≤ 3)%Z → (get_optimal_workers 1365 4 3 ≤ 3)%Z).
Proof.
  apply (C6_worker_count_amended two_workers_config (Some 8%Z) 4 3 1365).
  - reflexivity.
  - lia.
  - intros w Hw. injection Hw as <-. lia.
Defined.

End WorkerCount.

(** ** The command line entry point *)

Section CliProperties.
Import Config Presets Pathlib Cli CliSpec.

Variable simulate_cvd : Algorithm → Simulator.Image → CVDType → PyFloat
                        → option Simulator.Image.
Variable load : Path → option Simulator.Image.
Variable save : Simulator.Image → CVDType → option Path.
Variable simulator_init : SimulationConfig → bool.
Variable sidecar_written : Path → bool.
Variable TQDM_AVAILABLE : bool.
Variable parse_args : list string → Parse.
Variable log_file_opens : Path → bool.

Local Abbreviation every_path_succeeded :=
  (CliSpec.every_path_succeeded simulate_cvd load save simulator_init
     sidecar_written).

Lemma forallb_fmap {A B} (f : B → bool) (g : A → B) (l : list A) :
  forallb f (g <$> l) = forallb (f ∘ g) l.
Proof. induction l as [|x l IH]; [done|]. simpl. f_equal. exact IH. Qed.

Lemma sum_of_counts {A} (count : A → Z) (l : list A) (n : Z) :
  (∀ x, count x = 0 ∨ count x = 1)%Z →
  (fold_left (λ n x, n + count x)%Z l n ≤ n + Z.of_nat (length l))%Z
  ∧ ((fold_left (λ n x, n + count x)%Z l n =? n + Z.of_nat (length l))%Z
     = forallb (λ x, (count x =? 1)%Z) l).
Proof.
  intros Hcount. revert n. induction l as [|x l IH]; intros n.
  - simpl. split; [lia|]. apply Z.eqb_eq. lia.
  - cbn [fold_left forallb length]. destruct (IH (n + count x)%Z) as [Hle Heq].
    split; [destruct (Hcount x); lia|].
    destruct (Hcount x) as [H0|H1].
    + rewrite H0 in *. simpl. apply Z.eqb_neq. lia.
    + rewrite H1 in *. simpl. rewrite <- Heq.
      destruct (Z.eqb_spec (fold_left (λ n x, n + count x) l (n + 1))
                  (n + 1 + Z.of_nat (length l)))%Z as [->|Hne].
      * apply Z.eqb_eq. lia.
      * apply Z.eqb_neq. lia.
Qed.

Lemma process_single_image_count config p t e :
  (process_single_image simulate_cvd load save sidecar_written config p t e = 0
   ∨ process_single_image simulate_cvd load save sidecar_written config p t e = 1)%Z.
Proof. unfold process_single_image. destruct (_ ≫= _); auto. Qed.

(** C7, amended.  When the parser rejects the argument list the call ends
    with exit status 2, and when it prints the help or the version, with
    exit status 0.  With one of the list options [main] returns 0 without
    processing anything.  Otherwise, with no input path the parser's error
    ends the call with exit status 2; with at least one input path the
    [OSError] of a log file that cannot be opened leaves [main]; and when
    logging is set up [main] returns 0 when the configuration and the
    simulator could be built and every input path was processed
    successfully, and 1 in every other case. *)
Theorem C7_exit_code_amended (args : list string) :
  main simulate_cvd load save simulator_init sidecar_written TQDM_AVAILABLE
    parse_args log_file_opens args
  = match parse_args args with
    | UsageError => SystemExit 2
    | HelpOrVersion => SystemExit 0
    | Parsed parsed =>
        if list_option_given parsed then Returns 0
        else match images parsed with
             | [] => SystemExit 2
             | _ :: _ =>
                 if negb (logging_set_up log_file_opens parsed) then OSError
                 else if every_path_succeeded parsed then Returns 0
                 else Returns 1
             end
    end.
Proof.
  unfold main, list_option_given, every_path_succeeded, logging_set_up.
  destruct (parse_args args) as [parsed| |]; [|done..].
  destruct (arg_list_algorithms parsed); [done|].
  destruct (arg_list_types parsed); [done|].
  destruct (arg_list_presets parsed); [done|]. simpl orb. cbv iota.
  destruct (images parsed) as [|image rest] eqn:Himages; [done|].
  destruct (setup_logging log_file_opens (log_file_of parsed)); [|done].
  simpl negb. cbv iota.
  destruct (build_config parsed) as [config|e]; [|done].
  destruct (simulator_init config); [|done]. simpl negb. cbv iota.
  pose proof (sum_of_counts
                (λ p, process_single_image simulate_cvd load save
                        sidecar_written config p (arg_type parsed)
                        (arg_export_metadata parsed))
                (Path_of_string <$> image :: rest) 0
                (λ p, process_single_image_count config p _ _)) as [_ Heq].
  rewrite Z.add_0_l, forallb_fmap in Heq. cbv beta in Heq.
  unfold compose in Heq. rewrite <- Heq.
  by destruct (_ && _); destruct (_ =? _)%Z.
Qed.

End CliProperties.

Section CliCases.
Import Config Presets Cli CliSpec Scenario.

(** C7, as stated, fails.  Called with the empty argument list (no input
    path, no list option), [main] does not return 1: the parser's error
    ends the call with exit status 2. *)
Lemma C7_exit_code_counterexample :
  main simulate_cvd load save (λ _, true) (λ _, true) true
    parse_args_of_cases (λ _, true) []
  = SystemExit 2
  ∧ main simulate_cvd load save (λ _, true) (λ _, true) true
      parse_args_of_cases (λ _, true) []
    ≠ Returns 1.
Proof. split; [reflexivity|discriminate]. Qed.

End CliCases.

(** ** The metadata sidecar *)

Section MetadataProperties.
Import Pathlib Metadata MetadataSpec.

Lemma PyValue_nested_ind (P : PyValue → Prop) :
  P PNone → (∀ b, P (PBool b)) → (∀ z, P (PInt z)) → (∀ f, P (PFloat f)) →
  (∀ s, P (PStr s)) →
  (∀ l, Forall P l → P (PList l)) →
  (∀ d, Forall (λ kv, P (snd kv)) d → P (PDict d)) →
  (∀ p, P (PObject p)) →
  ∀ v, P v.
Proof.
  intros HN HB HI HF HS HL HD HO. fix IH 1.
  intros [ |b|z|f|s|l|d|p].
  - exact HN.
  - apply HB.
  - apply HI.
  - apply HF.
  - apply HS.
  - apply HL. induction l as [|x l IHl]; constructor; [apply IH|exact IHl].
  - apply HD. induction d as [|[k x] d IHd]; constructor; [apply IH|exact IHd].
  - apply HO.
Qed.

Lemma dict_get_map {V W} (f : V → W) (k : string) (d : list (string * V)) :
  dict_get k (map (λ kv, (fst kv, f (snd kv))) d) = f <$> dict_get k d.
Proof.
  induction d as [|[k' v] d IH]; [done|]. simpl.
  by destruct (String.eqb k k').
Qed.

Lemma unique_keys_map {V W} (f : V → W) (d : list (string * V)) :
  unique_keys (map (λ kv, (fst kv, f (snd kv))) d) = unique_keys d.
Proof.
  induction d as [|[k v] d IH]; [done|]. simpl.
  rewrite dict_get_map, IH. by destruct (dict_get k d).
Qed.

Lemma dict_set_fresh {V} (k : string) (v : V) (d : list (string * V)) :
  dict_get k d = None → dict_set k v d = (d ++ [(k, v)])%list.
Proof.
  induction d as [|[k' v'] d IH]; [done|]. simpl.
  destruct (String.eqb k k'); [discriminate|]. intros H. by rewrite IH.
Qed.

Lemma dict_get_app {V} (k : string) (d e : list (string * V)) :
  dict_get k (d ++ e)
  = match dict_get k d with Some v => Some v | None => dict_get k e end.
Proof.
  induction d as [|[k' v'] d IH]; [done|]. simpl.
  by destruct (String.eqb k k').
Qed.

Lemma unique_keys_app_fresh {V} (k : string) (v : V)
    (acc ms : list (string * V)) :
  unique_keys (acc ++ (k, v) :: ms) = true → dict_get k acc = None.
Proof.
  induction acc as [|[k' v'] acc IH]; [done|]. simpl.
  rewrite dict_get_app.
  destruct (dict_get k' acc) eqn:Hk'; [discriminate|]. simpl.
  destruct (String.eqb_spec k' k) as [->|Hne]; [discriminate|].
  destruct (String.eqb_spec k k') as [->|_]; [done|].
  destruct (dict_get k' ms); [discriminate|]. exact IH.
Qed.

Lemma fold_dict_set_unique {V} (ms acc : list (string * V)) :
  unique_keys (acc ++ ms) = true →
  fold_left (λ d kv, dict_set (fst kv) (snd kv) d) ms acc = (acc ++ ms)%list.
Proof.
  revert acc. induction ms as [|[k v] ms IH]; intros acc Hu; simpl.
  - by rewrite app_nil_r.
  - rewrite dict_set_fresh by (by eapply unique_keys_app_fresh).
    rewrite IH; rewrite <- app_assoc; done.
Qed.

Lemma dict_of_members_unique {V} (d : list (string * V)) :
  unique_keys d = true → dict_of_members d = d.
Proof. intros Hu. by apply (fold_dict_set_unique d []). Qed.

(** Writing a JSON-native value and reading it back gives the value. *)
Lemma load_dump (v : PyValue) : json_native v = true → load (dump v) = v.
Proof.
  induction v as [ |b|z|f|s|l IH|d IH|p] using PyValue_nested_ind;
    simpl; intros Hn; try done.
  - f_equal. rewrite map_map.
    induction IH as [|x l Hx _ IHl]; [done|].
    simpl in Hn. apply andb_true_iff in Hn as [Hnx Hnl].
    simpl. by rewrite Hx, IHl.
  - apply andb_true_iff in Hn as [Hu Hn]. f_equal.
    rewrite map_map. simpl.
    assert (map (λ kv : string * PyValue, (fst kv, load (dump (snd kv)))) d = d)
      as ->.
    { clear Hu. induction IH as [|[k x] d' Hx _ IHd]; [done|].
      simpl in Hn. apply andb_true_iff in Hn as [Hnx Hnd].
      simpl in *. by rewrite Hx, IHd. }
    by apply dict_of_members_unique.
Qed.

Lemma dict_get_unique {V} (k : string) (v : V) (d : list (string * V)) :
  unique_keys d = true → In (k, v) d → dict_get k d = Some v.
Proof.
  induction d as [|[k' v'] d IH]; [done|]. simpl.
  destruct (dict_get k' d) eqn:Hk'; [discriminate|].
  intros Hu [Heq|Hin].
  - injection Heq as -> ->. by rewrite String.eqb_refl.
  - destruct (String.eqb_spec k k') as [->|_]; [|by apply IH].
    rewrite (IH Hu Hin) in Hk'. discriminate.
Qed.

Lemma float_eqb_refl (f : PyFloat) : not_nan f = true → float_eqb f f = true.
Proof.
  destruct f as [q| | |]; try done. intros _. simpl.
  apply Qeq_bool_iff. reflexivity.
Qed.

(** A JSON-native value is equal to itself in the sense of [==]. *)
Lemma py_eqb_refl (v : PyValue) : json_native v = true → py_eqb v v = true.
Proof.
  induction v as [ |b|z|f|s|l IH|d IH|p] using PyValue_nested_ind;
    simpl; intros Hn; try done.
  - apply Qeq_bool_iff. reflexivity.
  - apply Qeq_bool_iff. reflexivity.
  - by apply float_eqb_refl.
  - apply String.eqb_refl.
  - induction IH as [|x l Hx _ IHl]; [done|].
    simpl in Hn. apply andb_true_iff in Hn as [Hnx Hnl].
    simpl. by rewrite Hx, IHl.
  - apply andb_true_iff in Hn as [Hu Hn].
    rewrite Nat.eqb_refl. simpl.
    apply forallb_forall. intros [k x] Hin. simpl.
    rewrite (dict_get_unique k x d Hu Hin).
    rewrite Forall_forall in IH. apply (IH (k, x)).
    + by apply list_elem_of_In.
    + rewrite forallb_forall in Hn. by apply (Hn (k, x)).
Qed.

Lemma as_str_dict_str_dict (d : list (string * string)) :
  as_str_dict (map (λ kv, (fst kv, PStr (snd kv))) d) = Ok d.
Proof.
  induction d as [|[k v] d IH]; [done|]. simpl.
  unfold mbind, Result_bind in *. by rewrite IH.
Qed.

Lemma json_native_PDict (d : list (string * PyValue)) :
  json_native (PDict d)
  = unique_keys d && forallb (λ kv, json_native (snd kv)) d.
Proof. reflexivity. Qed.

Lemma json_native_str_dict (d : list (string * string)) :
  json_native (str_dict d) = unique_keys d.
Proof.
  unfold str_dict. simpl. rewrite unique_keys_map.
  assert (forallb (λ kv : string * PyValue, json_native (snd kv))
            (map (λ kv : string * string, (fst kv, PStr (snd kv))) d) = true)
    as ->.
  { induction d as [|kv d IH]; [done|]. exact IH. }
  by rewrite andb_true_r.
Qed.

(** C9, amended.  For a record whose [config] holds JSON-native values
    only (no value that the exporter has to turn into a string) and whose
    execution time is not NaN, exporting to a JSON sidecar and loading that
    file gives back the record: the same field values, equal in the sense
    of the dataclass [==]. *)
Theorem C9_metadata_round_trip_amended
    (metadata : SimulationMetadata) (output_path : Path)
    (fs : gmap Path Json)
    (Hnative : native_record metadata = true) :
  ∃ loaded,
    load_metadata output_path (export_metadata metadata output_path fs).2
    = Ok loaded
    ∧ loaded = metadata
    ∧ SimulationMetadata_eqb loaded metadata = true.
Proof.
  unfold native_record in Hnative.
  apply andb_true_iff in Hnative as [Hnative Hfloat].
  apply andb_true_iff in Hnative as [Hnative Hconfig].
  apply andb_true_iff in Hnative as [Hout Hsys].
  exists metadata. split; [|split; [done|]].
  - unfold load_metadata, export_metadata. cbn [snd].
    rewrite lookup_insert_eq. rewrite load_dump.
    2:{ rewrite json_native_PDict. cbn [forallb snd].
        rewrite !json_native_str_dict, Hout, Hsys, Hconfig.
        cbn [json_native]. rewrite Hfloat. reflexivity. }
    cbn. unfold mbind, Result_bind. rewrite !as_str_dict_str_dict.
    by destruct metadata.
  - unfold SimulationMetadata_eqb. rewrite !String.eqb_refl.
    rewrite !py_eqb_refl by (by rewrite ?json_native_str_dict).
    by rewrite float_eqb_refl.
Qed.

End MetadataProperties.

Section MetadataCases.
Import Pathlib Metadata MetadataSpec.

(** C9, as stated, fails.  The exporter writes a path object held in
    [config] as its string; the loader reads a string back, and the loaded
    record is not equal to the exported one. *)
Lemma C9_metadata_round_trip_counterexample :
  ∃ loaded,
    load_metadata ["test_metadata.json"]
      (export_metadata path_in_config ["test_metadata.json"] ∅).2
    = Ok loaded
    ∧ config loaded = [("output_directory", PStr "outputs")]
    ∧ SimulationMetadata_eqb loaded path_in_config = false.
Proof. eexists. split; [reflexivity|]. split; reflexivity. Qed.

(** NaN is written and read back as NaN, which is equal to nothing: the
    loaded record has the same fields and still is not equal to the exported
    one. *)
Lemma nan_execution_time_not_equal :
  ∃ loaded,
    load_metadata ["test_metadata.json"]
      (export_metadata nan_execution_time ["test_metadata.json"] ∅).2
    = Ok loaded
    ∧ loaded = nan_execution_time
    ∧ SimulationMetadata_eqb loaded nan_execution_time = false.
Proof. eexists. split; [reflexivity|]. split; reflexivity. Qed.

Lemma C9_metadata_round_trip_amended_witness :
  ∃ loaded,
    load_metadata ["test_metadata.json"]
      (export_metadata plain_record ["test_metadata.json"] ∅).2
    = Ok loaded
    ∧ loaded = plain_record
    ∧ SimulationMetadata_eqb loaded plain_record = true.
Proof.
  apply (C9_metadata_round_trip_amended plain_record ["test_metadata.json"] ∅).
  reflexivity.
Defined.

End MetadataCases.

(* ===================================================================== *)
(** * Part III.  Further properties                                       *)
(* ===================================================================== *)

(** ** Further properties of the batch coordinator *)

Section BatchCoverage.
Import Config Simulator BatchSpec BatchOrderSpec.

Variable simulate_cvd : Algorithm → Image → CVDType → PyFloat → option Image.
Variable load : Path → option Image.
Variable save : Image → CVDType → option Path.
Variable pool_delivers : Path → bool.
Variable config : SimulationConfig.

Local Abbreviation unit_of_work :=
  (BatchSpec.unit_of_work simulate_cvd load save pool_delivers config).
Local Abbreviation chunk_returns :=
  (BatchSpec.chunk_returns simulate_cvd load save pool_delivers config).
Local Abbreviation process_batch_parallel :=
  (Simulator.process_batch_parallel simulate_cvd load save pool_delivers config).
Local Abbreviation process_batch_chunked :=
  (Simulator.process_batch_chunked simulate_cvd load save pool_delivers config).
Local Abbreviation process_chunks :=
  (Simulator.process_chunks simulate_cvd load save pool_delivers config).

Lemma process_batch_parallel_no_worker (w : Z) (ranks : list nat)
    (l : list Path) (cvd_type : option CVDType) :
  (w ≤ 0)%Z → l ≠ [] →
  process_batch_parallel w ranks l cvd_type
  = Raise (ValueError "max_workers must be greater than 0").
Proof.
  intros Hw Hl. destruct l as [|p l]; [done|].
  unfold Simulator.process_batch_parallel, ProcessPoolExecutor.
  destruct (Z.leb_spec w 0); [done|lia].
Qed.

(** X1.  The completion order of the workers has no influence on what
    [process_batch_parallel] returns: for two completion orders, the two
    calls return the same mapping, or raise the same exception, the
    aggregate error listing the same failed paths in the order of
    completion. *)
Theorem parallel_result_independent_of_completion_order
    (self_max_workers : Z) (ranks ranks' : list nat)
    (image_paths : list Path) (cvd_type : option CVDType) :
  same_up_to_failure_order
    (process_batch_parallel self_max_workers ranks image_paths cvd_type)
    (process_batch_parallel self_max_workers ranks' image_paths cvd_type).
Proof.
  destruct (decide (image_paths = [])) as [->|Hne]; [by left|].
  destruct (Z_lt_le_dec self_max_workers 1) as [Hw|Hw].
  { left. by rewrite !process_batch_parallel_no_worker by (done || lia). }
  destruct (all_or_some (unit_of_work cvd_type) image_paths) as [Hall|Hsome].
  - right.
    rewrite !(process_batch_parallel_all_failed _ _ _ _ _ _ _ _ _ Hw Hne Hall).
    eexists _, _, _, _. split; [done|]. split; [done|].
    by rewrite !as_completed_Permutation.
  - left.
    destruct (process_batch_parallel_returns simulate_cvd load save
                pool_delivers config self_max_workers ranks image_paths
                cvd_type Hw (or_introl Hsome)) as (m & -> & Hm).
    destruct (process_batch_parallel_returns simulate_cvd load save
                pool_delivers config self_max_workers ranks' image_paths
                cvd_type Hw (or_introl Hsome)) as (m' & -> & Hm').
    f_equal. by apply (records_unique (unit_of_work cvd_type) image_paths).
Qed.

Lemma py_range_step_single (total chunk_size : Z) :
  (1 ≤ total ≤ chunk_size)%Z → py_range_step total chunk_size = Ok [0%Z].
Proof.
  intros H. unfold py_range_step.
  destruct (Z.eqb_spec chunk_size 0); [lia|].
  destruct (Z.ltb_spec chunk_size 0); [lia|].
  assert ((total + chunk_size - 1) / chunk_size = 1)%Z as ->.
  { symmetry. apply (Z.div_unique _ _ 1 (total - 1)); lia. }
  reflexivity.
Qed.

(** X3.  A chunk size that is at least the number of paths makes
    [process_batch_chunked] one call of [process_batch_parallel] on all
    the paths: the two end the same way, errors included. *)
Theorem chunked_with_one_chunk_is_parallel
    (self_max_workers : Z) (chunk_ranks : nat → list nat)
    (image_paths : list Path) (chunk_size : Z) (cvd_type : option CVDType)
    (Hsize : (Z.of_nat (length image_paths) ≤ chunk_size)%Z) :
  process_batch_chunked self_max_workers chunk_ranks image_paths chunk_size
    cvd_type
  = process_batch_parallel self_max_workers (chunk_ranks 0%nat) image_paths
      cvd_type.
Proof.
  destruct image_paths as [|p l]; [done|].
  unfold Simulator.process_batch_chunked.
  rewrite py_range_step_single by (simpl length in *; lia).
  cbn [mbind Result_bind fmap list_fmap Simulator.process_chunks].
  assert (slice (p :: l) 0 (0 + chunk_size) = p :: l) as ->.
  { unfold slice. rewrite drop_0. apply take_ge. simpl length in *. lia. }
  destruct (Simulator.process_batch_parallel _ _ _ _ _ _ _ _ _) as [m|e];
    [|done].
  cbn. by rewrite (right_id_L ∅ (∪)).
Qed.

(** X4.  A chunk size that is not positive: zero makes
    [process_batch_chunked] raise the [ValueError] of [range], and a
    negative size makes it return the empty mapping for any non-empty list
    of paths, without a path being processed. *)
Theorem chunked_with_nonpositive_chunk_size
    (self_max_workers : Z) (chunk_ranks : nat → list nat)
    (image_paths : list Path) (chunk_size : Z) (cvd_type : option CVDType)
    (Hnonempty : image_paths ≠ [])
    (Hsize : (chunk_size ≤ 0)%Z) :
  process_batch_chunked self_max_workers chunk_ranks image_paths chunk_size
    cvd_type
  = if (chunk_size =? 0)%Z
    then Raise (ValueError "range() arg 3 must not be zero")
    else Ok ∅.
Proof.
  destruct image_paths as [|p l]; [done|].
  unfold Simulator.process_batch_chunked, py_range_step.
  destruct (Z.eqb_spec chunk_size 0); [done|].
  destruct (Z.ltb_spec chunk_size 0); [done|lia].
Qed.

Lemma chunk_returns_or_fails (cvd_type : option CVDType) (chunk : list Path) :
  chunk_returns cvd_type chunk
  ∨ (chunk ≠ [] ∧ ∀ p, p ∈ chunk → unit_of_work cvd_type p = None).
Proof.
  destruct (all_or_some (unit_of_work cvd_type) chunk) as [Hall|Hsome].
  - destruct chunk as [|p chunk].
    + left. right. intros p Hp. by apply elem_of_nil in Hp.
    + by right.
  - left. by left.
Qed.

Lemma process_chunks_cases (w : Z) (ranks : nat → list nat) (i : nat)
    (chunks : list (list Path)) (cvd_type : option CVDType)
    (acc : BatchResult) :
  (1 ≤ w)%Z →
  Forall (chunk_returns cvd_type) chunks
  ∨ ∃ (k : nat) (chunk : list Path),
      chunks !! k = Some chunk
      ∧ Forall (chunk_returns cvd_type) (take k chunks)
      ∧ chunk ≠ []
      ∧ (∀ p, p ∈ chunk → unit_of_work cvd_type p = None)
      ∧ process_chunks w ranks i chunks cvd_type acc
        = Raise (BatchProcessingError "All images failed to process"
                   (as_completed (ranks (i + k)%nat) chunk) 0).
Proof.
  intros Hw. revert i acc.
  induction chunks as [|chunk chunks IH]; intros i acc; [by left|].
  destruct (chunk_returns_or_fails cvd_type chunk) as [Hret|[Hne Hfail]].
  - assert (∃ m, process_batch_parallel w (ranks i) chunk cvd_type = Ok m)
      as [m Hm].
    { destruct (process_batch_parallel_returns simulate_cvd load save
                  pool_delivers config w (ranks i) chunk cvd_type Hw Hret)
        as (m & Hm & _). by exists m. }
    destruct (IH (S i) (m ∪ acc)) as [Hall|(k & c & Hk & Hbefore & Hc & Hf & Hr)].
    + left. by constructor.
    + right. exists (S k), c. split; [done|]. split; [by constructor|].
      split; [done|]. split; [done|].
      cbn [Simulator.process_chunks]. rewrite Hm.
      cbn [mbind Result_bind]. rewrite Hr.
      by replace (i + S k)%nat with (S i + k)%nat by lia.
  - right. exists 0%nat, chunk. split; [done|]. split; [by constructor|].
    split; [done|]. split; [done|].
    cbn [Simulator.process_chunks].
    rewrite (process_batch_parallel_all_failed simulate_cvd load save
               pool_delivers config w (ranks i) chunk cvd_type Hw Hne Hfail).
    cbn [mbind Result_bind]. by replace (i + 0)%nat with i by lia.
Qed.

(** X5.  How [process_batch_chunked] ends, for a positive chunk size and
    worker count.  Either every chunk has a path that succeeds (or none
    that fails), and the call returns the mapping with what was recorded
    for each path; or it stops at the first chunk all of whose paths fail
    and raises the aggregate error for the paths of that chunk alone, with
    success count 0, whatever the chunks before it produced. *)
Theorem chunked_ends_at_first_failing_chunk
    (self_max_workers : Z) (chunk_ranks : nat → list nat)
    (image_paths : list Path) (chunk_size : Z) (cvd_type : option CVDType)
    (Hworkers : (1 ≤ self_max_workers)%Z)
    (Hchunk : (1 ≤ chunk_size)%Z) :
  let chunk (k : nat) :=
    slice image_paths (Z.of_nat k * chunk_size)
      (Z.of_nat k * chunk_size + chunk_size) in
  (∃ m, process_batch_chunked self_max_workers chunk_ranks image_paths
          chunk_size cvd_type = Ok m
        ∧ records (unit_of_work cvd_type) image_paths m)
  ∨ ∃ k : nat,
      (∀ j : nat, (j < k)%nat → chunk_returns cvd_type (chunk j))
      ∧ chunk k ≠ []
      ∧ (∀ p, p ∈ chunk k → unit_of_work cvd_type p = None)
      ∧ process_batch_chunked self_max_workers chunk_ranks image_paths
          chunk_size cvd_type
        = Raise (BatchProcessingError "All images failed to process"
                   (as_completed (chunk_ranks k) (chunk k)) 0).
Proof.
  intros chunk.
  destruct (decide (image_paths = [])) as [->|Hne].
  { left. exists ∅. split; [done|]. intros p. rewrite lookup_empty.
    case_decide as Hp; [by apply elem_of_nil in Hp|done]. }
  destruct (chunks_partition image_paths chunk_size Hchunk)
    as (starts & Hstarts & Hconcat).
  assert (∃ n, starts = (λ k : nat, (Z.of_nat k * chunk_size)%Z) <$> seq 0 n)
    as [n Hn].
  { unfold py_range_step in Hstarts.
    destruct (Z.eqb_spec chunk_size 0); [lia|].
    destruct (Z.ltb_spec chunk_size 0); [lia|].
    eexists. by simplify_eq. }
  assert (process_batch_chunked self_max_workers chunk_ranks image_paths
            chunk_size cvd_type
          = process_chunks self_max_workers chunk_ranks 0
              ((λ i : Z, slice image_paths i (i + chunk_size)) <$> starts)
              cvd_type ∅) as Hrun.
  { clear chunk Hconcat Hn. destruct image_paths as [|p0 l0]; [done|].
    unfold Simulator.process_batch_chunked. by rewrite Hstarts. }
  set (chunks := (λ i : Z, slice image_paths i (i + chunk_size)) <$> starts)
    in *.
  assert (∀ k c, chunks !! k = Some c → c = chunk k) as Hlookup.
  { intros k c. unfold chunks. rewrite Hn, <- list_fmap_compose.
    rewrite list_lookup_fmap. intros Hk.
    apply fmap_Some in Hk as (j & Hj & ->).
    apply lookup_seq in Hj as [-> _]. reflexivity. }
  destruct (process_chunks_cases self_max_workers chunk_ranks 0 chunks
              cvd_type ∅ Hworkers)
    as [Hall|(k & c & Hk & Hbefore & Hc & Hfail & Hraise)].
  - left.
    destruct (process_chunks_returns simulate_cvd load save pool_delivers
                config self_max_workers chunk_ranks 0 chunks cvd_type ∅
                Hworkers Hall) as (m & Hm & Hrec).
    exists m. split; [by rewrite Hrun|].
    intros p. rewrite Hrec, Hconcat. by rewrite lookup_empty.
  - right. exists k. rewrite (Hlookup k c Hk) in *.
    split; [|split; [done|split; [done|by rewrite Hrun]]].
    intros j Hj.
    assert (is_Some (chunks !! j)) as [cj Hcj].
    { apply lookup_lt_is_Some. apply lookup_lt_Some in Hk. lia. }
    rewrite <- (Hlookup j cj Hcj).
    rewrite Forall_lookup in Hbefore. apply (Hbefore j cj).
    by rewrite lookup_take_lt.
Qed.

(** X6.  The worker count override is not validated: with a count that
    is not positive, [process_batch_parallel] raises the [ValueError] of
    the process pool for every non-empty list of paths, before any path is
    processed, and so does [process_batch_chunked] for every positive
    chunk size. *)
Theorem nonpositive_worker_count_raises
    (self_max_workers : Z) (ranks : list nat) (chunk_ranks : nat → list nat)
    (image_paths : list Path) (chunk_size : Z) (cvd_type : option CVDType)
    (Hworkers : (self_max_workers ≤ 0)%Z)
    (Hnonempty : image_paths ≠ [])
    (Hchunk : (1 ≤ chunk_size)%Z) :
  process_batch_parallel self_max_workers ranks image_paths cvd_type
  = Raise (ValueError "max_workers must be greater than 0")
  ∧ process_batch_chunked self_max_workers chunk_ranks image_paths chunk_size
      cvd_type
    = Raise (ValueError "max_workers must be greater than 0").
Proof.
  split; [by apply process_batch_parallel_no_worker|].
  destruct image_paths as [|p l]; [done|].
  unfold Simulator.process_batch_chunked, py_range_step.
  destruct (Z.eqb_spec chunk_size 0); [lia|].
  destruct (Z.ltb_spec chunk_size 0); [lia|].
  cbn [mbind Result_bind].
  destruct (Z.to_nat ((Z.of_nat (length (p :: l)) + chunk_size - 1) / chunk_size))
    as [|count] eqn:Hcount.
  { exfalso.
    assert (1 ≤ (Z.of_nat (length (p :: l)) + chunk_size - 1) / chunk_size)%Z.
    { apply Z.div_le_lower_bound; [lia|]. simpl length. lia. }
    lia. }
  cbn [seq fmap list_fmap Simulator.process_chunks].
  assert (slice (p :: l) (Z.of_nat 0 * chunk_size)
            (Z.of_nat 0 * chunk_size + chunk_size)
          = p :: take (Z.to_nat chunk_size - 1) l) as ->.
  { unfold slice. change (Z.of_nat 0) with 0%Z.
    rewrite Z.mul_0_l, Z.add_0_l, Z.sub_0_r. simpl drop.
    destruct (Z.to_nat chunk_size) as [|k] eqn:Hk; [lia|].
    simpl. by rewrite Nat.sub_0_r. }
  by rewrite process_batch_parallel_no_worker.
Qed.

(** X7.  What a returned mapping holds.  Whenever
    [process_batch_parallel] returns, for a list of paths that may hold a
    path twice and paths that fail, the keys of the mapping are exactly
    the given paths, each key maps to what was recorded for the path (the
    failure marker for a failed one), and, unless the list is empty, at
    least one path holds a result. *)
Theorem parallel_returned_mapping
    (self_max_workers : Z) (ranks : list nat) (image_paths : list Path)
    (cvd_type : option CVDType) (m : BatchResult)
    (Hreturns : process_batch_parallel self_max_workers ranks image_paths
                  cvd_type = Ok m) :
  dom m = list_to_set image_paths
  ∧ (∀ p, p ∈ image_paths → m !! p = Some (unit_of_work cvd_type p))
  ∧ (image_paths ≠ [] → ∃ p result, m !! p = Some (Some result)).
Proof.
  destruct (decide (image_paths = [])) as [->|Hne].
  { cbn in Hreturns. simplify_eq. split; [by rewrite dom_empty_L|].
    split; [|done]. intros p Hp. by apply elem_of_nil in Hp. }
  destruct (Z_lt_le_dec self_max_workers 1) as [Hw|Hw].
  { rewrite process_batch_parallel_no_worker in Hreturns by (done || lia).
    done. }
  destruct (all_or_some (unit_of_work cvd_type) image_paths) as [Hall|Hsome].
  { by rewrite (process_batch_parallel_all_failed _ _ _ _ _ _ _ _ _
                  Hw Hne Hall) in Hreturns. }
  destruct (process_batch_parallel_returns simulate_cvd load save
              pool_delivers config self_max_workers ranks image_paths
              cvd_type Hw (or_introl Hsome)) as (m' & Hm' & Hrec).
  rewrite Hm' in Hreturns. simplify_eq.
  split; [by apply (records_dom (unit_of_work cvd_type))|].
  split.
  - intros p Hp. rewrite (Hrec p). by rewrite decide_True.
  - intros _. destruct Hsome as (p & Hp & [result Hresult]).
    exists p, result. rewrite (Hrec p), decide_True by done. by rewrite Hresult.
Qed.

Lemma process_types_Ok (image : Image) (types : list CVDType)
    (acc outputs : list (CVDType * Path)) :
  process_types simulate_cvd save config image types acc = Ok outputs →
  ∃ new, outputs = (acc ++ new)%list
         ∧ new.*1 = types
         ∧ ∀ t out, (t, out) ∈ new →
             ∃ simulated, simulate simulate_cvd config image t = Ok simulated
                          ∧ save simulated t = Some out.
Proof.
  revert acc. induction types as [|t types IH]; intros acc H.
  - cbn in H. simplify_eq. exists []. split; [by rewrite app_nil_r|].
    split; [done|]. intros t out Hin. by apply elem_of_nil in Hin.
  - cbn [process_types mbind Result_bind] in H.
    destruct (simulate simulate_cvd config image t) as [simulated|e] eqn:Hsim;
      [|done].
    cbn [mbind Result_bind] in H. unfold writer_save in H.
    destruct (save simulated t) as [out|] eqn:Hsave; [|done].
    cbn [mbind Result_bind] in H.
    destruct (IH _ H) as (new & -> & Hkeys & Hall).
    exists ((t, out) :: new). split; [by rewrite <- app_assoc|].
    split; [by rewrite fmap_cons, Hkeys|].
    intros t' out' [Heq|Hin]%elem_of_cons.
    + simplify_eq. by exists simulated.
    + by apply Hall.
Qed.

Lemma process_types_Raise (image : Image) (types : list CVDType)
    (acc : list (CVDType * Path)) (e : Exception) :
  process_types simulate_cvd save config image types acc = Raise e →
  ∃ t, t ∈ types
       ∧ ((∃ e', simulate simulate_cvd config image t = Raise e')
          ∨ ∃ simulated, simulate simulate_cvd config image t = Ok simulated
                         ∧ save simulated t = None).
Proof.
  revert acc. induction types as [|t types IH]; intros acc H; [done|].
  cbn [process_types mbind Result_bind] in H.
  destruct (simulate simulate_cvd config image t) as [simulated|e'] eqn:Hsim.
  - cbn [mbind Result_bind] in H. unfold writer_save in H.
    destruct (save simulated t) as [out|] eqn:Hsave; cbn [mbind Result_bind] in H.
    + destruct (IH _ H) as (t' & Hin & Ht'). exists t'. split; [|done].
      by apply elem_of_cons; right.
    + exists t. split; [by apply elem_of_cons; left|]. right. by exists simulated.
  - exists t. split; [by apply elem_of_cons; left|]. left. by exists e'.
Qed.

(** X8.  [process_image] is all or nothing.  When it returns, the image
    was loaded and the result has one entry per deficiency type, in the
    order of the enumeration, each the path the writer gave for the
    simulation of that type.  When it raises, the image could not be
    loaded, or the simulation or the save of some type failed; no partial
    result is returned. *)
Theorem process_image_all_or_nothing (image_path : Path) :
  match process_image simulate_cvd load save config image_path with
  | Ok outputs =>
      ∃ image,
        load image_path = Some image
        ∧ outputs.*1 = all_CVDType
        ∧ ∀ t out, (t, out) ∈ outputs →
            ∃ simulated,
              simulate simulate_cvd config image t = Ok simulated
              ∧ save simulated t = Some out
  | Raise _ =>
      load image_path = None
      ∨ ∃ image t,
          load image_path = Some image
          ∧ ((∃ e, simulate simulate_cvd config image t = Raise e)
             ∨ ∃ simulated,
                 simulate simulate_cvd config image t = Ok simulated
                 ∧ save simulated t = None)
  end.
Proof.
  unfold process_image, loader_load.
  destruct (load image_path) as [image|]; cbn [mbind Result_bind]; [|by left].
  destruct (process_types _ _ _ _ _ _) as [outputs|e] eqn:H.
  - apply process_types_Ok in H as (new & -> & Hkeys & Hall).
    exists image. by repeat split.
  - apply process_types_Raise in H as (t & _ & Ht). right. by exists image, t.
Qed.

End BatchCoverage.
(** ** Further properties of the security validator *)

Section FilenameCoverage.
Import Validators Pathlib ValidatorSpec FilenameSpec.

Local Abbreviation replace_dotdot := (replace_from ".." "_" 0).

Lemma append_nil_l (s : string) : "" +:+ s = s.
Proof. reflexivity. Qed.

Lemma append_cons (c : ascii) (a s : string) :
  String c a +:+ s = String c (a +:+ s).
Proof. reflexivity. Qed.

Lemma replace_dotdot_hit (s : string) :
  replace_dotdot (String "." (String "." s)) = String "_" (replace_dotdot s).
Proof.
  cbn [replace_from String.prefix String.length Nat.sub].
  destruct (ascii_dec "." ".") as [_|Hne]; [|done].
  by rewrite prefix_empty.
Qed.

Lemma replace_dotdot_miss (c : ascii) (s : string) :
  Ascii.eqb c "." && match s with
                     | String d _ => Ascii.eqb d "."
                     | EmptyString => false
                     end = false →
  replace_dotdot (String c s) = String c (replace_dotdot s).
Proof.
  intros H. cbn [replace_from String.prefix].
  destruct (ascii_dec "." c) as [<-|Hc]; [|done].
  destruct s as [|d s]; [done|]. cbn [String.prefix].
  destruct (ascii_dec "." d) as [<-|Hd]; [done|done].
Qed.

Lemma adjacent_dots_cons (c : ascii) (s : string) :
  adjacent_dots (String c s)
  = (Ascii.eqb c "." && match s with
                        | String d _ => Ascii.eqb d "."
                        | EmptyString => false
                        end) || adjacent_dots s.
Proof. reflexivity. Qed.

Lemma replace_dotdot_head (d : ascii) (s : string) :
  Ascii.eqb d "." = false →
  ∃ rest, replace_dotdot (String d s) = String d rest.
Proof.
  intros Hd. rewrite replace_dotdot_miss by by rewrite Hd. by eexists.
Qed.

Lemma adjacent_dots_replace_pair (s : string) :
  adjacent_dots (replace_dotdot s) = false
  ∧ ∀ c, adjacent_dots (replace_dotdot (String c s)) = false.
Proof.
  induction s as [|d s [IH1 IH2]].
  - split; [done|]. intros c. rewrite replace_dotdot_miss.
    + rewrite adjacent_dots_cons. cbn. by rewrite andb_false_r.
    + by rewrite andb_false_r.
  - split; [apply IH2|]. intros c.
    destruct (Ascii.eqb c ".") eqn:Hc; [destruct (Ascii.eqb d ".") eqn:Hd|].
    + apply Ascii.eqb_eq in Hc as ->. apply Ascii.eqb_eq in Hd as ->.
      rewrite replace_dotdot_hit, adjacent_dots_cons. by rewrite IH1.
    + rewrite replace_dotdot_miss by by rewrite Hc, Hd.
      destruct (replace_dotdot_head d s Hd) as [rest Hrest].
      rewrite adjacent_dots_cons, IH2, Hrest, Hd. by rewrite andb_false_r.
    + rewrite replace_dotdot_miss by by rewrite Hc.
      rewrite adjacent_dots_cons, IH2, Hc. done.
Qed.

Lemma adjacent_dots_replace (s : string) :
  adjacent_dots (str_replace ".." "_" s) = false.
Proof. apply adjacent_dots_replace_pair. Qed.

Lemma keep_safe_dot_eqb (c : ascii) :
  Ascii.eqb (keep_safe c) "." = Ascii.eqb c ".".
Proof.
  unfold keep_safe. destruct (is_safe_char c) eqn:Hc; [done|].
  destruct (Ascii.eqb_spec c ".") as [->|_]; [done|done].
Qed.

Lemma adjacent_dots_keep_safe (s : string) :
  adjacent_dots (string_map keep_safe s) = adjacent_dots s.
Proof.
  induction s as [|c s IH]; [done|].
  cbn [string_map]. rewrite !adjacent_dots_cons, IH, keep_safe_dot_eqb.
  destruct s as [|d s]; [done|]. cbn [string_map].
  by rewrite keep_safe_dot_eqb.
Qed.

Lemma adjacent_dots_occurrence (a b : string) :
  adjacent_dots (a +:+ ".." +:+ b) = true.
Proof.
  induction a as [|c a IH]; [done|].
  rewrite append_cons, adjacent_dots_cons, IH. apply orb_true_r.
Qed.

Lemma sanitize_filename_shape (filename : string) :
  sanitize_filename filename = "unnamed_file"
  ∨ ∃ r, sanitize_filename filename
         = string_map keep_safe (str_replace ".." "_" r)
         ∧ sanitize_filename filename ≠ ""
         ∧ sanitize_filename filename ≠ "_".
Proof.
  unfold sanitize_filename, dangerous. cbn [fold_left]. fold keep_safe.
  set (r := str_replace _ "_" (str_replace "\" "_" (str_replace "/" "_" filename))).
  destruct (String.eqb_spec (string_map keep_safe (str_replace ".." "_" r)) "")
    as [Heq|Hne]; [by left|].
  destruct (String.eqb_spec (string_map keep_safe (str_replace ".." "_" r)) "_")
    as [Heq|Hne']; [by left|].
  right. by exists r.
Qed.

Lemma sanitize_filename_is_clean (filename : string) :
  clean_name (sanitize_filename filename) = true.
Proof.
  destruct (sanitize_filename_shape filename) as [->|(r & Hr & Hne & Hne')];
    [done|].
  unfold clean_name.
  apply String.eqb_neq in Hne. apply String.eqb_neq in Hne'.
  rewrite Hne, Hne'. rewrite Hr.
  by rewrite all_safe_string_map, adjacent_dots_keep_safe,
    adjacent_dots_replace.
Qed.

Lemma replace_unsafe_char (c0 : ascii) (s : string) :
  is_safe_char c0 = false → all_safe s = true →
  str_replace (String c0 "") "_" s = s.
Proof.
  intros Hc0. unfold str_replace, all_safe.
  induction s as [|c s IH]; [done|]. cbn [list_ascii_of_string forallb].
  intros [Hc Hs]%andb_true_iff. cbn [replace_from String.prefix].
  destruct (ascii_dec c0 c) as [->|_]; [congruence|].
  by rewrite IH.
Qed.

Lemma replace_dotdot_absent (s : string) :
  adjacent_dots s = false → str_replace ".." "_" s = s.
Proof.
  unfold str_replace. induction s as [|c s IH]; [done|].
  rewrite adjacent_dots_cons. intros [Hc Hs]%orb_false_iff.
  rewrite replace_dotdot_miss by done. by rewrite IH.
Qed.

Lemma string_map_keep_safe_id (s : string) :
  all_safe s = true → string_map keep_safe s = s.
Proof.
  unfold all_safe. induction s as [|c s IH]; [done|].
  cbn [list_ascii_of_string forallb string_map].
  intros [Hc Hs]%andb_true_iff. unfold keep_safe at 1. by rewrite Hc, IH.
Qed.

Lemma sanitize_filename_of_clean (s : string) :
  clean_name s = true → sanitize_filename s = s.
Proof.
  unfold clean_name.
  intros [[[Hsafe Hdots]%andb_true_iff Hne]%andb_true_iff Hne']%andb_true_iff.
  apply negb_true_iff in Hdots, Hne, Hne'.
  unfold sanitize_filename, dangerous. cbn [fold_left]. fold keep_safe.
  rewrite (replace_unsafe_char "/" s eq_refl Hsafe).
  rewrite (replace_unsafe_char "\" s eq_refl Hsafe).
  rewrite (replace_unsafe_char Ascii.zero s eq_refl Hsafe).
  rewrite replace_dotdot_absent by done.
  rewrite string_map_keep_safe_id by done.
  by rewrite Hne, Hne'.
Qed.

(** X9.  Whatever the input, the name [sanitize_filename] returns is not
    empty, is made of the allowed characters only (letters, digits, dot,
    underscore and hyphen: no separator and no null byte), and holds no
    two dots in a row anywhere. *)
Theorem sanitize_filename_output_is_harmless (filename : string) :
  sanitize_filename filename ≠ ""
  ∧ all_safe (sanitize_filename filename) = true
  ∧ ∀ before after,
      sanitize_filename filename ≠ before +:+ ".." +:+ after.
Proof.
  pose proof (sanitize_filename_is_clean filename) as H.
  unfold clean_name in H.
  apply andb_true_iff in H as [[[Hsafe Hdots]%andb_true_iff Hne]%andb_true_iff _].
  apply negb_true_iff in Hdots, Hne. apply String.eqb_neq in Hne.
  split; [done|]. split; [done|].
  intros before after Heq. rewrite Heq in Hdots.
  by rewrite adjacent_dots_occurrence in Hdots.
Qed.

(** X10.  [sanitize_filename] changes nothing in a name that is already
    clean, and only in such a name, so that sanitizing twice is the same
    as sanitizing once. *)
Theorem sanitize_filename_fixed_points (filename : string) :
  (sanitize_filename filename = filename ↔ clean_name filename = true)
  ∧ sanitize_filename (sanitize_filename filename)
    = sanitize_filename filename.
Proof.
  split; [split|].
  - intros H. rewrite <- H. apply sanitize_filename_is_clean.
  - apply sanitize_filename_of_clean.
  - apply sanitize_filename_of_clean, sanitize_filename_is_clean.
Qed.

End FilenameCoverage.
(** ** The image checks and the loader *)

Section ImageCoverage.
Import Config Pathlib Metadata Simulator PyStr ImageValidation ImageLoader.

Lemma validate_image_Ok_iff (self : SecurityValidator) (file_path : Path)
    (probe : FileProbe) :
  validate_image self file_path probe = Ok tt
  ↔ path_exists probe = true
    ∧ path_is_file probe = true
    ∧ (st_size probe ≤ max_file_size self)%Z
    ∧ st_size probe ≠ 0%Z
    ∧ (∃ fmt, pil_format probe = Some (Some fmt) ∧ fmt ≠ ""
              ∧ lower fmt ∈ allowed_formats self)
    ∧ verify_error probe = None
    ∧ ((image_size probe).1 ≤ max_dimension self)%Z
    ∧ ((image_size probe).2 ≤ max_dimension self)%Z.
Proof.
  unfold validate_image, _get_image_format.
  destruct (path_exists probe); cbn [negb]; [|by split; [|intros (? & _)]].
  destruct (path_is_file probe); cbn [negb];
    [|by split; [|intros (_ & ? & _)]].
  destruct (Z.ltb_spec (max_file_size self) (st_size probe));
    [split; [done|intros (_ & _ & ? & _); lia]|].
  destruct (Z.eqb_spec (st_size probe) 0);
    [split; [done|intros (_ & _ & _ & ? & _); lia]|].
  destruct (pil_format probe) as [[fmt|]|];
    [|by split; [|intros (_ & _ & _ & _ & (? & ? & _) & _)]..].
  destruct (String.eqb_spec fmt "") as [->|Hfmt];
    [split; [done|intros (_ & _ & _ & _ & (? & ? & ? & _) & _); by simplify_eq]|].
  case_bool_decide as Hin; cbn [negb];
    [|split; [done|intros (_ & _ & _ & _ & (? & ? & _ & ?) & _); by simplify_eq]].
  destruct (verify_error probe);
    [by split; [|intros (_ & _ & _ & _ & _ & ? & _)]|].
  destruct (image_size probe) as [width height]. cbn [fst snd].
  destruct (Z.ltb_spec (max_dimension self) width); cbn [orb];
    [split; [done|intros (_ & _ & _ & _ & _ & _ & ? & _); lia]|].
  destruct (Z.ltb_spec (max_dimension self) height);
    [split; [done|intros (_ & _ & _ & _ & _ & _ & _ & ?); lia]|].
  split; [|done]. intros _. repeat split; try done. by exists fmt.
Qed.


Variable probe : Path → FileProbe.
Variable open_RGB : Path → option Image.

(** X12.  The loader of a [CVDSimulator] checks every file against the
    limits of a default validator (100 MiB, 10000 pixels, the six default
    formats), whatever [max_image_size] and [max_image_dimension] the
    configuration holds.  It returns an image exactly when these checks
    pass and the image can be opened; every failure, a security violation
    included, leaves it as an [ImageProcessingError]. *)
Theorem simulator_loader_uses_default_limits (config : SimulationConfig)
    (image_path : Path) :
  let file := probe image_path in
  match CVDSimulator_loader_load probe open_RGB config image_path with
  | Ok image =>
      open_RGB image_path = Some image
      ∧ path_exists file = true
      ∧ path_is_file file = true
      ∧ (0 ≠ st_size file)%Z ∧ (st_size file ≤ 104857600)%Z
      ∧ (∃ fmt, pil_format file = Some (Some fmt)
                ∧ lower fmt ∈ ["jpeg"; "png"; "gif"; "bmp"; "tiff"; "webp"])
      ∧ verify_error file = None
      ∧ ((image_size file).1 ≤ 10000)%Z
      ∧ ((image_size file).2 ≤ 10000)%Z
  | Raise e =>
      e = ImageProcessingError "Failed to load image"
      ∧ ((∃ violation,
            validate_image default_validator image_path file = Raise violation)
         ∨ open_RGB image_path = None)
  end.
Proof.
  intros file. unfold CVDSimulator_loader_load, load, new_ImageLoader.
  fold file.
  destruct (validate_image default_validator image_path file) as [[]|v] eqn:Hv;
    cbn [mbind Result_bind try_except].
  - destruct (open_RGB image_path) as [image|]; [|by split; [|right]].
    apply validate_image_Ok_iff in Hv
      as (? & ? & ? & ? & (fmt & ? & ? & ?) & ? & ? & ?).
    cbn in *. repeat split; try done. by exists fmt.
  - split; [done|]. left. by exists v.
Qed.

End ImageCoverage.
(** ** The output writer *)

Section OutputCoverage.
Import Config Pathlib Validators ValidatorSpec FilenameSpec Simulator
  OutputWriter.

Lemma all_safe_app (a b : string) :
  all_safe (a +:+ b) = all_safe a && all_safe b.
Proof.
  unfold all_safe. induction a as [|c a IH]; [done|].
  rewrite append_cons. cbn [list_ascii_of_string forallb].
  by rewrite IH, andb_assoc.
Qed.

Lemma adjacent_dots_app_no_dot (a b : string) :
  no_dot a = true → adjacent_dots (a +:+ b) = adjacent_dots b.
Proof.
  unfold no_dot. induction a as [|c a IH]; [done|].
  cbn [list_ascii_of_string forallb]. intros [Hc Ha]%andb_true_iff.
  apply negb_true_iff in Hc.
  rewrite append_cons, adjacent_dots_cons, Hc. by apply IH.
Qed.

Lemma timestamp_safe (s : string) :
  is_timestamp s = true → all_safe s = true ∧ no_dot s = true.
Proof.
  unfold is_timestamp, all_safe, no_dot.
  induction s as [|c s IH]; [done|].
  cbn [list_ascii_of_string forallb]. intros [Hc Hs]%andb_true_iff.
  destruct (IH Hs) as [-> ->]. rewrite !andb_true_r.
  unfold is_timestamp_char in Hc. cbn [list_ascii_of_string existsb] in Hc.
  repeat (apply orb_true_iff in Hc as [Hc|Hc];
          [apply Ascii.eqb_eq in Hc as ->; done|]).
  done.
Qed.

Lemma default_filename_clean (cvd_type : CVDType) (timestamp : string)
    (format : OutputFormat) :
  is_timestamp timestamp = true →
  clean_name ((CVDType_value cvd_type +:+ "_image") +:+ "_" +:+ timestamp
              +:+ "." +:+ OutputFormat_value format) = true.
Proof.
  intros [Hsafe Hdot]%timestamp_safe. unfold clean_name.
  set (tail := timestamp +:+ "." +:+ OutputFormat_value format).
  assert (all_safe tail = true) as Htail.
  { unfold tail. rewrite !all_safe_app, Hsafe. by destruct format. }
  assert (adjacent_dots tail = false) as Hdots.
  { unfold tail. rewrite adjacent_dots_app_no_dot by done. by destruct format. }
  assert (∀ head, all_safe head = true → no_dot head = true →
            head ≠ "" → head ≠ "_" → String.length head ≠ 1%nat →
            all_safe (head +:+ tail) && negb (adjacent_dots (head +:+ tail))
            && negb (head +:+ tail =? "") && negb (head +:+ tail =? "_")
            = true) as Hgen.
  { intros head H1 H2 H3 H4 H5.
    rewrite all_safe_app, H1, Htail, adjacent_dots_app_no_dot, Hdots by done.
    destruct head as [|c [|d head]]; [done|done|].
    rewrite !append_cons. cbn [String.eqb]. by destruct (Ascii.eqb c "_"). }
  destruct cvd_type;
    [apply (Hgen "protan_image_")|apply (Hgen "deutan_image_")
    |apply (Hgen "tritan_image_")|apply (Hgen "bw_image_")]; done.
Qed.

Lemma sanitize_filename_keeps_letter (c : ascii) (rest : string) :
  is_safe_char c = true → c ≠ "."%char → c ≠ "_"%char →
  ∃ rest', sanitize_filename (String c rest) = String c rest'.
Proof.
  intros Hsafe Hdot Hunder.
  assert (∀ c0 s, is_safe_char c0 = false →
            str_replace (String c0 "") "_" (String c s)
            = String c (str_replace (String c0 "") "_" s)) as Hchar.
  { intros c0 s Hc0. unfold str_replace. cbn [replace_from String.prefix].
    destruct (ascii_dec c0 c) as [->|_]; [congruence|done]. }
  unfold sanitize_filename, dangerous. cbn [fold_left]. fold keep_safe.
  rewrite !Hchar by done.
  assert (∀ s, str_replace ".." "_" (String c s)
               = String c (str_replace ".." "_" s)) as Hdd.
  { intros s. unfold str_replace. apply replace_dotdot_miss.
    by destruct (Ascii.eqb_spec c "."). }
  assert (keep_safe c = c) as Hkeep by (unfold keep_safe; by rewrite Hsafe).
  rewrite !Hdd. cbn [string_map]. rewrite !Hkeep.
  cbn [String.eqb]. destruct (Ascii.eqb_spec c "_"); [done|].
  cbn [orb]. by eexists.
Qed.

Variable cwd : list string.
Variable config : SimulationConfig.

Lemma generate_output_path_default
    (output_directory : Path) (cvd_type : CVDType) (timestamp : string) :
  no_parent_reference cwd →
  Config.output_directory config = IsPath output_directory →
  is_timestamp timestamp = true →
  _generate_output_path (lexical_resolve cwd) config cvd_type timestamp None
  = Ok (lexical_resolve cwd output_directory
        ++ [CVDType_value cvd_type +:+ "_image_" +:+ timestamp +:+ "."
            +:+ OutputFormat_value (output_format config)])%list.
Proof.
  intros Hcwd Hdirectory Htimestamp.
  unfold _generate_output_path. rewrite Hdirectory.
  pose proof (default_filename_clean cvd_type timestamp
                (output_format config) Htimestamp) as Hclean.
  rewrite (sanitize_output_path_lexical cwd output_directory _ Hcwd).
  cbv zeta. rewrite (sanitize_filename_of_clean _ Hclean).
  assert ((CVDType_value cvd_type +:+ "_image") +:+ "_" +:+ timestamp +:+ "."
          +:+ OutputFormat_value (output_format config)
          = CVDType_value cvd_type +:+ "_image_" +:+ timestamp +:+ "."
            +:+ OutputFormat_value (output_format config)) as ->
    by (by destruct cvd_type).
  case_decide as Hdot; [|done].
  by destruct cvd_type.
Qed.

Variable now : string.
Variable mkdir_ok : bool.
Variable image_save_ok : Image → Path → option Z * option bool → bool.

(** X13.  On a file system without symbolic links, for a configuration
    whose output directory is a path and a clock that writes digits and
    underscores, [save] without time stamp and custom name writes to the
    resolved output directory followed by
    [<type value>_image_<timestamp>.<extension>]: the sanitizer changes
    nothing in that name and no security error is raised.  It returns
    that path when the directory can be made and the encoder succeeds, and
    raises otherwise. *)
Theorem save_writes_the_default_name
    (output_directory : Path) (image : Image) (cvd_type : CVDType)
    (Hcwd : no_parent_reference cwd)
    (Hdirectory : Config.output_directory config = IsPath output_directory)
    (Hclock : is_timestamp now = true) :
  let output_path :=
    (lexical_resolve cwd output_directory
     ++ [CVDType_value cvd_type +:+ "_image_" +:+ now +:+ "."
         +:+ OutputFormat_value (output_format config)])%list in
  save (lexical_resolve cwd) config now mkdir_ok image_save_ok image cvd_type
    None None
  = if negb mkdir_ok then Raise WOSError
    else if image_save_ok image output_path (_get_format_settings config)
    then Ok output_path
    else Raise (WImageProcessingError "Failed to save image").
Proof.
  intros output_path. unfold save.
  by rewrite (generate_output_path_default output_directory cvd_type now
                Hcwd Hdirectory Hclock).
Qed.

(** X14.  On a file system without symbolic links [sanitize_output_path]
    never raises: for every directory and every file name it returns a
    path below the resolved directory, which is that directory followed
    by the sanitized name as one component (unless the sanitized name is a
    single dot, which adds no component). *)
Theorem sanitize_output_path_without_links
    (output_dir : Path) (filename : string)
    (Hcwd : no_parent_reference cwd) :
  ∃ target,
    sanitize_output_path (lexical_resolve cwd) output_dir filename = Ok target
    ∧ lexical_resolve cwd output_dir `prefix_of` target
    ∧ (sanitize_filename filename ≠ "." →
       target = (lexical_resolve cwd output_dir
                 ++ [sanitize_filename filename])%list).
Proof.
  rewrite (sanitize_output_path_lexical cwd output_dir filename Hcwd).
  cbv zeta. eexists. split; [done|]. case_decide as Hdot.
  - split; [done|]. by intros ?.
  - split; [by apply prefix_app_r|done].
Qed.

(** X15.  On a file system without symbolic links, the paths generated
    for two different deficiency types are different, whatever the two
    time stamps: the outputs written for one image never overwrite each
    other. *)
Theorem generated_output_paths_differ_by_type
    (output_directory : Path) (t1 t2 : CVDType) (timestamp1 timestamp2 : string)
    (Hcwd : no_parent_reference cwd)
    (Hdirectory : Config.output_directory config = IsPath output_directory)
    (Htypes : t1 ≠ t2) :
  ∃ path1 path2,
    _generate_output_path (lexical_resolve cwd) config t1 timestamp1 None
    = Ok path1
    ∧ _generate_output_path (lexical_resolve cwd) config t2 timestamp2 None
      = Ok path2
    ∧ path1 ≠ path2.
Proof.
  assert (∀ t timestamp, ∃ c rest,
            _generate_output_path (lexical_resolve cwd) config t timestamp None
            = Ok (lexical_resolve cwd output_directory ++ [String c rest])%list
            ∧ String c "" = substring 0 1 (CVDType_value t)) as Hgen.
  { intros t timestamp. unfold _generate_output_path. rewrite Hdirectory.
    rewrite (sanitize_output_path_lexical cwd output_directory _ Hcwd).
    cbv zeta.
    assert (∃ c rest, (CVDType_value t +:+ "_image") +:+ "_" +:+ timestamp
                      +:+ "." +:+ OutputFormat_value (output_format config)
                      = String c rest
                      ∧ is_safe_char c = true ∧ c ≠ "."%char ∧ c ≠ "_"%char
                      ∧ String c "" = substring 0 1 (CVDType_value t))
      as (c & rest & -> & Hsafe & Hdot & Hunder & Hhead).
    { destruct t; eexists _, _; rewrite !append_cons;
        (split; [reflexivity|]); done. }
    destruct (sanitize_filename_keeps_letter c rest Hsafe Hdot Hunder)
      as [rest' ->].
    exists c, rest'. split; [|done].
    case_decide as Heq; [|done]. by simplify_eq. }
  destruct (Hgen t1 timestamp1) as (c1 & rest1 & -> & H1).
  destruct (Hgen t2 timestamp2) as (c2 & rest2 & -> & H2).
  eexists _, _. split; [done|]. split; [done|].
  intros Heq. apply app_inv_head in Heq. simplify_eq.
  destruct t1, t2; try done; cbn in H1, H2; simplify_eq.
Qed.

End OutputCoverage.
(** ** The configuration as a dictionary *)

Section ConfigDictCoverage.
Import Config ConfigSpec Pathlib PathlibSpec Metadata PyStr EnumLookup
  ConfigDict.

Lemma Algorithm_by_name_upper (a : Algorithm) :
  Algorithm_by_name (upper (Algorithm_name a)) = Some a.
Proof. by destruct a. Qed.

Lemma OutputFormat_by_name_upper (f : OutputFormat) :
  OutputFormat_by_name (upper (OutputFormat_name f)) = Some f.
Proof. by destruct f. Qed.

Lemma LogLevel_by_name_upper (l : LogLevel) :
  LogLevel_by_name (upper (LogLevel_name l)) = Some l.
Proof. by destruct l. Qed.

(** X16.  [from_dict] undoes [to_dict]: for a configuration that passes
    validation and whose output directory is a path, the dictionary
    [to_dict] writes is read back by [from_dict] as the same
    configuration.  This is the step by which each parallel worker rebuilds
    the configuration of the coordinator. *)
Theorem from_dict_to_dict (config : SimulationConfig)
    (Hvalid : new_SimulationConfig config = Ok config)
    (Hdirectory : ∃ p, output_directory config = IsPath p
                       ∧ is_pathlib_path p = true) :
  from_dict (to_dict config) = Ok config.
Proof.
  destruct config as [a sev f d q o l w size dim].
  destruct Hdirectory as (p & Hd & Hp). cbn in Hd. subst d.
  unfold from_dict, convert_enum, to_dict.
  cbn [dict_get String.eqb Ascii.eqb Bool.eqb algorithm severity output_format
       output_directory quality optimize log_level max_workers
       max_image_size max_image_dimension].
  rewrite Algorithm_by_name_upper, OutputFormat_by_name_upper,
    LogLevel_by_name_upper.
  cbn [mbind Result_bind fmap list_fmap fst].
  match goal with
  | |- context [filter ?P ?keys] =>
      assert (filter P keys = []) as -> by reflexivity
  end.
  unfold enum_field, float_field, int_field, bool_field, optional_int_field,
    directory_field.
  cbn [dict_get String.eqb Ascii.eqb Bool.eqb mbind Result_bind].
  rewrite (Path_of_string_str_of_Path p Hp).
  destruct w as [w|]; cbn [mbind Result_bind]; by rewrite Hvalid.
Qed.

(** X2.  [from_dict] after [to_dict], for any configuration, valid or not
    (a field can be assigned after construction): [from_dict] on the
    dictionary [to_dict] writes runs the constructor again on the same
    field values, with the output directory read back from its string.
    The call returns that configuration when it passes validation and
    raises the [ValidationError] of [_validate] otherwise.  This is what a
    parallel worker makes of the dictionary the coordinator sends. *)
Theorem from_dict_to_dict_validates_again (config : SimulationConfig) :
  let rebuilt :=
    {| algorithm := algorithm config;
       severity := severity config;
       output_format := output_format config;
       output_directory :=
         IsPath (Path_of_string
                   (match output_directory config with
                    | IsPath p => str_of_Path p
                    | NotPath s => s
                    end));
       quality := quality config;
       optimize := optimize config;
       log_level := log_level config;
       max_workers := max_workers config;
       max_image_size := max_image_size config;
       max_image_dimension := max_image_dimension config |} in
  from_dict (to_dict config)
  = match _validate rebuilt with
    | Ok _ => Ok rebuilt
    | Raise e => Raise (Invalid e)
    end.
Proof.
  destruct config as [a sev f d q o l w size dim].
  unfold from_dict, convert_enum, to_dict.
  cbn [dict_get String.eqb Ascii.eqb Bool.eqb algorithm severity output_format
       output_directory quality optimize log_level max_workers
       max_image_size max_image_dimension].
  rewrite Algorithm_by_name_upper, OutputFormat_by_name_upper,
    LogLevel_by_name_upper.
  cbn [mbind Result_bind fmap list_fmap fst].
  match goal with
  | |- context [filter ?P ?keys] =>
      assert (filter P keys = []) as -> by reflexivity
  end.
  unfold enum_field, float_field, int_field, bool_field, optional_int_field,
    directory_field, new_SimulationConfig.
  cbn [dict_get String.eqb Ascii.eqb Bool.eqb mbind Result_bind].
  destruct w as [w|]; cbn [mbind Result_bind];
    by destruct (_validate _) as [[]|e].
Qed.

Lemma convert_enum_cases {E} (lookup : string → option E) (key : string)
    (d : list (string * PyValue)) :
  (∃ c, convert_enum lookup key d = Ok c
        ∧ (dict_get key d = None → c = Absent))
  ∨ convert_enum lookup key d = Raise (ConfigurationError key).
Proof.
  unfold convert_enum.
  destruct (dict_get key d) as [[ | | | |s| | | ]|]; try (left; by eexists).
  destruct (lookup (upper s)); [left; by eexists|by right].
Qed.

Lemma new_SimulationConfig_same (fields c : SimulationConfig) :
  new_SimulationConfig fields = Ok c → c = fields.
Proof.
  unfold new_SimulationConfig, mbind, Result_bind.
  destruct (_validate fields) as [[]|e]; [|done]. by intros; simplify_eq.
Qed.

(** X17.  [from_dict] refuses a dictionary with a key that is not a field
    of the configuration: whatever the other entries, the call raises
    [ConfigurationError] and no instance is built. *)
Theorem from_dict_rejects_unknown_keys
    (config_dict : list (string * PyValue)) (key : string)
    (Hkey : key ∈ config_dict.*1)
    (Hunknown : key ∉ valid_keys) :
  ∃ config_key, from_dict config_dict = Raise (ConfigurationError config_key).
Proof.
  unfold from_dict.
  destruct (convert_enum_cases Algorithm_by_name "algorithm" config_dict)
    as [(a & -> & _)| ->]; [|by eexists].
  destruct (convert_enum_cases OutputFormat_by_name "output_format" config_dict)
    as [(f & -> & _)| ->]; [|by eexists].
  destruct (convert_enum_cases LogLevel_by_name "log_level" config_dict)
    as [(l & -> & _)| ->]; [|by eexists].
  cbn [mbind Result_bind].
  destruct (filter (λ k, k ∉ valid_keys) config_dict.*1) as [|k ks] eqn:Hfilter;
    [|by eexists].
  assert (key ∈ filter (λ k, k ∉ valid_keys) config_dict.*1) as Hin
    by by apply list_elem_of_filter.
  rewrite Hfilter in Hin. by apply elem_of_nil in Hin.
Qed.

(** X18.  What [from_dict] returns satisfies every constraint of the
    configuration, comes from a dictionary without unknown key, and has
    the default of the dataclass in every field whose key the dictionary
    does not hold (for the output directory, [./outputs], the default
    when the environment variable is not set). *)
Theorem from_dict_result (config_dict : list (string * PyValue))
    (config : SimulationConfig)
    (Hreturns : from_dict config_dict = Ok config) :
  let absent key := dict_get key config_dict = None in
  fields_in_range config
  ∧ Forall (λ key, key ∈ valid_keys) config_dict.*1
  ∧ (absent "algorithm" → algorithm config = BRETTEL_1997)
  ∧ (absent "severity" → severity config = FFinite (8 # 10))
  ∧ (absent "output_format" → output_format config = JPEG)
  ∧ (absent "output_directory" → output_directory config = IsPath ["outputs"])
  ∧ (absent "quality" → quality config = 95%Z)
  ∧ (absent "optimize" → optimize config = true)
  ∧ (absent "log_level" → log_level config = INFO)
  ∧ (absent "max_workers" → max_workers config = None)
  ∧ (absent "max_image_size" → max_image_size config = 104857600%Z)
  ∧ (absent "max_image_dimension" → max_image_dimension config = 10000%Z).
Proof.
  intros absent. revert Hreturns. unfold from_dict.
  destruct (convert_enum_cases Algorithm_by_name "algorithm" config_dict)
    as [(ca & -> & Ha)| ->]; [|done].
  destruct (convert_enum_cases OutputFormat_by_name "output_format" config_dict)
    as [(cf & -> & Hf)| ->]; [|done].
  destruct (convert_enum_cases LogLevel_by_name "log_level" config_dict)
    as [(cl & -> & Hl)| ->]; [|done].
  cbn [mbind Result_bind].
  destruct (filter (λ k, k ∉ valid_keys) config_dict.*1) as [|k ks] eqn:Hfilter;
    [|done].
  destruct (enum_field "algorithm" ca _) as [a|] eqn:Ea; [|done].
  destruct (float_field "severity" config_dict _) as [sev|] eqn:Esev; [|done].
  destruct (enum_field "output_format" cf _) as [f|] eqn:Ef; [|done].
  destruct (int_field "quality" config_dict _) as [q|] eqn:Eq; [|done].
  destruct (bool_field "optimize" config_dict _) as [o|] eqn:Eo; [|done].
  destruct (enum_field "log_level" cl _) as [l|] eqn:El; [|done].
  destruct (optional_int_field "max_workers" config_dict _) as [w|] eqn:Ew;
    [|done].
  destruct (int_field "max_image_size" config_dict _) as [size|] eqn:Esize;
    [|done].
  destruct (int_field "max_image_dimension" config_dict _) as [dim|] eqn:Edim;
    [|done].
  cbn [mbind Result_bind].
  destruct (new_SimulationConfig _) as [c|e] eqn:Hnew; [|done].
  intros Heq. simplify_eq.
  pose proof (new_SimulationConfig_same _ _ Hnew) as ->.
  split; [by apply new_SimulationConfig_Ok|].
  split.
  { apply Forall_forall. intros key Hkey.
    destruct (decide (key ∈ valid_keys)) as [|Hnot]; [done|].
    assert (key ∈ filter (λ k, k ∉ valid_keys) config_dict.*1) as Hin
      by by apply list_elem_of_filter.
    rewrite Hfilter in Hin. by apply elem_of_nil in Hin. }
  unfold absent. cbn [algorithm severity output_format output_directory
    quality optimize log_level max_workers max_image_size max_image_dimension].
  unfold enum_field, float_field, int_field, bool_field, optional_int_field,
    directory_field in *.
  repeat split; intros Habsent;
    try (rewrite Habsent in *; by simplify_eq);
    [rewrite (Ha Habsent) in Ea|rewrite (Hf Habsent) in Ef
    |rewrite (Hl Habsent) in El]; by simplify_eq.
Qed.

End ConfigDictCoverage.
(** ** Presets *)

Section PresetCoverage.
Import Config ConfigSpec Presets Cli PresetStore.

(** X19.  Every preset is a configuration that passes validation, and the
    configuration [main] builds always satisfies the constraints: with a
    preset, whose output directory it replaces without validating again,
    no error is possible; without one, an error is the only alternative. *)
Theorem built_configuration_is_valid (parsed : Namespace) :
  (∀ p, new_SimulationConfig (preset_config p) = Ok (preset_config p))
  ∧ match build_config parsed with
    | Ok config => fields_in_range config
    | Raise _ => arg_preset parsed = None
    end.
Proof.
  split; [by intros []|].
  unfold build_config. destruct (arg_preset parsed) as [p|].
  - apply validate_Ok_iff. by destruct p.
  - destruct (new_SimulationConfig _) as [config|e] eqn:Hnew; [|done].
    pose proof Hnew as Hsame.
    unfold new_SimulationConfig, mbind, Result_bind in Hsame.
    destruct (_validate _) as [[]|]; [|done]. simplify_eq.
    by apply new_SimulationConfig_Ok.
Qed.

(** X20.  [main] with [--preset] writes its output directory into the
    preset's own configuration object: afterwards the preset, also when
    applied through [apply_preset] without a directory, carries the
    directory of that run instead of the default, while the other presets
    are as before.  [apply_preset] itself works on a copy and leaves every
    preset as it is.  On the presets as the module defines them, the
    configuration built this way is the one [build_config] gives. *)
Theorem preset_keeps_the_directory_of_main (parsed : Namespace)
    (p : PresetType) (presets : PresetConfigs)
    (Hpreset : arg_preset parsed = Some p) :
  let after := (main_build_config parsed presets).2 in
  (main_build_config parsed PRESETS).1 = build_config parsed
  ∧ output_directory (apply_preset after p None).1
    = IsPath (Pathlib.Path_of_string (arg_output parsed))
  ∧ (∀ q, q ≠ p → after q = presets q)
  ∧ (∀ q directory, (apply_preset presets q directory).2 = presets).
Proof.
  intros after. unfold after, main_build_config, build_config, apply_preset.
  rewrite Hpreset. cbn [fst snd]. split; [done|]. split.
  - by rewrite decide_True.
  - split; [|done]. intros q Hq. by rewrite decide_False.
Qed.

(** X21.  [get_preset] finds a preset by its value in any letter case:
    given a string, it returns the entry of the preset whose value is the
    lower-case form of the string, and raises [ValueError] when no preset
    has that value. *)
Theorem get_preset_by_name (name : string) :
  match get_preset (inl name) with
  | Ok p => PyStr.lower name = PresetType_value p
  | Raise e =>
      (∃ message, e = ValueError message)
      ∧ ∀ p, PyStr.lower name ≠ PresetType_value p
  end.
Proof.
  unfold get_preset, PresetType_by_value.
  destruct (List.find _ all_PresetType) as [p|] eqn:Hfind.
  - apply find_some in Hfind as [_ Heq]. by apply String.eqb_eq in Heq.
  - split; [by eexists|]. intros p Heq.
    assert (In p all_PresetType) as Hin by (destruct p; cbn; tauto).
    pose proof (find_none _ _ Hfind p Hin) as Hne. cbv beta in Hne.
    by rewrite Heq, String.eqb_refl in Hne.
Qed.

(** X22.  Every choice the argument parser offers decodes to the member
    it was made from: the lower-case name of an algorithm, an output
    format, a log level or a deficiency type is found again by the lookup
    by upper-case name that [main] performs, and the value of a preset by
    [get_preset]. *)
Theorem parser_choices_decode :
  (∀ a, EnumLookup.Algorithm_by_name
          (PyStr.upper (PyStr.lower (Algorithm_name a))) = Some a)
  ∧ (∀ f, EnumLookup.OutputFormat_by_name
            (PyStr.upper (PyStr.lower (OutputFormat_name f))) = Some f)
  ∧ (∀ l, EnumLookup.LogLevel_by_name
            (PyStr.upper (PyStr.lower (LogLevel_name l))) = Some l)
  ∧ (∀ t, EnumLookup.CVDType_by_name
            (PyStr.upper (PyStr.lower (CVDType_name t))) = Some t)
  ∧ (∀ p, get_preset (inl (PresetType_value p)) = Ok p).
Proof. repeat split; by intros []. Qed.

End PresetCoverage.

(** ** Creating and verifying metadata *)

Section MetadataCoverage.
Import Config Pathlib Metadata MetadataSpec ConfigDict MetadataTools.

Lemma dict_get_dict_set {V} (k k' : string) (v : V) (d : list (string * V)) :
  dict_get k' (dict_set k v d)
  = if String.eqb k' k then Some v else dict_get k' d.
Proof.
  induction d as [|[k0 v0] d IH]; simpl.
  - done.
  - destruct (String.eqb_spec k k0) as [->|Hk]; simpl.
    + by destruct (String.eqb_spec k' k0).
    + rewrite IH. destruct (String.eqb_spec k' k0) as [->|]; [|done].
      by destruct (String.eqb_spec k0 k) as [->|].
Qed.

Lemma unique_keys_dict_set {V} (k : string) (v : V) (d : list (string * V)) :
  unique_keys d = true → unique_keys (dict_set k v d) = true.
Proof.
  induction d as [|[k0 v0] d IH]; [done|]. simpl.
  destruct (dict_get k0 d) eqn:Hk0; [done|]. intros Hd.
  destruct (String.eqb_spec k k0) as [->|Hk]; simpl.
  - by rewrite Hk0.
  - rewrite dict_get_dict_set, Hk0.
    destruct (String.eqb_spec k0 k) as [->|]; [done|]. by apply IH.
Qed.

Lemma unique_keys_dict_of_members {V} (members : list (string * V)) :
  unique_keys (dict_of_members members) = true.
Proof.
  unfold dict_of_members.
  assert (∀ acc : list (string * V), unique_keys acc = true →
            unique_keys (fold_left (λ d kv, dict_set (fst kv) (snd kv) d)
                           members acc) = true) as H.
  { induction members as [|kv members IH]; intros acc Hacc; [done|].
    simpl. by apply IH, unique_keys_dict_set. }
  by apply H.
Qed.

Lemma json_native_to_dict (config : SimulationConfig) :
  not_nan (severity config) = true → json_native (PDict (to_dict config)) = true.
Proof.
  intros Hsev. unfold to_dict. rewrite json_native_PDict.
  cbn [forallb snd json_native]. rewrite Hsev.
  by destruct (max_workers config).
Qed.

Variable path_exists : Path → bool.
Variable sha256_hexdigest : Path → option string.
Variable utc_now : string.
Variable platform : Platform.

Local Abbreviation create_metadata :=
  (MetadataTools.create_metadata path_exists sha256_hexdigest utc_now platform).
Local Abbreviation verify_reproducibility :=
  (MetadataTools.verify_reproducibility path_exists sha256_hexdigest platform).

Lemma created_metadata_native (input_file : Path)
    (output_files : list (CVDType * Path)) (config : SimulationConfig)
    (execution_time_ms : PyFloat) (notes : string) :
  not_nan (severity config) = true → not_nan execution_time_ms = true →
  native_record
    (create_metadata input_file output_files config execution_time_ms notes)
  = true.
Proof.
  intros Hsev Htime. unfold native_record, MetadataTools.create_metadata.
  cbn [Metadata.output_files system_info Metadata.config
       Metadata.execution_time_ms].
  rewrite unique_keys_dict_of_members, json_native_to_dict, Htime by done.
  unfold get_system_info. by rewrite !unique_keys_dict_set.
Qed.

(** X23.  The record [create_metadata] builds survives the sidecar: for a
    configuration whose severity is a number and an execution time that is
    a number, exporting the created record and loading the file gives the
    record back, equal in the sense of the dataclass [==]; the
    configuration is stored by [to_dict], so no value has to be turned
    into a string by the exporter. *)
Theorem created_metadata_round_trip (input_file : Path)
    (output_files : list (CVDType * Path)) (config : SimulationConfig)
    (execution_time_ms : PyFloat) (notes : string)
    (output_path : Path) (fs : gmap Path Json)
    (Hseverity : not_nan (severity config) = true)
    (Htime : not_nan execution_time_ms = true) :
  let metadata :=
    create_metadata input_file output_files config execution_time_ms notes in
  ∃ loaded,
    load_metadata output_path (export_metadata metadata output_path fs).2
    = Ok loaded
    ∧ loaded = metadata
    ∧ SimulationMetadata_eqb loaded metadata = true.
Proof.
  intros metadata.
  pose proof (created_metadata_native input_file output_files config
                execution_time_ms notes Hseverity Htime) as Hnative.
  fold metadata in Hnative. clearbody metadata.
  unfold native_record in Hnative.
  apply andb_true_iff in Hnative as [Hnative Hfloat].
  apply andb_true_iff in Hnative as [Hnative Hconfig].
  apply andb_true_iff in Hnative as [Hout Hsys].
  exists metadata. split; [|split; [done|]].
  - unfold load_metadata, export_metadata. cbn [snd].
    rewrite lookup_insert_eq. rewrite load_dump.
    2:{ rewrite json_native_PDict. cbn [forallb snd].
        rewrite !json_native_str_dict, Hout, Hsys, Hconfig.
        cbn [json_native]. rewrite Hfloat. reflexivity. }
    cbn. unfold mbind, Result_bind. rewrite !as_str_dict_str_dict.
    by destruct metadata.
  - unfold SimulationMetadata_eqb. rewrite !String.eqb_refl.
    rewrite !py_eqb_refl by (by rewrite ?json_native_str_dict).
    by rewrite float_eqb_refl.
Qed.


(** X25.  [load_metadata] and what is missing.  For a document that
    lacks one of the keys [version], [timestamp], [input_file] and
    [input_checksum] while the keys before it in this order hold strings,
    it raises [KeyError] for that key, whatever else the document holds;
    and once the file is removed, it raises [FileNotFoundError]. *)
Theorem load_metadata_missing (metadata_path : Path) (fs : gmap Path Json)
    (document : Json) (data : list (string * PyValue))
    (before : list string) (key : string) (after : list string)
    (Hfile : fs !! metadata_path = Some document)
    (Hdata : load document = PDict data)
    (Hkeys : ["version"; "timestamp"; "input_file"; "input_checksum"]
             = (before ++ key :: after)%list)
    (Hbefore : ∀ k, k ∈ before → ∃ s, dict_get k data = Some (PStr s))
    (Hkey : dict_get key data = None) :
  load_metadata metadata_path fs = Raise (KeyError key)
  ∧ load_metadata metadata_path (delete metadata_path fs)
    = Raise FileNotFoundError.
Proof.
  split; [|by unfold load_metadata; rewrite lookup_delete_eq].
  unfold load_metadata. rewrite Hfile, Hdata.
  cbn [as_dict mbind Result_bind]. unfold getitem.
  destruct before as [|k1 [|k2 [|k3 [|k4 before]]]];
    cbn [app] in Hkeys; simplify_eq.
  - by rewrite Hkey.
  - destruct (Hbefore "version") as [s1 ->]; [by left|].
    cbn [mbind Result_bind as_str]. by rewrite Hkey.
  - destruct (Hbefore "version") as [s1 ->]; [by left|].
    destruct (Hbefore "timestamp") as [s2 ->]; [by right; left|].
    cbn [mbind Result_bind as_str]. by rewrite Hkey.
  - destruct (Hbefore "version") as [s1 ->]; [by left|].
    destruct (Hbefore "timestamp") as [s2 ->]; [by right; left|].
    destruct (Hbefore "input_file") as [s3 ->]; [by right; right; left|].
    cbn [mbind Result_bind as_str]. by rewrite Hkey.
  - by destruct before.
Qed.

End MetadataCoverage.
(** ** The sidecar path *)

Section SidecarCoverage.
Import Pathlib PathlibSpec PyStr PathParts FilenameSpec MetadataTools.

Lemma rfind_no_dot (s : string) : no_dot s = true → rfind "." s = None.
Proof.
  unfold no_dot. induction s as [|c s IH]; [done|].
  cbn [list_ascii_of_string forallb rfind].
  intros [Hc Hs]%andb_true_iff. rewrite (IH Hs).
  by apply negb_true_iff in Hc as ->.
Qed.

Lemma rfind_last_dot (base ext : string) :
  no_dot ext = true →
  rfind "." (base +:+ "." +:+ ext) = Some (String.length base).
Proof.
  intros Hext. induction base as [|c base IH].
  - rewrite append_nil_l, append_cons, append_nil_l. cbn [rfind].
    by rewrite (rfind_no_dot ext Hext).
  - rewrite append_cons. cbn [rfind String.length]. by rewrite IH.
Qed.

Lemma substring_prefix (base rest : string) :
  substring 0 (String.length base) (base +:+ rest) = base.
Proof.
  induction base as [|c base IH].
  - rewrite append_nil_l. by destruct rest.
  - rewrite append_cons. cbn [String.length substring]. by rewrite IH.
Qed.

Lemma length_append (a b : string) :
  String.length (a +:+ b) = (String.length a + String.length b)%nat.
Proof.
  induction a as [|c a IH]; [done|].
  rewrite append_cons. cbn [String.length]. by rewrite IH.
Qed.

Lemma no_slash_app (a b : string) :
  no_slash (a +:+ b) = no_slash a && no_slash b.
Proof.
  unfold no_slash. induction a as [|c a IH]; [done|].
  rewrite append_cons. cbn [list_ascii_of_string forallb].
  by rewrite IH, andb_assoc.
Qed.

Lemma component_not_root (w : string) (ws : list string) :
  is_component w = true → has_root (w :: ws) = false.
Proof.
  unfold is_component, no_slash, has_root.
  intros [_ Hslash]%andb_true_iff.
  destruct w as [|c w]; [done|]. cbn [list_ascii_of_string forallb] in Hslash.
  apply andb_true_iff in Hslash as [Hc Hw]. apply negb_true_iff in Hc.
  cbn [String.eqb]. by rewrite Hc.
Qed.

Lemma Path_of_string_component (w : string) :
  is_component w = true → Path_of_string w = [w].
Proof.
  intros Hw.
  pose proof (component_not_root w [] Hw) as Hroot.
  assert (str_of_Path [w] = w) as Hstr.
  { unfold str_of_Path. by rewrite Hroot. }
  rewrite <- Hstr at 1. apply Path_of_string_str_of_Path.
  unfold is_pathlib_path. rewrite Hroot. cbn [forallb]. by rewrite Hw.
Qed.

Lemma components_snoc (directory : Path) (w : string) :
  is_component w = true →
  components (directory ++ [w])%list = (components directory ++ [w])%list.
Proof.
  intros Hw. unfold components. destruct directory as [|r ws].
  - cbn [app]. by rewrite (component_not_root w [] Hw).
  - change ((r :: ws) ++ [w])%list with (r :: (ws ++ [w]))%list.
    assert (has_root (r :: (ws ++ [w])%list) = has_root (r :: ws)) as -> by done.
    by destruct (has_root (r :: ws)).
Qed.

(** X26.  For an image whose name is [<base>.<extension>], with a base
    and an extension that are not empty and an extension without dot,
    [generate_sidecar_path] gives [<base>_metadata.json] in the directory
    of the image.  The extension plays no part: images of one directory
    that differ in the extension only share one sidecar path. *)
Theorem sidecar_path_of_image (directory : Path) (base ext : string)
    (Hname : is_component (base +:+ "." +:+ ext) = true)
    (Hbase : base ≠ "")
    (Hext : ext ≠ "")
    (Hdot : no_dot ext = true) :
  generate_sidecar_path (directory ++ [base +:+ "." +:+ ext])%list "_metadata"
  = (directory ++ [base +:+ "_metadata.json"])%list.
Proof.
  unfold generate_sidecar_path.
  assert (name (directory ++ [base +:+ "." +:+ ext])%list = base +:+ "." +:+ ext)
    as Hn.
  { unfold name. rewrite (components_snoc _ _ Hname). apply last_last. }
  assert (parent (directory ++ [base +:+ "." +:+ ext])%list = directory) as ->.
  { unfold parent. rewrite (components_snoc _ _ Hname).
    destruct (components directory ++ [_])%list eqn:Hc.
    - by apply app_eq_nil in Hc as [_ ?].
    - apply removelast_last. }
  assert (stem (directory ++ [base +:+ "." +:+ ext])%list = base) as ->.
  { unfold stem. rewrite Hn, (rfind_last_dot base ext Hdot).
    rewrite !length_append. cbn [String.length].
    destruct base as [|c base]; [done|]. destruct ext as [|d ext]; [done|].
    cbn [String.length].
    assert ((0 <? S (String.length base))%nat = true) as ->
      by (apply Nat.ltb_lt; lia).
    match goal with
    | |- context [(?a <? ?b)%nat] =>
        assert ((a <? b)%nat = true) as -> by (apply Nat.ltb_lt; lia)
    end.
    cbn [andb]. apply (substring_prefix (String c base)). }
  assert (is_component (base +:+ "_metadata" +:+ ".json") = true) as Hw.
  { change ("_metadata" +:+ ".json") with "_metadata.json".
    unfold is_component in *.
    apply andb_true_iff in Hname as [_ Hslash].
    rewrite no_slash_app in Hslash. apply andb_true_iff in Hslash as [Hb _].
    rewrite no_slash_app, Hb.
    assert (no_slash "_metadata.json" = true) as -> by reflexivity.
    assert (∀ s, String.eqb (s +:+ "_metadata.json") "" = false) as Hne.
    { intros [|a s]; [reflexivity|]. by rewrite append_cons. }
    destruct base as [|c base]; [done|]. rewrite append_cons.
    cbn [String.eqb]. rewrite Hne. by destruct (Ascii.eqb c "."). }
  rewrite (Path_of_string_component _ Hw). unfold truediv.
  by rewrite (component_not_root _ [] Hw).
Qed.

End SidecarCoverage.
(** ** The command line and the image checks *)

Section CliCoverage.
Import Config Presets Pathlib Cli CliSpec ImageValidation ImageLoader.

Variable simulate_cvd : Algorithm → Simulator.Image → CVDType → PyFloat
                        → option Simulator.Image.
Variable save : Simulator.Image → CVDType → option Path.
Variable simulator_init : SimulationConfig → bool.
Variable sidecar_written : Path → bool.
Variable TQDM_AVAILABLE : bool.
Variable parse_args : list string → Parse.
Variable log_file_opens : Path → bool.
Variable probe : Path → FileProbe.
Variable open_RGB : Path → option Simulator.Image.

Lemma process_single_image_not_loaded (load : Path → option Simulator.Image)
    (config : SimulationConfig) (image_path : Path)
    (cvd_type : option CVDType) (export_metadata_flag : bool) :
  load image_path = None →
  process_single_image simulate_cvd load save sidecar_written config
    image_path cvd_type export_metadata_flag = 0%Z.
Proof.
  intros Hload. unfold process_single_image, Simulator.process_image,
    Simulator.loader_load. rewrite Hload. by destruct cvd_type.
Qed.

(** X27.  From the command line down to the file checks.  When the
    argument list parses to a namespace without a list option, logging can
    be set up (no log file is asked for, or it can be opened), and one of
    the input files is rejected by the security checks of the loader (it
    does not exist, is empty or too large, has no allowed format, is
    corrupted or too wide), [main] returns exit code 1, whatever happens to
    the other files. *)
Theorem main_returns_1_for_a_rejected_file (args : list string)
    (parsed : Namespace) (image : string) (config : SimulationConfig)
    (Hparsed : parse_args args = Parsed parsed)
    (Hlist : list_option_given parsed = false)
    (Hlogging : logging_set_up log_file_opens parsed = true)
    (Himage : image ∈ images parsed)
    (Hrejected :
       ∃ violation,
         validate_image default_validator (Path_of_string image)
           (probe (Path_of_string image)) = Raise violation) :
  main simulate_cvd (loader probe open_RGB config) save simulator_init
    sidecar_written TQDM_AVAILABLE parse_args log_file_opens args
  = Returns 1.
Proof.
  unfold list_option_given in Hlist.
  apply orb_false_iff in Hlist as [Hlist Hpresets].
  apply orb_false_iff in Hlist as [Halgorithms Htypes].
  unfold main. rewrite Hparsed, Halgorithms, Htypes, Hpresets.
  destruct (images parsed) as [|first rest] eqn:Himages;
    [by apply elem_of_nil in Himage|].
  unfold logging_set_up in Hlogging.
  destruct (setup_logging log_file_opens (log_file_of parsed)); [|done].
  destruct (build_config parsed) as [built|e]; [|done].
  destruct (simulator_init built); [|done]. simpl negb. cbv iota.
  assert (loader probe open_RGB config (Path_of_string image) = None)
    as Hload.
  { destruct Hrejected as [violation Hv].
    unfold loader, CVDSimulator_loader_load, load, new_ImageLoader.
    by rewrite Hv. }
  pose proof (sum_of_counts
                (λ p, process_single_image simulate_cvd
                        (loader probe open_RGB config) save
                        sidecar_written built p (arg_type parsed)
                        (arg_export_metadata parsed))
                (Path_of_string <$> first :: rest) 0
                (λ p, process_single_image_count simulate_cvd _ save
                        sidecar_written built p _ _)) as [_ Heq].
  rewrite Z.add_0_l in Heq.
  assert (forallb
            (λ p, (process_single_image simulate_cvd
                     (loader probe open_RGB config) save sidecar_written
                     built p (arg_type parsed) (arg_export_metadata parsed)
                   =? 1)%Z)
            (Path_of_string <$> first :: rest) = false) as Hsome.
  { apply not_true_iff_false. intros Hall.
    rewrite forallb_forall in Hall.
    specialize (Hall (Path_of_string image)).
    rewrite process_single_image_not_loaded in Hall by done.
    assert (In (Path_of_string image) (Path_of_string <$> first :: rest))
      as Hin by (apply list_elem_of_In, list_elem_of_fmap; by exists image).
    by specialize (Hall Hin). }
  rewrite Hsome in Heq. destruct (_ && _); by rewrite Heq.
Qed.

End CliCoverage.

(** ** Worked cases of the further properties *)

Section FurtherCases.
Import Config ConfigSpec Pathlib PathlibSpec Validators ValidatorSpec
  FilenameSpec Simulator BatchSpec BatchOrderSpec Presets Cli Metadata
  MetadataSpec ConfigDict MetadataTools PresetStore OutputWriter Scenario.

Lemma chunked_with_one_chunk_is_parallel_witness :
  process_batch_chunked simulate_cvd load save pool_delivers default_fields
    2 (λ _, []) [bad; good] 5 None
  = process_batch_parallel simulate_cvd load save pool_delivers default_fields
      2 [] [bad; good] None.
Proof.
  apply (chunked_with_one_chunk_is_parallel simulate_cvd load save
           pool_delivers default_fields 2 (λ _, []) [bad; good] 5 None).
  simpl. lia.
Defined.

Lemma chunked_with_nonpositive_chunk_size_witness :
  process_batch_chunked simulate_cvd load save pool_delivers default_fields
    2 (λ _, []) [good] (-1) None
  = Ok ∅.
Proof.
  apply (chunked_with_nonpositive_chunk_size simulate_cvd load save
           pool_delivers default_fields 2 (λ _, []) [good] (-1) None).
  - discriminate.
  - lia.
Defined.

Lemma chunked_ends_at_first_failing_chunk_witness :
  let chunk (k : nat) :=
    slice [bad; good] (Z.of_nat k * 1) (Z.of_nat k * 1 + 1) in
  (∃ m, process_batch_chunked simulate_cvd load save pool_delivers
          default_fields 2 (λ _, []) [bad; good] 1 None = Ok m
        ∧ records (unit_of_work simulate_cvd load save pool_delivers
                     default_fields None) [bad; good] m)
  ∨ ∃ k : nat,
      (∀ j : nat, (j < k)%nat →
         chunk_returns simulate_cvd load save pool_delivers default_fields
           None (chunk j))
      ∧ chunk k ≠ []
      ∧ (∀ p, p ∈ chunk k →
           unit_of_work simulate_cvd load save pool_delivers default_fields
             None p = None)
      ∧ process_batch_chunked simulate_cvd load save pool_delivers
          default_fields 2 (λ _, []) [bad; good] 1 None
        = Raise (BatchProcessingError "All images failed to process"
                   (as_completed [] (chunk k)) 0).
Proof.
  apply (chunked_ends_at_first_failing_chunk simulate_cvd load save
           pool_delivers default_fields 2 (λ _, []) [bad; good] 1 None);
    lia.
Defined.

Lemma nonpositive_worker_count_raises_witness :
  process_batch_parallel simulate_cvd load save pool_delivers default_fields
    (-2) [] [good] None
  = Raise (ValueError "max_workers must be greater than 0")
  ∧ process_batch_chunked simulate_cvd load save pool_delivers default_fields
      (-2) (λ _, []) [good] 1 None
    = Raise (ValueError "max_workers must be greater than 0").
Proof.
  apply (nonpositive_worker_count_raises simulate_cvd load save pool_delivers
           default_fields (-2) [] (λ _, []) [good] 1 None).
  - lia.
  - discriminate.
  - lia.
Defined.

Lemma parallel_returned_mapping_witness :
  ∃ m,
    process_batch_parallel simulate_cvd load save pool_delivers default_fields
      2 [1; 0]%nat [bad; good; bad] None = Ok m
    ∧ dom m = list_to_set [bad; good; bad]
    ∧ (∀ p, p ∈ [bad; good; bad] →
         m !! p = Some (unit_of_work simulate_cvd load save pool_delivers
                          default_fields None p))
    ∧ ([bad; good; bad] ≠ [] → ∃ p result, m !! p = Some (Some result)).
Proof.
  eexists. split; [reflexivity|].
  apply (parallel_returned_mapping simulate_cvd load save pool_delivers
           default_fields 2 [1; 0]%nat [bad; good; bad] None).
  reflexivity.
Defined.

Lemma sanitize_output_path_without_links_witness :
  ∃ target,
    sanitize_output_path (lexical_resolve ["home"]) ["outputs"]
      "../../etc/passwd" = Ok target
    ∧ lexical_resolve ["home"] ["outputs"] `prefix_of` target
    ∧ (sanitize_filename "../../etc/passwd" ≠ "." →
       target = (lexical_resolve ["home"] ["outputs"]
                 ++ [sanitize_filename "../../etc/passwd"])%list).
Proof.
  apply (sanitize_output_path_without_links ["home"] ["outputs"]
           "../../etc/passwd").
  constructor; [discriminate|constructor].
Defined.

Lemma save_writes_the_default_name_witness :
  OutputWriter.save (lexical_resolve ["home"]) default_fields
    "20260212_153045" true FurtherScenario.image_save_ok tiny_image PROTAN
    None None
  = Ok ["/"; "home"; "outputs"; "protan_image_20260212_153045.jpg"].
Proof.
  apply (save_writes_the_default_name ["home"] default_fields
           "20260212_153045" true FurtherScenario.image_save_ok
           ["outputs"] tiny_image PROTAN).
  - constructor; [discriminate|constructor].
  - reflexivity.
  - reflexivity.
Defined.

Lemma generated_output_paths_differ_by_type_witness :
  ∃ path1 path2,
    _generate_output_path (lexical_resolve ["home"]) default_fields PROTAN
      "now" None = Ok path1
    ∧ _generate_output_path (lexical_resolve ["home"]) default_fields DEUTAN
        "now" None = Ok path2
    ∧ path1 ≠ path2.
Proof.
  apply (generated_output_paths_differ_by_type ["home"] default_fields
           ["outputs"] PROTAN DEUTAN "now" "now").
  - constructor; [discriminate|constructor].
  - reflexivity.
  - discriminate.
Defined.

Lemma from_dict_to_dict_witness :
  from_dict (to_dict default_fields) = Ok default_fields.
Proof.
  apply (from_dict_to_dict default_fields).
  - reflexivity.
  - exists ["outputs"]. split; reflexivity.
Defined.

Lemma from_dict_rejects_unknown_keys_witness :
  ∃ config_key,
    from_dict [("severity", PFloat (FFinite (1 # 2))); ("colour", PStr "red")]
    = Raise (ConfigurationError config_key).
Proof.
  apply (from_dict_rejects_unknown_keys
           [("severity", PFloat (FFinite (1 # 2))); ("colour", PStr "red")]
           "colour").
  - apply (bool_decide_unpack _). vm_compute. exact I.
  - apply (bool_decide_unpack _). vm_compute. exact I.
Defined.

Lemma from_dict_result_witness :
  ∃ config,
    from_dict [("quality", PInt 80); ("algorithm", PStr "vischeck")]
    = Ok config
    ∧ let absent key :=
        dict_get key [("quality", PInt 80); ("algorithm", PStr "vischeck")]
        = None in
      fields_in_range config
      ∧ Forall (λ key, key ∈ valid_keys)
          [("quality", PInt 80); ("algorithm", PStr "vischeck")].*1
      ∧ (absent "algorithm" → algorithm config = BRETTEL_1997)
      ∧ (absent "severity" → severity config = FFinite (8 # 10))
      ∧ (absent "output_format" → output_format config = JPEG)
      ∧ (absent "output_directory" →
         output_directory config = IsPath ["outputs"])
      ∧ (absent "quality" → quality config = 95%Z)
      ∧ (absent "optimize" → optimize config = true)
      ∧ (absent "log_level" → log_level config = INFO)
      ∧ (absent "max_workers" → max_workers config = None)
      ∧ (absent "max_image_size" → max_image_size config = 104857600%Z)
      ∧ (absent "max_image_dimension" →
         max_image_dimension config = 10000%Z).
Proof.
  eexists. split; [reflexivity|].
  apply (from_dict_result
           [("quality", PInt 80); ("algorithm", PStr "vischeck")]).
  reflexivity.
Defined.

Lemma created_metadata_round_trip_witness :
  let metadata :=
    create_metadata FurtherScenario.path_exists
      FurtherScenario.sha256_hexdigest "2026-02-12T15:30:45Z"
      FurtherScenario.workstation ["photo.png"]
      [(PROTAN, ["outputs"; "protan_image.jpg"])] default_fields
      (FFinite (25 # 2)) "" in
  ∃ loaded,
    load_metadata ["photo_metadata.json"]
      (export_metadata metadata ["photo_metadata.json"] ∅).2
    = Ok loaded
    ∧ loaded = metadata
    ∧ SimulationMetadata_eqb loaded metadata = true.
Proof.
  apply (created_metadata_round_trip FurtherScenario.path_exists
           FurtherScenario.sha256_hexdigest "2026-02-12T15:30:45Z"
           FurtherScenario.workstation ["photo.png"]
           [(PROTAN, ["outputs"; "protan_image.jpg"])] default_fields
           (FFinite (25 # 2)) "" ["photo_metadata.json"] ∅).
  - reflexivity.
  - reflexivity.
Defined.

Lemma sidecar_path_of_image_witness :
  generate_sidecar_path ["photos"; "cat.v2.png"] "_metadata"
  = ["photos"; "cat.v2_metadata.json"].
Proof.
  apply (sidecar_path_of_image ["photos"] "cat.v2" "png").
  - reflexivity.
  - discriminate.
  - discriminate.
  - reflexivity.
Defined.

Lemma preset_keeps_the_directory_of_main_witness :
  let after := (main_build_config FurtherScenario.preset_run PRESETS).2 in
  (main_build_config FurtherScenario.preset_run PRESETS).1
  = build_config FurtherScenario.preset_run
  ∧ output_directory (apply_preset after WEB_DESIGN None).1
    = IsPath (Path_of_string (arg_output FurtherScenario.preset_run))
  ∧ (∀ q, q ≠ WEB_DESIGN → after q = PRESETS q)
  ∧ (∀ q directory, (apply_preset PRESETS q directory).2 = PRESETS).
Proof.
  apply (preset_keeps_the_directory_of_main FurtherScenario.preset_run
           WEB_DESIGN PRESETS).
  reflexivity.
Defined.

Lemma main_returns_1_for_a_rejected_file_witness :
  main simulate_cvd
    (ImageLoader.loader FurtherScenario.empty_files (λ _, Some tiny_image)
       default_fields)
    save (λ _, true) (λ _, true) true
    FurtherScenario.parse_args_of_preset_run (λ _, true)
    ["photo.png"; "--preset"; "web_design"; "-o"; "./out"]
  = Returns 1.
Proof.
  apply (main_returns_1_for_a_rejected_file simulate_cvd save (λ _, true)
           (λ _, true) true FurtherScenario.parse_args_of_preset_run
           (λ _, true) FurtherScenario.empty_files (λ _, Some tiny_image)
           ["photo.png"; "--preset"; "web_design"; "-o"; "./out"]
           FurtherScenario.preset_run "photo.png" default_fields).
  - reflexivity.
  - reflexivity.
  - reflexivity.
  - apply (bool_decide_unpack _). vm_compute. exact I.
  - eexists. reflexivity.
Defined.


Lemma load_metadata_missing_witness :
  load_metadata ["photo_metadata.json"]
    {[ ["photo_metadata.json"] := JObject [("version", JString "1.1.1")] ]}
  = Raise (KeyError "timestamp")
  ∧ load_metadata ["photo_metadata.json"]
      (delete ["photo_metadata.json"]
         {[ ["photo_metadata.json"]
            := JObject [("version", JString "1.1.1")] ]})
    = Raise FileNotFoundError.
Proof.
  apply (load_metadata_missing ["photo_metadata.json"]
           {[ ["photo_metadata.json"]
              := JObject [("version", JString "1.1.1")] ]}
           (JObject [("version", JString "1.1.1")])
           [("version", PStr "1.1.1")]
           ["version"] "timestamp" ["input_file"; "input_checksum"]).
  - reflexivity.
  - reflexivity.
  - reflexivity.
  - intros k Hk. exists "1.1.1".
    apply list_elem_of_singleton in Hk. by rewrite Hk.
  - reflexivity.
Defined.

End FurtherCases.
